(** * carbon-graphs: a shallow embedding of the Graph controller, the region
    overlay, the datetime tick buckets and their grids, the validation of a
    dateline, the Gantt load and track helpers, the value ranges of Line and
    Bar contents and the shown targets of a paired result, with the
    properties proved about them.

    The JavaScript sources are embedded function by function.  Every embedded
    definition names the source function it follows.  Mutation is modelled by
    explicit state passing; an exception is a result that keeps the state
    reached when it was raised. *)

From stdpp Require Import base numbers list strings gmap.

Set Warnings "-register-all".

Local Open Scope Z_scope.

(* ===================================================================== *)
(** * JavaScript values *)
(* ===================================================================== *)

Module JS.

(** A JavaScript number.  The code embedded here compares numbers, takes
    minima and maxima and adds track heights, so a finite number is
    represented by an integer; [NaN] and the two infinities are kept because
    [Number(undefined)], [Math.min()] and [Math.max()] produce them. *)
Inductive JsNumber : Type :=
| NaN
| NegInfinity
| Fin (z : Z)
| Infinity.

(** The primitive values, arrays and plain objects a configuration holds. *)
Inductive JsVal : Type :=
| JUndefined
| JNull
| JBool (b : bool)
| JNum (n : JsNumber)
| JStr (s : string)
| JArr (items : list JsVal)
| JObj (fields : list (string * JsVal)).

#[global] Instance JsNumber_eq_dec : EqDecision JsNumber.
Proof. solve_decision. Defined.

(** [a < b] on numbers: false as soon as one side is [NaN]. *)
Definition num_lt (a b : JsNumber) : bool :=
  match a, b with
  | NaN, _ | _, NaN => false
  | _, NegInfinity => false
  | NegInfinity, _ => true
  | Infinity, _ => false
  | Fin _, Infinity => true
  | Fin x, Fin y => bool_decide (x < y)
  end.

(** The double nearest to an integer, a tie going to the even mantissa: an
    integer of at most 53 bits is a double, a longer one keeps its 53 leading
    bits, and one that rounds to [2^1024] or beyond is an infinity. *)
Definition round_double (z : Z) : JsNumber :=
  let a := Z.abs z in
  if bool_decide (a <= 2 ^ 53) then Fin z
  else
    let e := Z.log2 a - 52 in
    let q := a / 2 ^ e in
    let r := a mod 2 ^ e in
    let q :=
      if bool_decide (2 ^ e < 2 * r) || (bool_decide (2 * r = 2 ^ e) && Z.odd q)
      then q + 1 else q in
    if bool_decide (2 ^ 1024 <= q * 2 ^ e)
    then (if bool_decide (0 < z) then Infinity else NegInfinity)
    else Fin (Z.sgn z * (q * 2 ^ e)).

(** [a + b] on numbers: the exact sum, rounded to a double. *)
Definition num_add (a b : JsNumber) : JsNumber :=
  match a, b with
  | NaN, _ | _, NaN => NaN
  | Infinity, NegInfinity | NegInfinity, Infinity => NaN
  | Infinity, _ | _, Infinity => Infinity
  | NegInfinity, _ | _, NegInfinity => NegInfinity
  | Fin x, Fin y => round_double (x + y)
  end.

(** [a > b] is [b < a]. *)
Definition num_gt (a b : JsNumber) : bool := num_lt b a.

(** One step of [Math.min]: [NaN] is absorbing, otherwise the smaller. *)
Definition min2 (a b : JsNumber) : JsNumber :=
  match a, b with
  | NaN, _ | _, NaN => NaN
  | _, _ => if num_lt b a then b else a
  end.

(** One step of [Math.max]. *)
Definition max2 (a b : JsNumber) : JsNumber :=
  match a, b with
  | NaN, _ | _, NaN => NaN
  | _, _ => if num_lt a b then b else a
  end.

(** [Math.min(...l)] over numbers: [Infinity] for no argument. *)
Definition Math_min_num (l : list JsNumber) : JsNumber := foldr min2 Infinity l.

(** [Math.max(...l)] over numbers: [-Infinity] for no argument. *)
Definition Math_max_num (l : list JsNumber) : JsNumber := foldr max2 NegInfinity l.

(** ToBoolean: the truthiness test of [x ? a : b], [x && y] and [x || y]. *)
Definition truthy (v : JsVal) : bool :=
  match v with
  | JUndefined | JNull => false
  | JBool b => b
  | JNum NaN => false
  | JNum (Fin z) => negb (bool_decide (z = 0))
  | JNum _ => true
  | JStr s => negb (bool_decide (s = ""))
  | JArr _ | JObj _ => true
  end.

(** [v === null]. *)
Definition is_null (v : JsVal) : bool :=
  match v with JNull => true | _ => false end.

(** [v === s] for a string [s]. *)
Definition is_string (s : string) (v : JsVal) : bool :=
  match v with JStr s' => bool_decide (s' = s) | _ => false end.

(** The conversions that belong to the language and depend on the text of
    a string, on the digits of a number or on an object's own methods; they
    are taken as given. *)
Record Lang : Type := {
  StringToNumber : string -> JsNumber;
  ObjectToNumber : JsVal -> JsNumber;
  NonStringToString : JsVal -> string
}.

(** ToString, as applied by a template literal and by a property key: a
    string is left as it is. *)
Definition ToString (lang : Lang) (v : JsVal) : string :=
  match v with JStr s => s | _ => NonStringToString lang v end.

(** ToNumber, as applied by [Number(v)], by [Math.min]/[Math.max] to each
    argument and by the relational operators. *)
Definition ToNumber (lang : Lang) (v : JsVal) : JsNumber :=
  match v with
  | JUndefined => NaN
  | JNull => Fin 0
  | JBool b => if b then Fin 1 else Fin 0
  | JNum n => n
  | JStr s => StringToNumber lang s
  | JArr _ | JObj _ => ObjectToNumber lang v
  end.

(** ToPrimitive, as applied by [+] to its operands: a primitive value is
    left as it is; an array or a plain object has no primitive value of its
    own ([valueOf] returns the object), so its string is taken. *)
Definition ToPrimitive (lang : Lang) (v : JsVal) : JsVal :=
  match v with
  | JArr _ | JObj _ => JStr (NonStringToString lang v)
  | _ => v
  end.

(** [a + b]: the concatenation of the two strings as soon as one operand
    is a string, the sum of the two numbers otherwise. *)
Definition js_add (lang : Lang) (a b : JsVal) : JsVal :=
  let a := ToPrimitive lang a in
  let b := ToPrimitive lang b in
  match a, b with
  | JStr _, _ | _, JStr _ => JStr (ToString lang a +:+ ToString lang b)
  | _, _ => JNum (num_add (ToNumber lang a) (ToNumber lang b))
  end.

(** [Math.min(...vs)] and [Math.max(...vs)]. *)
Definition Math_min (lang : Lang) (vs : list JsVal) : JsNumber :=
  Math_min_num (ToNumber lang <$> vs).
Definition Math_max (lang : Lang) (vs : list JsVal) : JsNumber :=
  Math_max_num (ToNumber lang <$> vs).

(** A property key: the string of the value. *)
Definition ToPropertyKey (lang : Lang) (v : JsVal) : string := ToString lang v.

(** An instance of the conversions, used only on concrete inputs whose
    numbers are written as numbers. *)
Definition std_lang : Lang := {|
  StringToNumber _ := NaN;
  ObjectToNumber _ := NaN;
  NonStringToString _ := ""
|}.

(** The items of an array; a value that is not an array has none.  This is
    also what [selection.data(v)] of d3 joins: a value without a [length]
    joins no datum. *)
Definition array_items (v : JsVal) : list JsVal :=
  match v with JArr l => l | _ => [] end.

(** The outcome of a call: it returns a value or throws. *)
Inductive Outcome (E A : Type) : Type :=
| Returns (a : A)
| Throws (e : E).
Arguments Returns {E A} a.
Arguments Throws {E A} e.

#[global] Instance Outcome_ret {E} : MRet (Outcome E) := fun A a => Returns a.
#[global] Instance Outcome_bind {E} : MBind (Outcome E) :=
  fun A B f m => match m with Returns a => f a | Throws e => Throws e end.

(** [if (c) throw new Error(e)]. *)
Definition throw_if {E} (c : bool) (e : E) : Outcome E unit :=
  if c then Throws e else Returns tt.

(** The value stored under [k] in an object's entries, [undefined] if none. *)
Fixpoint assoc (k : string) (fields : list (string * JsVal)) : JsVal :=
  match fields with
  | [] => JUndefined
  | (k', v) :: rest => if bool_decide (k' = k) then v else assoc k rest
  end.

End JS.
Export JS.

(* ===================================================================== *)
(** * Constants, messages and the helper modules the sources import *)
(* ===================================================================== *)

(** [helpers/errors.js]: each message constant is a distinct error kind.
    [TypeError] is the language's own error for a property read on
    [undefined] or [null]; [OtherError] stands for a message thrown by a
    collaborator that is not part of the embedded sources. *)
Inductive Error : Type :=
| THROW_MSG_REGION_EMPTY
| THROW_MSG_REGION_START_END_MISSING
| THROW_MSG_REGION_INVALID_AXIS_PROVIDED
| THROW_MSG_REGION_INVALID_VALUE_TYPE_PROVIDED
| THROW_MSG_REGION_START_MORE_END
| THROW_MSG_INVALID_OBJECT_PROVIDED
| THROW_MSG_INVALID_LOAD_CONTENT_AT_INDEX
| TypeError
| OtherError (msg : string).

#[global] Instance Error_eq_dec : EqDecision Error.
Proof. solve_decision. Defined.

(** [helpers/constants.js]: the axis names are also the names of the SVG
    attributes [x] and [y] ([attr(constants.X_AXIS, ...)]) and the values the
    sources document for [yAxis] ("y or y2"). *)
Module constants.
Definition X_AXIS : string := "x".
Definition Y_AXIS : string := "y".
Definition Y2_AXIS : string := "y2".
End constants.

(** [AXIS_TYPE] of [helpers/constants.js]. *)
Inductive AXIS_TYPE : Type :=
| TIME_SERIES
| OtherAxisType (name : string).

#[global] Instance AXIS_TYPE_eq_dec : EqDecision AXIS_TYPE.
Proof. solve_decision. Defined.

(** [helpers/utils.js] is imported by every embedded file and is not among
    the sources; its functions are taken as given.  [notEmpty] is the
    negation of [isEmpty]. *)
Record Utils : Type := {
  isEmpty : JsVal -> bool;
  isNumber : JsVal -> bool
}.

Definition notEmpty (utils : Utils) (v : JsVal) : bool := negb (isEmpty utils v).

(** An instance of the two helpers, used only to run the embedded functions
    on concrete inputs: a value is empty when it is [undefined], [null], the
    empty string, or an array or object without entries; a number is a value
    of number type other than [NaN].  The general theorems below hold for
    every [Utils] that meets the hypotheses they state. *)
Definition std_utils : Utils := {|
  isEmpty v :=
    match v with
    | JUndefined | JNull | JStr "" | JArr [] | JObj [] => true
    | _ => false
    end;
  isNumber v :=
    match v with
    | JNum NaN => false
    | JNum _ => true
    | _ => false
    end
|}.

(** [helpers/styles.js]: the class names used by the region overlay; the
    file is not among the sources, so the names are taken as given. *)
Record Styles : Type := {
  region : string;
  regionGroup : string;
  datelineContent : string
}.

(** An instance of the class names, used only on concrete inputs. *)
Definition std_styles : Styles :=
  {| region := "carbon-region"; regionGroup := "carbon-region-group";
     datelineContent := "carbon-dateline-content" |}.

(* ===================================================================== *)
(** * The document tree and the d3 selections used by the sources *)
(* ===================================================================== *)

Module DOM.

(** An attribute value as [setAttribute] stores it.  Booleans are stored as
    the strings ["true"] and ["false"]; a number is kept as a number. *)
Inductive AttrVal : Type :=
| AStr (s : string)
| ANum (z : Z).

#[global] Instance AttrVal_eq_dec : EqDecision AttrVal.
Proof. solve_decision. Defined.

Definition attr_of_bool (b : bool) : AttrVal :=
  AStr (if b then "true" else "false").

(** What an element owns besides its children: tag, class list, attributes
    and the datum d3 binds to it ([__data__]). *)
Record Own : Type := {
  tagName : string;
  classList : list string;
  attributes : gmap string AttrVal;
  datum : JsVal
}.

Inductive Node : Type :=
| Element (own : Own) (childNodes : list Node).

Definition own_of (n : Node) : Own :=
  match n with Element o _ => o end.

Definition children_of (n : Node) : list Node :=
  match n with Element _ ch => ch end.

(** The proper descendants of a node in document order. *)
Fixpoint descendants (n : Node) : list Node :=
  match n with
  | Element _ ch => ch ≫= (fun k => k :: descendants k)
  end.

(** What the proper descendants of a node own, in document order. *)
Definition owns (root : Node) : list Own := own_of <$> descendants root.

(** The CSS selectors that occur in the embedded sources. *)
Inductive Selector : Type :=
| ByTag (tag : string)
| ByClass (cls : string)
| ByAttr (name value : string)
| ByClassAttr (cls name value : string).

Definition has_class (c : string) (o : Own) : bool :=
  bool_decide (c ∈ classList o).

Definition attr_is (name value : string) (o : Own) : bool :=
  bool_decide (attributes o !! name = Some (AStr value)).

Definition matches (s : Selector) (o : Own) : bool :=
  match s with
  | ByTag t => bool_decide (tagName o = t)
  | ByClass c => has_class c o
  | ByAttr a v => attr_is a v o
  | ByClassAttr c a v => has_class c o && attr_is a v o
  end.

(** [selection.attr(name, value)] on one element. *)
Definition set_attr (name : string) (v : AttrVal) (o : Own) : Own :=
  {| tagName := tagName o; classList := classList o;
     attributes := <[name := v]> (attributes o); datum := datum o |}.

(** [selection.attr(name)]: the stored value, if any. *)
Definition get_attr (name : string) (o : Own) : option AttrVal :=
  attributes o !! name.

(** [selection.classed(cls, true)] on one element. *)
Definition add_class (c : string) (o : Own) : Own :=
  {| tagName := tagName o;
     classList := if has_class c o then classList o else classList o ++ [c];
     attributes := attributes o; datum := datum o |}.

(** [node.__data__ = d]. *)
Definition set_datum (d : JsVal) (o : Own) : Own :=
  {| tagName := tagName o; classList := classList o;
     attributes := attributes o; datum := d |}.

(** [root.selectAll(sel)] followed by an edit of each selected element: the
    edit [f] is applied to every proper descendant that matches. *)
Fixpoint selectAll_each (sel : Selector) (f : Own -> Own) (root : Node) : Node :=
  match root with
  | Element o ch =>
    Element o
      (map (fun k =>
              match selectAll_each sel f k with
              | Element ko kch =>
                Element (if matches sel (own_of k) then f ko else ko) kch
              end) ch)
  end.

(** [root.select(sel)] followed by an operation on the selected element: [f]
    runs on the first proper descendant, in document order, that matches.
    [None] when the selection is empty. *)
Fixpoint select_first {R : Type} (sel : Selector) (f : Node -> Node * R)
    (root : Node) : option (Node * R) :=
  match root with
  | Element o ch =>
    let fix go (ks : list Node) : option (list Node * R) :=
      match ks with
      | [] => None
      | k :: ks' =>
        if matches sel (own_of k) then
          let '(k', r) := f k in Some (k' :: ks', r)
        else
          match select_first sel f k with
          | Some (k', r) => Some (k' :: ks', r)
          | None =>
            match go ks' with
            | Some (ks'', r) => Some (k :: ks'', r)
            | None => None
            end
          end
      end in
    match go ch with
    | Some (ch', r) => Some (Element o ch', r)
    | None => None
    end
  end.

(** [root.selectAll(sel)] followed by an edit that sees the index of each
    selected element in the selection (document order), counted from [i].
    Returns the next free index with the edited tree. *)
Fixpoint selectAll_indexed (sel : Selector) (f : nat -> Own -> Own) (i : nat)
    (root : Node) : nat * Node :=
  match root with
  | Element o ch =>
    let fix go (i : nat) (ks : list Node) : nat * list Node :=
      match ks with
      | [] => (i, [])
      | k :: ks' =>
        let hit := matches sel (own_of k) in
        let '(i2, k') := selectAll_indexed sel f (if hit then S i else i) k in
        let k'' :=
          match k' with
          | Element ko kch => Element (if hit then f i ko else ko) kch
          end in
        let '(i3, ks'') := go i2 ks' in
        (i3, k'' :: ks'')
      end in
    let '(j, ch') := go i ch in
    (j, Element o ch')
  end.

(** [root.selectAll(sel).data(data)]: the join by index.  The selected
    element number [i] receives [data[i]] as its datum when there is one;
    the data past the size of the selection form the enter selection.
    Returns the tree after the join and the entering data. *)
Definition data_join (sel : Selector) (data : list JsVal) (root : Node)
    : Node * list JsVal :=
  let '(n, root') :=
    selectAll_indexed sel
      (fun i o => match data !! i with Some d => set_datum d o | None => o end)
      0%nat root in
  (root', drop n data).

(** A pass of a chained d3 call over the elements of a selection, in order:
    the first element on which the call throws stops the pass, the elements
    before it keep their edit. *)
Fixpoint each_node (f : Own -> Outcome Error Own) (l : list Own)
    : list Own * Outcome Error unit :=
  match l with
  | [] => ([], Returns tt)
  | o :: l' =>
    match f o with
    | Returns o' => let '(l'', r) := each_node f l' in (o' :: l'', r)
    | Throws e => (o :: l', Throws e)
    end
  end.

(** The next call of a chain runs only if the previous one returned. *)
Definition pass (f : Own -> Outcome Error Own)
    (st : list Own * Outcome Error unit) : list Own * Outcome Error unit :=
  match st with
  | (l, Returns _) => each_node f l
  | (l, Throws e) => (l, Throws e)
  end.

(** A pass whose edit cannot throw. *)
Definition pass_pure (f : Own -> Own) := pass (fun o => Returns (f o)).

(** The elements [root.selectAll(sel)] selects, in document order. *)
Definition selected (sel : Selector) (root : Node) : list Own :=
  filter (fun o => matches sel o = true) (owns root).

(** [root.selectAll(sel)] followed by a chain of calls: the chain runs over
    the selected elements and its edits are written back to the tree. *)
Definition selectAll_chain (sel : Selector)
    (chain : list Own * Outcome Error unit -> list Own * Outcome Error unit)
    (root : Node) : Node * Outcome Error unit :=
  let '(owns, r) := chain (selected sel root, Returns tt) in
  (snd (selectAll_indexed sel (fun i o => default o (owns !! i)) 0%nat root), r).

(** [root.select(sel).empty()]. *)
Definition select_empty (sel : Selector) (root : Node) : bool :=
  match selected sel root with [] => true | _ => false end.

(** [root.select(sel).remove()]: the first element that matches leaves the
    tree with its subtree. *)
Fixpoint remove_first (sel : Selector) (root : Node) : option Node :=
  match root with
  | Element o ch =>
    let fix go (ks : list Node) : option (list Node) :=
      match ks with
      | [] => None
      | k :: ks' =>
        if matches sel (own_of k) then Some ks'
        else
          match remove_first sel k with
          | Some k' => Some (k' :: ks')
          | None =>
            match go ks' with
            | Some ks'' => Some (k :: ks'')
            | None => None
            end
          end
      end in
    match go ch with
    | Some ch' => Some (Element o ch')
    | None => None
    end
  end.

(** [document.createElement(tag)] with the datum of an enter placeholder. *)
Definition new_element (tag : string) (d : JsVal) : Own :=
  {| tagName := tag; classList := []; attributes := ∅; datum := d |}.

(** An element without children. *)
Definition leaf (o : Own) : Node := Element o [].

(** [parent.appendChild(k)] for each [k] of [ks], in order. *)
Definition append_children (ks : list Node) (parent : Node) : Node :=
  match parent with Element o ch => Element o (ch ++ ks) end.

End DOM.
Export DOM.

(** [v.k]: reading a property throws a [TypeError] on [undefined] and
    [null]; a primitive has none of the properties read by the sources. *)
Definition get_prop (v : JsVal) (k : string) : Outcome Error JsVal :=
  match v with
  | JUndefined | JNull => Throws TypeError
  | JObj fields => Returns (assoc k fields)
  | _ => Returns JUndefined
  end.

(* ===================================================================== *)
(** * Configuration and scale objects *)
(* ===================================================================== *)

(** [config.axis[a].dataRange], written by [getAxesDataRange]. *)
Record DataRange : Type := {
  dr_isRangeModified : JsVal;
  range_min : JsVal;
  range_max : JsVal
}.

(** One track of a Gantt chart, an entry of [config.axis.y.trackList]. *)
Record Track : Type := {
  trackHeight : JsVal;
  trackLabel : JsVal
}.

(** One axis descriptor of the configuration. *)
Record AxisConfig : Type := {
  type : AXIS_TYPE;
  domain : JsVal;
  ticks : JsVal;
  orientation : JsVal;
  rangeRounding : JsVal;
  dataRange : option DataRange;
  trackList : list (string * Track);
  trackCount : Z
}.

Record Axes : Type := {
  axis_x : AxisConfig;
  axis_y : AxisConfig;
  axis_y2 : AxisConfig
}.

(** [config.axis[name]]. *)
Definition axis_get (axes : Axes) (name : string) : option AxisConfig :=
  if bool_decide (name = constants.X_AXIS) then Some (axis_x axes)
  else if bool_decide (name = constants.Y_AXIS) then Some (axis_y axes)
  else if bool_decide (name = constants.Y2_AXIS) then Some (axis_y2 axes)
  else None.

Record Padding : Type := {
  padding_top : Z;
  padding_bottom : Z;
  padding_left : Z;
  padding_right : Z;
  hasCustomPadding : bool
}.

(** The configuration object shared by a construct and its contents: the
    properties read or written by the embedded sources, and [others] for
    the rest. *)
Record Config : Type := {
  axis : Axes;
  canvasWidth : Z;
  height : Z;
  padding : Padding;
  axisSizes_y : Z;
  axisLabelWidths_y : Z;
  shownTargets : list string;
  dateline : JsVal;
  others : list (string * JsVal)
}.

(** A d3 scale as the data it is built from: the domain and the range are
    the arrays the scale keeps. *)
Inductive ScaleKind : Type :=
| TimeScaleKind
| LinearScaleKind
| OrdinalScaleKind.

Record D3Scale : Type := {
  kind : ScaleKind;
  scale_domain : JsVal;
  scale_range : list JsVal;
  clamp : bool;
  nice : bool
}.

(** The [scale] object of a construct: [scale.x], [scale.y], [scale.y2]. *)
Definition Scale : Type := gmap string D3Scale.

#[global] Instance ScaleKind_eq_dec : EqDecision ScaleKind.
Proof. solve_decision. Defined.

(* ===================================================================== *)
(** * helpers/region.js *)
(* ===================================================================== *)

(** The functions [region.js] imports from [helpers/axis.js], the d3 scale
    call and the goal-line constant; none is among the sources.
    [scale_px s v] is [round2Decimals(s(v))] for a d3 scale [s]. *)
Record RegionEnv : Type := {
  getXAxisXPosition : Config -> Z;
  getXAxisWidth : Config -> Z;
  calculateVerticalPadding : Config -> Z;
  scale_px : D3Scale -> JsVal -> Z;
  getNumber : option AttrVal -> Z;
  DEFAULT_REGION_GOAL_LINE_STROKE_WIDTH : Z
}.

(** An instance used only on concrete inputs. *)
Definition std_region_env : RegionEnv := {|
  getXAxisXPosition _ := 0;
  getXAxisWidth c := canvasWidth c;
  calculateVerticalPadding _ := 0;
  scale_px _ v := match v with JNum (Fin z) => z | _ => 0 end;
  getNumber a := match a with Some (ANum z) => z | _ => 0 end;
  DEFAULT_REGION_GOAL_LINE_STROKE_WIDTH := 1
|}.

Module Region.
Section Region.
Context (lang : Lang) (utils : Utils) (styles : Styles) (env : RegionEnv).

(** [validateRegion(region, targetAxis)]. *)
Definition validateRegion (region : JsVal) (targetAxis : string)
    : Outcome Error unit :=
  throw_if (isEmpty utils region) THROW_MSG_REGION_EMPTY;;
  r_start ← get_prop region "start";
  r_end ← get_prop region "end";
  throw_if (isEmpty utils r_start && isEmpty utils r_end)
    THROW_MSG_REGION_START_END_MISSING;;
  r_axis ← get_prop region "axis";
  throw_if
    (notEmpty utils r_axis &&
     ((negb (is_string constants.Y_AXIS r_axis) &&
       negb (is_string constants.Y2_AXIS r_axis))
      || negb (is_string targetAxis r_axis)))
    THROW_MSG_REGION_INVALID_AXIS_PROVIDED;;
  throw_if
    (isEmpty utils r_axis && negb (bool_decide (constants.Y_AXIS = targetAxis)))
    THROW_MSG_REGION_INVALID_AXIS_PROVIDED;;
  throw_if
    ((truthy r_start && negb (isNumber utils r_start))
     || (truthy r_end && negb (isNumber utils r_end)))
    THROW_MSG_REGION_INVALID_VALUE_TYPE_PROVIDED;;
  throw_if (num_gt (ToNumber lang r_start) (ToNumber lang r_end))
    THROW_MSG_REGION_START_MORE_END.


(** [getRegionAxis(region) = region.axis || constants.Y_AXIS]. *)
Definition getRegionAxis (region : JsVal) : Outcome Error JsVal :=
  a ← get_prop region "axis";
  mret (if truthy a then a else JStr constants.Y_AXIS).

(** [round2Decimals(scale[axisName](v))]; calling a scale the scale object
    does not hold is a [TypeError]. *)
Definition scale_at (scale : Scale) (axisName v : JsVal) : Outcome Error Z :=
  match scale !! ToPropertyKey lang axisName with
  | Some s => Returns (scale_px env s v)
  | None => Throws TypeError
  end.

(** [getYAxisRangePosition(scale, config)(bounds)]. *)
Definition getYAxisRangePosition (scale : Scale) (config : Config)
    (bounds : JsVal) : Outcome Error Z :=
  b_end ← get_prop bounds "end";
  if truthy b_end then
    a ← getRegionAxis bounds;
    px ← scale_at scale a b_end;
    mret (px + calculateVerticalPadding env config)
  else mret (calculateVerticalPadding env config).

(** [getRegionHeight(regionPath, bounds, scale, config)]. *)
Definition getRegionHeight (regionPath : Own) (bounds : JsVal) (scale : Scale)
    (config : Config) : Outcome Error Z :=
  let graphHeight := height config in
  let upperBound := getNumber env (get_attr constants.Y_AXIS regionPath) in
  b_start ← get_prop bounds "start";
  lowerBound ←
    (if truthy b_start then
       a ← getRegionAxis bounds;
       px ← scale_at scale a b_start;
       mret (px + calculateVerticalPadding env config)
     else mret (graphHeight + calculateVerticalPadding env config));
  mret (if bool_decide (lowerBound - upperBound = 0)
        then DEFAULT_REGION_GOAL_LINE_STROKE_WIDTH env
        else lowerBound - upperBound).

(** The [style] attribute of a region: [d.color ? `fill: ${d.color};` : ""]. *)
Definition region_style (d : JsVal) : Outcome Error AttrVal :=
  c ← get_prop d "color";
  mret (AStr (if truthy c then "fill: " +:+ ToString lang c +:+ ";" else "")).

(** [createRegion(scale, config, regionGroupSVG, regionList, uniqueKey,
    targetAxis)], on the element [regionGroupSVG] selects.

    [regionGroupSVG.selectAll("g").data(regionList)] joins the data with the
    [g] elements below the group; [enter().append("rect")] creates one [rect]
    per entering datum and appends it to the group; the chained calls then
    run one after the other over these elements, [each] with
    [validateRegion] first.  The [exit()] elements are removed at the end of
    a transition, after the call has returned. *)
Definition createRegion (scale : Scale) (config : Config)
    (regionGroupSVG : Node) (regionList : list JsVal) (uniqueKey : string)
    (targetAxis : string) : Node * Outcome Error unit :=
  let '(group, entering) := data_join (ByTag "g") regionList regionGroupSVG in
  let appended := new_element "rect" <$> entering in
  let '(rects, r) :=
    pass (fun o =>
            h ← getRegionHeight o (datum o) scale config;
            mret (set_attr "height" (ANum h) o))
    (pass_pure (fun o => set_attr "width" (ANum (getXAxisWidth env config)) o)
    (pass (fun o =>
            y ← getYAxisRangePosition scale config (datum o);
            mret (set_attr constants.Y_AXIS (ANum y) o))
    (pass_pure (fun o =>
            set_attr constants.X_AXIS (ANum (getXAxisXPosition env config)) o)
    (pass (fun o =>
            st ← region_style (datum o);
            mret (set_attr "style" st o))
    (pass_pure (set_attr "aria-describedby" (AStr uniqueKey))
    (pass_pure (set_attr "aria-hidden" (attr_of_bool false))
    (pass_pure (add_class (region styles))
    (pass (fun o => validateRegion (datum o) targetAxis;; mret o)
      (appended, Returns tt))))))))) in
  (append_children (leaf <$> rects) group, r).


(** [createRegionContainer(config, canvasSVG)]. *)
Definition createRegionContainer (config : Config) (canvasSVG : Node) : Node :=
  append_children
    [leaf (add_class (regionGroup styles) (new_element "g" JUndefined))]
    canvasSVG.

(** [translateRegion(scale, config, regionGroupSVG)], on the element
    [regionGroupSVG] selects.  [x] and [y] are set at once.  [width] and
    [height] are set by a transition, after the call has returned, but the
    transition of d3 takes the value it goes to when [attr] is called: the
    function given for [height] is called for each region in the call, so
    an error of [getRegionHeight] is thrown by [translateRegion]. *)
Definition translateRegion (scale : Scale) (config : Config)
    (regionGroupSVG : Node) : Node * Outcome Error unit :=
  selectAll_chain (ByClass (region styles))
    (fun st =>
       pass (fun o =>
               _ ← getRegionHeight o (datum o) scale config;
               mret o)
       (pass (fun o =>
               y ← getYAxisRangePosition scale config (datum o);
               mret (set_attr constants.Y_AXIS (ANum y) o))
       (pass_pure (fun o =>
               set_attr constants.X_AXIS (ANum (getXAxisXPosition env config)) o)
          st)))
    regionGroupSVG.

(** [shouldHideAllRegions(regionList, graphTargets)]. *)
Definition shouldHideAllRegions (regionList : JsVal) (graphTargets : list string)
    : bool :=
  notEmpty utils regionList && bool_decide (1 < length graphTargets)%nat.

(** [isSingleTargetDisplayed(graphTargets)]. *)
Definition isSingleTargetDisplayed {A} (graphTargets : list A) : bool :=
  bool_decide (length graphTargets = 1%nat).

(** [hideAllRegions(canvasSVG)]. *)
Definition hideAllRegions (canvasSVG : Node) : Node :=
  selectAll_each (ByClass (region styles))
    (set_attr "aria-hidden" (attr_of_bool true)) canvasSVG.

(** [showHideRegion(canvasSVG, key, shouldShow)]. *)
Definition showHideRegion (canvasSVG : Node) (key : string) (shouldShow : bool)
    : Node :=
  selectAll_each (ByClassAttr (region styles) "aria-describedby" key)
    (set_attr "aria-hidden" (attr_of_bool (negb shouldShow))) canvasSVG.

(** [toggleRegion(canvasSVG, key)]; [key] is [undefined] when the caller
    spreads an empty array. *)
Definition toggleRegion (canvasSVG : Node) (key : JsVal) : Node :=
  selectAll_each
    (ByClassAttr (region styles) "aria-describedby"
       ("region_" +:+ ToString lang key))
    (fun o =>
       set_attr "aria-hidden"
         (attr_of_bool
            (negb (bool_decide (get_attr "aria-hidden" o = Some (AStr "true")))))
         o)
    canvasSVG.

(** [processRegions(shownTargets, canvasSVG)]:
    [toggleRegion(canvasSVG, ...shownTargets)] passes the first target. *)
Definition processRegions (shownTargets : list string) (canvasSVG : Node)
    : Node :=
  if isSingleTargetDisplayed shownTargets
  then toggleRegion canvasSVG (default JUndefined (JStr <$> head shownTargets))
  else hideAllRegions canvasSVG.

End Region.
End Region.

(* ===================================================================== *)
(** * The Graph instance and its contents *)
(* ===================================================================== *)

(** A content object is known to the Graph by reference. *)
Definition loc : Type := nat.

(** The fields of a [Graph] instance ([initConfig] of [Graph.js]).
    [contentTargets] holds the references of the [config] objects of the
    loaded contents; [containerWidth] is what
    [graphContainer.style("width")] parses to. *)
Record Graph : Type := {
  config : Config;
  scale : Scale;
  svg : Node;
  legendSVG : option Node;
  content : list loc;
  contentTargets : list loc;
  containerWidth : Z
}.

(** One data point of a value list. *)
Record DataPoint : Type := {
  x : JsVal;
  y : JsVal
}.

(** [{min, max}], the value range of a content on one axis. *)
Record Range : Type := {
  min : JsNumber;
  max : JsNumber
}.

#[global] Instance Range_eq_dec : EqDecision Range.
Proof. solve_decision. Defined.

(** The validated input of a Line or Bar content ([this.config]), and the
    data target derived from it ([this.dataTarget]). *)
Record ContentConfig : Type := {
  key : JsVal;
  yAxis : string;
  values : list DataPoint;
  regions : JsVal
}.

(** [this.dataTarget = {}] and [this.config = {}]. *)
Definition empty_target : ContentConfig :=
  {| key := JUndefined; yAxis := ""; values := []; regions := JUndefined |}.

(* ===================================================================== *)
(** * controls/Line/Line.js *)
(* ===================================================================== *)

(** The fields of a [Line] instance. *)
Record LineObj : Type := {
  line_config : ContentConfig;
  valuesRange : gmap string Range;
  dataTarget : ContentConfig
}.

(** The functions [Line.js] imports from [Line/helpers/helpers.js],
    [helpers/legend.js] and [helpers/label.js]; none is among the sources.
    Each is given the Graph and the Line it is called with and may change
    the Graph or throw. *)
Record LineEnv : Type := {
  processDataPoints : Graph -> LineObj -> Graph * Outcome Error ContentConfig;
  draw : Graph -> LineObj -> Graph * Outcome Error unit;
  prepareLegendItems : Graph -> LineObj -> Graph * Outcome Error unit;
  prepareLabelShapeItem : Graph -> LineObj -> Graph * Outcome Error unit;
  translateLineGraph : Graph -> Graph * Outcome Error unit
}.

Module Line.
Section Line.
Context (lang : Lang) (utils : Utils) (styles : Styles) (env : RegionEnv)
  (lenv : LineEnv).

(** [calculateValuesRange(values, axis)]: [axis] has been defaulted to
    [constants.Y_AXIS] by the constructor. *)
Definition calculateValuesRange (values : list DataPoint) (axis : string)
    : gmap string Range :=
  let yAxisValuesList :=
    y <$> filter (fun i => is_null (y i) = false) values in
  {[ axis := {| min := Math_min lang yAxisValuesList;
                max := Math_max lang yAxisValuesList |} ]}.

Definition set_svg (s : Node) (g : Graph) : Graph :=
  {| config := config g; scale := scale g; svg := s;
     legendSVG := legendSVG g; content := content g;
     contentTargets := contentTargets g; containerWidth := containerWidth g |}.

(** [load(graph)]. *)
Definition load (this : LineObj) (graph : Graph)
    : Graph * LineObj * Outcome Error unit :=
  match processDataPoints lenv graph this with
  | (graph, Throws e) => (graph, this, Throws e)
  | (graph, Returns target) =>
    let this :=
      {| line_config := line_config this; valuesRange := valuesRange this;
         dataTarget := target |} in
    match draw lenv graph this with
    | (graph, Throws e) => (graph, this, Throws e)
    | (graph, Returns _) =>
      let '(graph, r) :=
        if notEmpty utils (regions (dataTarget this)) then
          match
            select_first (ByClass (regionGroup styles))
              (fun regionGroupSVG =>
                 Region.createRegion lang utils styles env
                   (scale graph) (config graph) regionGroupSVG
                   (array_items (regions (dataTarget this)))
                   ("region_" +:+ ToString lang (key (dataTarget this)))
                   (yAxis (line_config this)))
              (svg graph)
          with
          | Some (svg', r) => (set_svg svg' graph, r)
          | None => (graph, Returns tt)
          end
        else (graph, Returns tt) in
      match r with
      | Throws e => (graph, this, Throws e)
      | Returns _ =>
        match prepareLegendItems lenv graph this with
        | (graph, Throws e) => (graph, this, Throws e)
        | (graph, Returns _) =>
          let '(graph, r) := prepareLabelShapeItem lenv graph this in
          (graph, this, r)
        end
      end
    end
  end.

(** [resize(graph)]. *)
Definition resize (this : LineObj) (graph : Graph)
    : Graph * Outcome Error unit :=
  let graph :=
    if Region.shouldHideAllRegions utils (regions (dataTarget this))
         (shownTargets (config graph))
    then set_svg (Region.hideAllRegions styles (svg graph)) graph
    else graph in
  let '(graph, r) :=
    match
      select_first (ByClass (regionGroup styles))
        (Region.translateRegion lang styles env (scale graph) (config graph))
        (svg graph)
    with
    | Some (svg', r) => (set_svg svg' graph, r)
    | None => (graph, Returns tt)
    end in
  match r with
  | Throws e => (graph, Throws e)
  | Returns _ => translateLineGraph lenv graph
  end.

End Line.
End Line.

(* ===================================================================== *)
(** * controls/Bar/Bar.js *)
(* ===================================================================== *)

Module Bar.
Section Bar.
Context (lang : Lang).

(** [calculateValuesRange(values, axis)]. *)
Definition calculateValuesRange (values : list DataPoint) (axis : string)
    : gmap string Range :=
  let min := Math_min lang (y <$> values) in
  let max := Math_max lang (y <$> values) in
  {[ axis := {| min := if num_lt min (Fin 0) then min else Fin 0;
                max := if num_gt max (Fin 0) then max else Fin 0 |} ]}.

End Bar.
End Bar.

(* ===================================================================== *)
(** * controls/PairedResult/helpers/helpers.js *)
(* ===================================================================== *)

Module PairedResult.
Section PairedResult.
Context (styles : Styles).

(** [processRegions(graphContext, config, canvasSVG, { key })]: [key] is the
    key of a legend item, a string built as [`${d.key}_${type}`]. *)
Definition processRegions (graphContext : Graph) (config : Config)
    (canvasSVG : Node) (key : string) : Node :=
  if Region.isSingleTargetDisplayed (content graphContext) then
    Region.showHideRegion styles canvasSVG ("region_" +:+ key)
      (bool_decide (key ∈ shownTargets config))
  else Region.hideAllRegions styles canvasSVG.

End PairedResult.
End PairedResult.

(* ===================================================================== *)
(** * helpers/datetimeBuckets.js *)
(* ===================================================================== *)

Module DatetimeBuckets.
Section DatetimeBuckets.
Context (utils : Utils).

(** [arr.concat(v)]: an array argument is spread, another value is
    appended as one item. *)
Definition concat (arr : list JsVal) (v : JsVal) : list JsVal :=
  match v with JArr l => arr ++ l | _ => arr ++ [v] end.

(** [constructDatetimeBucketValues(dateTimeBuckets)] for the object
    [{values, upperStepTickValues}]. *)
Definition constructDatetimeBucketValues (values upperStepTickValues : JsVal)
    : list JsVal :=
  let newStepValues := [] in
  let newStepValues :=
    if notEmpty utils values then concat newStepValues values
    else newStepValues in
  let newStepValues :=
    if notEmpty utils upperStepTickValues
    then concat newStepValues upperStepTickValues
    else newStepValues in
  newStepValues.

(** [hasDatetimeBuckets(ticks)]. *)
Definition hasDatetimeBuckets (ticks : JsVal) : Outcome Error bool :=
  if isEmpty utils ticks then mret false
  else
    midpoint ← get_prop ticks "midpointTickValues";
    upper ← get_prop ticks "upperStepTickValues";
    lower ← get_prop ticks "lowerStepTickValues";
    mret (notEmpty utils midpoint || notEmpty utils upper || notEmpty utils lower).

(** [prepareHAxis(scale, axis, config, prepareXAxisHandler, orientation)]:
    [axis_obj] is the [axis] object, whose property [x] is replaced by what the handler
    returns; [orientation] has been defaulted to [config.axis.x.orientation]
    by the caller when it was not passed. *)
Definition prepareHAxis {D : Type} (scale : Scale) (axis_obj : gmap string D)
    (config : Config)
    (prepareXAxisHandler : Scale -> list JsVal -> Config -> JsVal -> Outcome Error D)
    (orientation : JsVal) : gmap string D * Outcome Error unit :=
  let x_ticks := ticks (axis_x (axis config)) in
  match hasDatetimeBuckets x_ticks with
  | Throws e => (axis_obj, Throws e)
  | Returns false => (axis_obj, Returns tt)
  | Returns true =>
    match
      lower ← get_prop x_ticks "lowerStepTickValues";
      values ← (if truthy lower then mret lower else get_prop x_ticks "values");
      upper ← get_prop x_ticks "upperStepTickValues";
      prepareXAxisHandler scale (constructDatetimeBucketValues values upper)
        config orientation
    with
    | Returns d => (<[constants.X_AXIS := d]> axis_obj, Returns tt)
    | Throws e => (axis_obj, Throws e)
    end
  end.

End DatetimeBuckets.
End DatetimeBuckets.

(* ===================================================================== *)
(** * controls/Gantt/helpers/helpers.js *)
(* ===================================================================== *)

Module Gantt.

(** What the Gantt helpers take from outside the sources:
    [validateContent] of [Gantt/Track.js], the default track height of
    [helpers/constants.js], and [nice()] of a d3 time scale, which gives the
    scale a domain extended to round dates. *)
Record GanttEnv : Type := {
  validateContent : JsVal -> Outcome Error unit;
  DEFAULT_GANTT_TRACK_HEIGHT : JsVal;
  time_nice : list JsVal -> Outcome Error (list JsVal)
}.

(** An instance used only on concrete inputs: a content needs a key. *)
Definition std_gantt_env : GanttEnv := {|
  validateContent c :=
    match c with
    | JObj fields =>
      match assoc "key" fields with
      | JStr _ => Returns tt
      | _ => Throws (OtherError "key")
      end
    | _ => Throws (OtherError "content")
    end;
  DEFAULT_GANTT_TRACK_HEIGHT := JNum (Fin 41);
  time_nice d := Returns d
|}.

Section Gantt.
Context (lang : Lang) (utils : Utils) (genv : GanttEnv).

(** The number a decimal digit stands for. *)
Definition digit_of (c : Ascii.ascii) : option N :=
  let n := Ascii.N_of_ascii c in
  if bool_decide (48 <= n <= 57)%N then Some (n - 48)%N else None.

(** The number written by a string of decimal digits. *)
Fixpoint parse_digits (acc : N) (s : string) : option N :=
  match s with
  | EmptyString => Some acc
  | String c rest =>
    match digit_of c with
    | Some d => parse_digits (acc * 10 + d) rest
    | None => None
    end
  end.

(** The array index a property key is, if it is one: the key is the
    canonical decimal writing, without leading zero, of an integer below
    [2^32 - 1]. *)
Definition array_index (k : string) : option N :=
  match k with
  | EmptyString => None
  | String c rest =>
    if bool_decide (Ascii.N_of_ascii c = 48%N) then
      match rest with EmptyString => Some 0%N | _ => None end
    else
      match parse_digits 0 k with
      | Some n => if bool_decide (n < 2 ^ 32 - 1)%N then Some n else None
      | None => None
      end
  end.

(** Whether a new key [k] is listed before the key [k'] of an object: the
    language lists the keys that are array indices first, in ascending
    order, and the other keys after them, in the order of their
    insertion. *)
Definition key_before (k k' : string) : bool :=
  match array_index k, array_index k' with
  | Some n, Some n' => bool_decide (n < n')%N
  | Some _, None => true
  | None, _ => false
  end.

(** The entry of a new key put at its place among the entries. *)
Fixpoint obj_insert {V : Type} (k : string) (v : V) (obj : list (string * V))
    : list (string * V) :=
  match obj with
  | [] => [(k, v)]
  | (k', v') :: rest =>
    if key_before k k' then (k, v) :: (k', v') :: rest
    else (k', v') :: obj_insert k v rest
  end.

(** The value of a key the object holds, replaced at its place. *)
Fixpoint obj_replace {V : Type} (k : string) (v : V) (obj : list (string * V))
    : list (string * V) :=
  match obj with
  | [] => []
  | (k', v') :: rest =>
    if bool_decide (k' = k) then (k, v) :: rest
    else (k', v') :: obj_replace k v rest
  end.

(** The key that names the prototype of an object. *)
Definition proto_key : string := "__proto__".

(** [obj[k] = v] on a plain object kept as its entries in the order
    [Object.keys] lists them: an existing key keeps its place, a new key
    that is an array index goes among the indices, any other new key goes
    last.  An assignment to [__proto__] goes to the prototype of the object
    and makes no entry. *)
Definition obj_set {V : Type} (k : string) (v : V) (obj : list (string * V))
    : list (string * V) :=
  if bool_decide (k ∈ obj.*1) then obj_replace k v obj
  else if bool_decide (k = proto_key) then obj
  else obj_insert k v obj.

(** The start index [arr.splice(start, ...)] uses on an array of length
    [len]: [ToIntegerOrInfinity(start)], counted from the end when negative
    and clamped to [0..len]. *)
Definition splice_start (start : JsNumber) (len : nat) : nat :=
  match start with
  | NaN => 0%nat
  | NegInfinity => 0%nat
  | Infinity => len
  | Fin z =>
    if bool_decide (z < 0) then Z.to_nat (Z.max (Z.of_nat len + z) 0)
    else Nat.min (Z.to_nat z) len
  end.

(** [arr.splice(start, 0, item)]. *)
Definition splice_insert {A : Type} (start : JsNumber) (item : A) (arr : list A)
    : list A :=
  let i := splice_start start (length arr) in
  take i arr ++ item :: drop i arr.

(** The track list as the object handed to [utils.isEmpty]. *)
Definition trackList_to_js (trackList : list (string * Track)) : JsVal :=
  JObj ((fun kv =>
           (kv.1, JObj [("trackHeight", trackHeight kv.2);
                        ("trackLabel", trackLabel kv.2)])) <$> trackList).

(** [updateTrackList(content, trackIndex, trackListObject)]. *)
Definition updateTrackList (content : JsVal) (trackIndex : JsVal)
    (trackListObject : list (string * Track))
    : Outcome Error (list (string * Track)) :=
  let trackList := trackListObject in
  c_key ← get_prop content "key";
  c_dimension ← get_prop content "dimension";
  h ← (if truthy c_dimension then get_prop c_dimension "trackHeight"
       else mret (DEFAULT_GANTT_TRACK_HEIGHT genv));
  c_trackLabel ← get_prop content "trackLabel";
  display ← get_prop c_trackLabel "display";
  let trackList :=
    splice_insert (ToNumber lang trackIndex)
      (ToPropertyKey lang c_key, {| trackHeight := h; trackLabel := display |})
      trackList in
  mret (foldl (fun trackListObj track => obj_set track.1 track.2 trackListObj)
          [] trackList).

(** [getXAxisYPosition(config)]. *)
Definition getXAxisYPosition (config : Config) : Z :=
  (padding_top (padding config) + padding_bottom (padding config)) * 2.

(** [getXAxisWidth(config)]. *)
Definition getXAxisWidth (config : Config) : Z :=
  canvasWidth config - axisSizes_y config - axisLabelWidths_y config
  - getXAxisYPosition config.

(** [getYAxisDomain(trackList)]. *)
Definition getYAxisDomain (trackList : list (string * Track)) : list JsVal :=
  if isEmpty utils (trackList_to_js trackList) then []
  else (fun kv => trackLabel kv.2) <$> trackList.

(** [getYAxisRange(trackList)]: each track height with [+] the heights
    before it, themselves added up from [0] with [+]; the first height is
    returned as it is. *)
Definition getYAxisRange (trackList : list (string * Track)) : list JsVal :=
  let arr := (fun kv => trackHeight kv.2) <$> trackList in
  imap (fun index h =>
          if bool_decide (0 < index)%nat
          then js_add lang h
                 (foldl (js_add lang) (JNum (Fin 0)) (take index arr))
          else h) arr.


(** [config.axis.y.trackList = trackList]. *)
Definition set_trackList (trackList : list (string * Track)) (config : Config)
    : Config :=
  let a := axis config in
  let ay := axis_y a in
  {| axis :=
       {| axis_x := axis_x a;
          axis_y :=
            {| type := type ay; domain := domain ay; ticks := ticks ay;
               orientation := orientation ay;
               rangeRounding := rangeRounding ay; dataRange := dataRange ay;
               trackList := trackList; trackCount := trackCount ay |};
          axis_y2 := axis_y2 a |};
     canvasWidth := canvasWidth config; height := height config;
     padding := padding config; axisSizes_y := axisSizes_y config;
     axisLabelWidths_y := axisLabelWidths_y config;
     shownTargets := shownTargets config; dateline := dateline config;
     others := others config |}.

(** The domain a d3 ordinal scale keeps of the array it is given: each
    value once, at its first place, two values being the same when their
    strings are. *)
Fixpoint ordinal_domain (seen : list string) (x : list JsVal) : list JsVal :=
  match x with
  | [] => []
  | xi :: rest =>
    if bool_decide (ToString lang xi ∈ seen) then ordinal_domain seen rest
    else xi :: ordinal_domain (ToString lang xi :: seen) rest
  end.

(** [scaleGraph(scale, config)], with the scale object it leaves:
    [scale.x] is a clamped time scale over the x domain, [scale.y] an
    ordinal scale over the track labels, and [scale.x] is made nice last,
    when [rangeRounding] is set.  The domain of the time scale is
    [x.map(Number)], a [TypeError] when the x domain is not an array;
    nothing has been assigned to the scale object then. *)
Definition scaleGraph (scale : Scale) (config : Config)
    : Scale * Outcome Error unit :=
  let trackList := trackList (axis_y (axis config)) in
  match domain (axis_x (axis config)) with
  | JArr x =>
    let numbers := (fun d => JNum (ToNumber lang d)) <$> x in
    let scale_x (d : list JsVal) (n : bool) :=
      {| kind := TimeScaleKind;
         scale_domain := JArr d;
         scale_range := [JNum (Fin 0); JNum (Fin (getXAxisWidth config))];
         clamp := true;
         nice := n |} in
    let scale := <[constants.X_AXIS := scale_x numbers false]> scale in
    let scale :=
      <[constants.Y_AXIS :=
          {| kind := OrdinalScaleKind;
             scale_domain := JArr (ordinal_domain [] (getYAxisDomain trackList));
             scale_range := JNum (Fin 0) :: getYAxisRange trackList;
             clamp := false;
             nice := false |}]> scale in
    if truthy (rangeRounding (axis_x (axis config))) then
      match time_nice genv numbers with
      | Returns d => (<[constants.X_AXIS := scale_x d true]> scale, Returns tt)
      | Throws e => (scale, Throws e)
      end
    else (scale, Returns tt)
  | _ => (scale, Throws TypeError)
  end.

(** [prepareLoadAtIndex(scale, config, content, length)]: the state is the
    pair of the scale and the configuration, both changed in place by the
    source. *)
Definition prepareLoadAtIndex (scale : Scale) (config : Config)
    (content : JsVal) (length : JsVal)
    : Scale * Config * Outcome Error JsVal :=
  match validateContent genv content with
  | Throws e => (scale, config, Throws e)
  | Returns _ =>
    match
      (if notEmpty utils content then
         i ← get_prop content "loadAtIndex";
         mret (if notEmpty utils i then Some i else None)
       else mret None)
    with
    | Throws e => (scale, config, Throws e)
    | Returns (Some loadAtIndex) =>
      if num_lt (ToNumber lang loadAtIndex) (Fin 0) then
        (scale, config, Throws THROW_MSG_INVALID_LOAD_CONTENT_AT_INDEX)
      else
        let index := loadAtIndex in
        match updateTrackList content index (trackList (axis_y (axis config))) with
        | Throws e => (scale, config, Throws e)
        | Returns tl =>
          let config := set_trackList tl config in
          match scaleGraph scale config with
          | (scale, Throws e) => (scale, config, Throws e)
          | (scale, Returns _) => (scale, config, Returns index)
          end
        end
    | Returns None =>
      match updateTrackList content length (trackList (axis_y (axis config))) with
      | Throws e => (scale, config, Throws e)
      | Returns tl => (scale, set_trackList tl config, Returns length)
      end
    end
  end.

End Gantt.
End Gantt.

(* ===================================================================== *)
(** * controls/Graph/Graph.js *)
(* ===================================================================== *)

Module GraphControl.

(** The calls the controller makes to its collaborators, in the order it
    makes them, and the outcome of the two tests [loadContent] branches on;
    the log of calls is what the ordering properties speak of. *)
Inductive Call : Type :=
| SawRangeModified (modified : bool)
| SawDatelineOnTimeSeries (present : bool)
| CallValidateContent (content : loc)
| CallSetAxisPadding (content : loc)
| CallGetAxesDataRange (content : loc)
| CallUpdateAxesDomain (content : loc)
| CallContentLoad (content : loc)
| CallContentUnload (content : loc)
| CallContentResize (content : loc)
| CallRemoveDatelineContent
| CallCreateDateline
| CallSetCanvasWidth
| CallScaleGraph
| CallTranslateGraph.

#[global] Instance Call_eq_dec : EqDecision Call.
Proof. solve_decision. Defined.

Section GraphControl.
(** [Store] is the state of the content objects, which live outside the
    Graph instance. *)
Context {Store : Type}.

(** The state a call of the controller runs in: the Graph instance, the
    content objects, and the log of calls made so far. *)
Definition World : Type := Graph * Store * list Call.

(** An operation of a collaborator: it may change the Graph and the content
    objects, and it returns or throws. *)
Definition Op : Type := Graph -> Store -> Graph * Store * Outcome Error unit.

(** The [GraphContent] interface each content implements, with the two
    properties of a content the controller reads. *)
Record ContentOps : Type := {
  content_config : Store -> loc -> loc;
  content_yAxis : Store -> loc -> Outcome Error JsVal;
  content_load : loc -> Op;
  content_unload : loc -> Op;
  content_resize : loc -> Op
}.

(** The functions [Graph.js] imports from [GraphConfig.js],
    [Graph/helpers/helpers.js] and [helpers/axis.js], and the drawing of the
    dateline marks, which goes through [core/Shape]; none is among the
    sources. *)
Record GraphEnv : Type := {
  validateContent : loc -> Op;
  setAxisPadding : loc -> Op;
  getAxesDataRange : loc -> JsVal -> Op;
  updateAxesDomain : loc -> Op;
  scaleGraph : Op;
  translateGraph : Op;
  createDateline : Op
}.

Context (lang : Lang) (utils : Utils) (styles : Styles) (ops : ContentOps)
  (genv : GraphEnv).

(** A step of the controller: a state transformer that returns or throws. *)
Definition M (A : Type) : Type := World -> World * Outcome Error A.

#[local] Instance M_ret : MRet M := fun A a w => (w, Returns a).
#[local] Instance M_bind : MBind M := fun A B k m w =>
  match m w with
  | (w', Returns a) => k a w'
  | (w', Throws e) => (w', Throws e)
  end.

(** [throw new Error(e)]. *)
Definition throw {A} (e : Error) : M A := fun w => (w, Throws e).

(** A call to a collaborator: logged, then run. *)
Definition invoke (c : Call) (op : Op) : M unit := fun '(g, st, log) =>
  let '(g', st', r) := op g st in ((g', st', log ++ [c]), r).

(** An entry of the log that is not a call. *)
Definition note (c : Call) : M unit := fun '(g, st, log) =>
  ((g, st, log ++ [c]), Returns tt).

(** Reading and writing the Graph instance. *)
Definition get_graph : M Graph := fun '(g, st, log) => ((g, st, log), Returns g).
Definition get_store : M Store := fun '(g, st, log) => ((g, st, log), Returns st).
Definition modify_graph (f : Graph -> Graph) : M unit :=
  fun '(g, st, log) => ((f g, st, log), Returns tt).

(** Lifting an outcome that leaves the state alone. *)
Definition lift {A} (o : Outcome Error A) : M A := fun w => (w, o).

(** [arr.forEach(f)]. *)
Fixpoint forEach {A} (f : A -> M unit) (arr : list A) : M unit :=
  match arr with
  | [] => mret tt
  | a :: rest => f a;; forEach f rest
  end.

Definition set_config (c : Config) (g : Graph) : Graph :=
  {| config := c; scale := scale g; svg := svg g; legendSVG := legendSVG g;
     content := content g; contentTargets := contentTargets g;
     containerWidth := containerWidth g |}.

Definition set_content (c t : list loc) (g : Graph) : Graph :=
  {| config := config g; scale := scale g; svg := svg g;
     legendSVG := legendSVG g; content := c; contentTargets := t;
     containerWidth := containerWidth g |}.

Definition set_canvasWidth (w : Z) (config : Config) : Config :=
  {| axis := axis config; canvasWidth := w; height := height config;
     padding := padding config; axisSizes_y := axisSizes_y config;
     axisLabelWidths_y := axisLabelWidths_y config;
     shownTargets := shownTargets config; dateline := dateline config;
     others := others config |}.

(** [this.content.push(content); this.contentTargets.push(content.config)]. *)
Definition push_content (c cfg : loc) (g : Graph) : Graph :=
  set_content (content g ++ [c]) (contentTargets g ++ [cfg]) g.

(** [setCanvasWidth(container, config)]. *)
Definition setCanvasWidth : Op := fun g st =>
  (set_config (set_canvasWidth (containerWidth g) (config g)) g, st, Returns tt).

(** [isRangeModified(config, yAxis)], with [constants.Y_AXIS] for an
    [undefined] axis; reading through a missing axis or data range is a
    [TypeError]. *)
Definition isRangeModified (config : Config) (yAxis : JsVal)
    : Outcome Error JsVal :=
  let yAxis := match yAxis with JUndefined => JStr constants.Y_AXIS | _ => yAxis end in
  match axis_get (axis config) (ToPropertyKey lang yAxis) with
  | Some a =>
    match dataRange a with
    | Some dr => Returns (dr_isRangeModified dr)
    | None => Throws TypeError
    end
  | None => Throws TypeError
  end.

(** [redrawDatelineContent(scale, config, canvasSVG)] of
    [helpers/dateline.js]. *)
Definition redrawDatelineContent : M unit :=
  g ← get_graph;
  if negb (select_empty (ByClass (datelineContent styles)) (svg g)) then
    invoke CallRemoveDatelineContent (fun g st =>
      (Line.set_svg
         (default (svg g) (remove_first (ByClass (datelineContent styles)) (svg g)))
         g, st, Returns tt));;
    invoke CallCreateDateline (createDateline genv)
  else mret tt.

(** [resize()]. *)
Definition resize : M unit :=
  invoke CallSetCanvasWidth setCanvasWidth;;
  invoke CallScaleGraph (scaleGraph genv);;
  invoke CallTranslateGraph (translateGraph genv);;
  g ← get_graph;
  forEach (fun control => invoke (CallContentResize control)
                            (content_resize ops control))
    (content g).

(** [loadContent(content)]. *)
Definition loadContent (content : loc) : M unit :=
  invoke (CallValidateContent content) (validateContent genv content);;
  st ← get_store;
  modify_graph (push_content content (content_config ops st content));;
  invoke (CallSetAxisPadding content) (setAxisPadding genv content);;
  st ← get_store;
  yAxis ← lift (content_yAxis ops st content);
  invoke (CallGetAxesDataRange content) (getAxesDataRange genv content yAxis);;
  g ← get_graph;
  st ← get_store;
  yAxis ← lift (content_yAxis ops st content);
  modified ← lift (isRangeModified (config g) yAxis);
  note (SawRangeModified (truthy modified));;
  (if truthy modified
   then invoke (CallUpdateAxesDomain content) (updateAxesDomain genv content)
   else mret tt);;
  invoke (CallContentLoad content) (content_load ops content);;
  g ← get_graph;
  let datelineOnTimeSeries :=
    notEmpty utils (dateline (config g))
    && bool_decide (type (axis_x (axis (config g))) = TIME_SERIES) in
  note (SawDatelineOnTimeSeries datelineOnTimeSeries);;
  (if datelineOnTimeSeries then redrawDatelineContent else mret tt);;
  resize.


(** [arr.indexOf(c)] on references: the first index that holds [c], [-1]
    when none does. *)
Definition indexOf (arr : list loc) (c : loc) : Z :=
  match list_find (fun r => r = c) arr with
  | Some (i, _) => Z.of_nat i
  | None => -1
  end.

(** [this.content.splice(index, 1); this.contentTargets.splice(index, 1)]
    for an index that is not negative. *)
Definition splice_content (index : Z) (g : Graph) : Graph :=
  set_content (delete (Z.to_nat index) (content g))
              (delete (Z.to_nat index) (contentTargets g)) g.

(** [unloadContent(content)]. *)
Definition unloadContent (c : loc) : M unit :=
  g ← get_graph;
  let index := indexOf (content g) c in
  if bool_decide (index < 0) then throw THROW_MSG_INVALID_OBJECT_PROVIDED
  else
    modify_graph (splice_content index);;
    invoke (CallContentUnload c) (content_unload ops c);;
    resize.

End GraphControl.
End GraphControl.

(* ===================================================================== *)
(** * The merged axis domain *)
(* ===================================================================== *)

Module Domain.
Section Domain.

(** The padding of a merged range into a domain: the spec leaves the rule
    open ("a fixed fraction of the range, or a fixed pixel-equivalent"), so
    it is a parameter. *)
Context (padDomain : string -> Range -> Range).

(** Modelled from the spec: [getAxesDataRange] and [updateAxesDomain] of
    [helpers/axis.js] and [Graph/helpers/helpers.js], which merge the value
    ranges into the axis domain, are not among the sources.  The spec
    (section 4.1) merges "taking elementwise min/max across all series":
    this is the merge of two ranges. *)
Definition mergeRange (a b : Range) : Range :=
  {| min := min2 (min a) (min b); max := max2 (max a) (max b) |}.

(** Modelled from the spec: the merge of the ranges seen so far with the
    range of one more content (section 4.1, as for [mergeRange]). *)
Definition mergeInto (acc : option Range) (r : Range) : option Range :=
  Some (match acc with Some a => mergeRange a r | None => r end).

(** Modelled from the spec: "the value ranges of every currently-loaded
    Content on the given axis" (section 4.1), in load order; each content
    carries [valuesRange], keyed by its axis. *)
Definition rangesOn (contentList : list (gmap string Range)) (axisId : string)
    : list Range :=
  omap (fun valuesRange => valuesRange !! axisId) contentList.

(** Modelled from the spec: [computeDomain(contentList, axisId)] of section
    4.1, the merge of the value ranges of the loaded contents on the axis
    followed by the padding; [getAxesDataRange] and [updateAxesDomain], which
    compute it, are not among the sources.  A content list without a range
    on the axis has no merged range. *)
Definition computeDomain (contentList : list (gmap string Range))
    (axisId : string) : option Range :=
  padDomain axisId <$> foldl mergeInto None (rangesOn contentList axisId).

End Domain.
End Domain.

(* ===================================================================== *)
(** * controls/Gantt/helpers/helpers.js: track count, height and domain *)
(* ===================================================================== *)

Module GanttTracks.

(** [parseInt(v, 10)] depends on the digits of a number and on the text of
    a string; it is taken as given. *)
Record TrackEnv : Type := {
  parseInt10 : JsVal -> JsNumber
}.

(** An instance used only on concrete inputs: a finite number is its own
    integer part, any other value parses to [NaN]. *)
Definition std_track_env : TrackEnv := {|
  parseInt10 v := match v with JNum (Fin z) => Fin z | _ => NaN end
|}.

Section GanttTracks.
Context (lang : Lang) (utils : Utils) (tenv : TrackEnv).

(** [config.axis.y = f(config.axis.y)]. *)
Definition set_axis_y (f : AxisConfig -> AxisConfig) (config : Config)
    : Config :=
  let a := axis config in
  {| axis := {| axis_x := axis_x a; axis_y := f (axis_y a);
                axis_y2 := axis_y2 a |};
     canvasWidth := canvasWidth config; height := height config;
     padding := padding config; axisSizes_y := axisSizes_y config;
     axisLabelWidths_y := axisLabelWidths_y config;
     shownTargets := shownTargets config; dateline := dateline config;
     others := others config |}.

Definition set_trackCount (n : Z) (ay : AxisConfig) : AxisConfig :=
  {| type := type ay; domain := domain ay; ticks := ticks ay;
     orientation := orientation ay; rangeRounding := rangeRounding ay;
     dataRange := dataRange ay; trackList := trackList ay; trackCount := n |}.

Definition set_domain (d : JsVal) (ay : AxisConfig) : AxisConfig :=
  {| type := type ay; domain := d; ticks := ticks ay;
     orientation := orientation ay; rangeRounding := rangeRounding ay;
     dataRange := dataRange ay; trackList := trackList ay;
     trackCount := trackCount ay |}.

Definition set_axis_trackList (tl : list (string * Track)) (ay : AxisConfig)
    : AxisConfig :=
  {| type := type ay; domain := domain ay; ticks := ticks ay;
     orientation := orientation ay; rangeRounding := rangeRounding ay;
     dataRange := dataRange ay; trackList := tl; trackCount := trackCount ay |}.

(** [arr.pop()]: the last item, [undefined] for an empty array. *)
Definition pop (arr : list JsVal) : JsVal := default JUndefined (last arr).

(** [determineHeight(config)]. *)
Definition determineHeight (config : Config) : JsNumber :=
  let trackList := trackList (axis_y (axis config)) in
  if isEmpty utils (Gantt.trackList_to_js trackList) then Fin 0
  else parseInt10 tenv (pop (Gantt.getYAxisRange lang trackList)).

(** [updateTrackCount(config, isLoad)]: the count is changed in place and
    the value before the change is returned. *)
Definition updateTrackCount (config : Config) (isLoad : bool) : Config * Z :=
  let n := trackCount (axis_y (axis config)) in
  (set_axis_y (set_trackCount (if isLoad then n + 1 else n - 1)) config, n).

(** [delete obj[k]]. *)
Definition obj_delete {V : Type} (k : string) (obj : list (string * V))
    : list (string * V) :=
  filter (fun kv => kv.1 <> k) obj.

(** [updateTrackProps(config, content, isLoad)]. *)
Definition updateTrackProps (config : Config) (content : JsVal) (isLoad : bool)
    : Config * Outcome Error unit :=
  let config := (updateTrackCount config isLoad).1 in
  if negb isLoad then
    match get_prop content "key" with
    | Returns k =>
      (set_axis_y
         (fun ay => set_axis_trackList
                      (obj_delete (ToPropertyKey lang k) (trackList ay)) ay)
         config,
       Returns tt)
    | Throws e => (config, Throws e)
    end
  else (config, Returns tt).

(** [updateAxesDomain(config)] of the Gantt helpers. *)
Definition updateAxesDomain (config : Config) : Config :=
  let n := trackCount (axis_y (axis config)) in
  set_axis_y
    (set_domain
       (JObj [("lowerLimit", JNum (Fin 0));
              ("upperLimit",
               JNum (Fin (if bool_decide (n = 0) then 1 else n)))]))
    config.

(** [isHashed(style)]. *)
Definition isHashed (style : JsVal) : Outcome Error bool :=
  if isEmpty utils style then mret false
  else
    h ← get_prop style "isHashed";
    mret (negb (negb (truthy h))).

End GanttTracks.
End GanttTracks.

(* ===================================================================== *)
(** * helpers/datetimeBuckets.js: the vertical grids *)
(* ===================================================================== *)

Module DatetimeGrid.

(** The tick types of [BUCKET_TYPES]. *)
Module BUCKET_TYPES.
Definition LOWER_STEP_TICK_VALUES : string := "lowerStepTickValues".
Definition MIDPOINT_TICK_VALUES : string := "midpointTickValues".
Definition UPPER_STEP_TICK_VALUES : string := "upperStepTickValues".
End BUCKET_TYPES.

(** The class names of the grids in [helpers/styles.js], which is not
    among the sources. *)
Record GridStyles : Type := {
  gridV : string;
  gridLowerStep : string;
  gridMidpoint : string;
  gridUpperStep : string
}.

(** An instance of the class names, used only on concrete inputs. *)
Definition std_grid_styles : GridStyles :=
  {| gridV := "carbon-grid-v"; gridLowerStep := "carbon-grid-lower-step";
     gridMidpoint := "carbon-grid-midpoint";
     gridUpperStep := "carbon-grid-upper-step" |}.

(** The object [createDatetimeBucketConfig] builds:
    [{axis: {x: {ticks: {values}, orientation}}, height}]. *)
Record BucketConfig : Type := {
  bucket_values : JsVal;
  bucket_orientation : string;
  bucket_height : string
}.

(** What a grid handler is given as its configuration: the configuration
    of the graph, or the one built for a bucket. *)
Inductive GridConfig : Type :=
| OfGraph (config : Config)
| OfBucket (bucket : BucketConfig).

Section DatetimeGrid.
Context (lang : Lang) (utils : Utils) (gstyles : GridStyles).

(** The grid element the handlers draw into ([gridSVG], [canvasSVG]) and
    the axis object are left open. *)
Context {S A : Type}.

(** [createVGridHandler] and [translateVGridHandler], the callbacks of the
    constructs: they change the grid and return or throw. *)
Definition Handler : Type :=
  S -> A -> string -> GridConfig -> S * Outcome Error unit.

(** A step on the grid that returns or throws. *)
Definition Step (R : Type) : Type := S -> S * Outcome Error R.

#[local] Instance Step_ret : MRet Step := fun R r s => (s, Returns r).
#[local] Instance Step_bind : MBind Step := fun R1 R2 k m s =>
  match m s with
  | (s', Returns r) => k r s'
  | (s', Throws e) => (s', Throws e)
  end.

(** A read of the configuration, which leaves the grid alone. *)
Definition read {R} (o : Outcome Error R) : Step R := fun s => (s, o).

(** [createDatetimeBucketConfig(values, height, orientation)]. *)
Definition createDatetimeBucketConfig (values : JsVal) (height : Z)
    (orientation : JsVal) : BucketConfig :=
  {| bucket_values := values;
     bucket_orientation := ToString lang orientation;
     bucket_height := ToString lang (JNum (Fin height)) |}.

(** [determineBucketStyle(type)]. *)
Definition determineBucketStyle (type : string) : string :=
  if bool_decide (type = BUCKET_TYPES.LOWER_STEP_TICK_VALUES)
  then gridLowerStep gstyles
  else if bool_decide (type = BUCKET_TYPES.MIDPOINT_TICK_VALUES)
  then gridMidpoint gstyles
  else if bool_decide (type = BUCKET_TYPES.UPPER_STEP_TICK_VALUES)
  then gridUpperStep gstyles
  else "".

(** [createVGridForDatetimeBuckets(gridSVG, axis, values, orientation,
    height, type, createVGridHandler)]. *)
Definition createVGridForDatetimeBuckets (axis_obj : A) (values : JsVal)
    (orientation : JsVal) (height : Z) (type : string)
    (createVGridHandler : Handler) : Step unit := fun gridSVG =>
  let config := createDatetimeBucketConfig values height orientation in
  let style := determineBucketStyle type in
  createVGridHandler gridSVG axis_obj style (OfBucket config).

(** [translateVGridDatetimeBuckets(canvasSVG, axis, values, orientation,
    height, type, translateVGridHandler)]. *)
Definition translateVGridDatetimeBuckets (axis_obj : A) (values : JsVal)
    (orientation : JsVal) (height : Z) (type : string)
    (translateVGridHandler : Handler) : Step unit := fun canvasSVG =>
  let config := createDatetimeBucketConfig values height orientation in
  let style := determineBucketStyle type in
  translateVGridHandler canvasSVG axis_obj style (OfBucket config).

(** [createDatetimeBuckets(gridSVG, axis, config, createVGridHandler)].
    Each tick list is read from [config.axis.x.ticks] once, before the
    tests that use it. *)
Definition createDatetimeBuckets (axis_obj : A) (config : Config)
    (createVGridHandler : Handler) : Step unit :=
  let x := axis_x (axis config) in
  values ← read (get_prop (ticks x) "values");
  lowerStepTickValues ← read (get_prop (ticks x) "lowerStepTickValues");
  (if notEmpty utils values && isEmpty utils lowerStepTickValues then
     createVGridForDatetimeBuckets axis_obj values (orientation x)
       (height config) BUCKET_TYPES.LOWER_STEP_TICK_VALUES createVGridHandler
   else if notEmpty utils lowerStepTickValues then
     createVGridForDatetimeBuckets axis_obj lowerStepTickValues (orientation x)
       (height config) BUCKET_TYPES.LOWER_STEP_TICK_VALUES createVGridHandler
   else mret tt);;
  midpointTickValues ← read (get_prop (ticks x) "midpointTickValues");
  (if notEmpty utils midpointTickValues then
     createVGridForDatetimeBuckets axis_obj midpointTickValues (orientation x)
       (height config) BUCKET_TYPES.MIDPOINT_TICK_VALUES createVGridHandler
   else mret tt);;
  upperStepTickValues ← read (get_prop (ticks x) "upperStepTickValues");
  (if notEmpty utils upperStepTickValues then
     createVGridForDatetimeBuckets axis_obj upperStepTickValues (orientation x)
       (height config) BUCKET_TYPES.UPPER_STEP_TICK_VALUES createVGridHandler
   else mret tt).

(** [translateDatetimeBuckets(canvasSVG, axis, config,
    translateVGridHandler)]. *)
Definition translateDatetimeBuckets (axis_obj : A) (config : Config)
    (translateVGridHandler : Handler) : Step unit :=
  let x := axis_x (axis config) in
  values ← read (get_prop (ticks x) "values");
  lowerStepTickValues ← read (get_prop (ticks x) "lowerStepTickValues");
  (if notEmpty utils values && isEmpty utils lowerStepTickValues then
     translateVGridDatetimeBuckets axis_obj values (orientation x)
       (height config) BUCKET_TYPES.LOWER_STEP_TICK_VALUES
       translateVGridHandler
   else if notEmpty utils lowerStepTickValues then
     translateVGridDatetimeBuckets axis_obj lowerStepTickValues (orientation x)
       (height config) BUCKET_TYPES.LOWER_STEP_TICK_VALUES
       translateVGridHandler
   else mret tt);;
  midpointTickValues ← read (get_prop (ticks x) "midpointTickValues");
  (if notEmpty utils midpointTickValues then
     translateVGridDatetimeBuckets axis_obj midpointTickValues (orientation x)
       (height config) BUCKET_TYPES.MIDPOINT_TICK_VALUES
       translateVGridHandler
   else mret tt);;
  upperStepTickValues ← read (get_prop (ticks x) "upperStepTickValues");
  (if notEmpty utils upperStepTickValues then
     translateVGridDatetimeBuckets axis_obj upperStepTickValues (orientation x)
       (height config) BUCKET_TYPES.UPPER_STEP_TICK_VALUES
       translateVGridHandler
   else mret tt).

(** [createVGrid(gridSVG, axis, config, createVGridHandler)]. *)
Definition createVGrid (axis_obj : A) (config : Config)
    (createVGridHandler : Handler) : Step unit :=
  has ← read (DatetimeBuckets.hasDatetimeBuckets utils
                (ticks (axis_x (axis config))));
  if has : bool then createDatetimeBuckets axis_obj config createVGridHandler
  else fun gridSVG =>
    createVGridHandler gridSVG axis_obj (gridV gstyles) (OfGraph config).

(** [translateVGrid(canvasSVG, axis, config, translateVGridHandler)]. *)
Definition translateVGrid (axis_obj : A) (config : Config)
    (translateVGridHandler : Handler) : Step unit :=
  has ← read (DatetimeBuckets.hasDatetimeBuckets utils
                (ticks (axis_x (axis config))));
  if has : bool then
    translateDatetimeBuckets axis_obj config translateVGridHandler
  else fun canvasSVG =>
    translateVGridHandler canvasSVG axis_obj (gridV gstyles) (OfGraph config).

End DatetimeGrid.
End DatetimeGrid.

(* ===================================================================== *)
(** * helpers/dateline.js: validation of a dateline *)
(* ===================================================================== *)

Module Dateline.

(** The messages of [helpers/errors.js] that [validateDateline] throws. *)
Definition THROW_MSG_DATELINE_OBJECT_NOT_PROVIDED : Error :=
  OtherError "THROW_MSG_DATELINE_OBJECT_NOT_PROVIDED".
Definition THROW_MSG_DATELINE_NOT_PROVIDED : Error :=
  OtherError "THROW_MSG_DATELINE_NOT_PROVIDED".
Definition THROW_MSG_DATELINE_TYPE_NOT_VALID : Error :=
  OtherError "THROW_MSG_DATELINE_TYPE_NOT_VALID".
Definition THROW_MSG_DATELINE_COLOR_NOT_PROVIDED : Error :=
  OtherError "THROW_MSG_DATELINE_COLOR_NOT_PROVIDED".
Definition THROW_MSG_DATELINE_SHAPE_NOT_PROVIDED : Error :=
  OtherError "THROW_MSG_DATELINE_SHAPE_NOT_PROVIDED".

Section Dateline.
(** [utils.isDate] of [helpers/utils.js] is not among the sources. *)
Context (utils : Utils) (isDate : JsVal -> bool).

(** [validateDateline(dateline)]. *)
Definition validateDateline (dateline : JsVal) : Outcome Error unit :=
  throw_if (isEmpty utils dateline) THROW_MSG_DATELINE_OBJECT_NOT_PROVIDED;;
  value ← get_prop dateline "value";
  throw_if (isEmpty utils value) THROW_MSG_DATELINE_NOT_PROVIDED;;
  throw_if (negb (isDate value)) THROW_MSG_DATELINE_TYPE_NOT_VALID;;
  color ← get_prop dateline "color";
  throw_if (isEmpty utils color) THROW_MSG_DATELINE_COLOR_NOT_PROVIDED;;
  showDatelineIndicator ← get_prop dateline "showDatelineIndicator";
  (if truthy showDatelineIndicator then
     shape ← get_prop dateline "shape";
     throw_if (isEmpty utils shape) THROW_MSG_DATELINE_SHAPE_NOT_PROVIDED
   else mret tt).

End Dateline.
End Dateline.

(* ===================================================================== *)
(** * controls/PairedResult/helpers/helpers.js: the legend click *)
(* ===================================================================== *)

Module PairedResultLegend.

(** [shownTargets.indexOf(key)] on strings. *)
Definition indexOf (shownTargets : list string) (key : string) : Z :=
  match list_find (fun k => k = key) shownTargets with
  | Some (i, _) => Z.of_nat i
  | None => -1
  end.

(** [updateShownTarget(shownTargets, item)] of [clickHandler], for the key
    of the legend item: the list is changed in place. *)
Definition updateShownTarget (shownTargets : list string) (key : string)
    : list string :=
  let index := indexOf shownTargets key in
  if bool_decide (index > -1) then delete (Z.to_nat index) shownTargets
  else shownTargets ++ [key].

(** [getValue(val, type) = val ? val[type] : ""]. *)
Definition getValue (val : JsVal) (type : string) : Outcome Error JsVal :=
  if truthy val then get_prop val type else mret (JStr "").

End PairedResultLegend.

(* ===================================================================== *)
(** * controls/PairedResult/helpers/helpers.js: the data points *)
(* ===================================================================== *)

Module PairedResultData.

(** [errors.THROW_MSG_INVALID_FORMAT_TYPE]. *)
Definition THROW_MSG_INVALID_FORMAT_TYPE : Error :=
  OtherError "THROW_MSG_INVALID_FORMAT_TYPE".

(** What [processDataPoints] takes from files that are not among the
    sources: [utils.isDefined], [utils.hasValue] and [utils.getNumber];
    [isValidAxisType] of [helpers/axis.js]; [parseTypedValue] of
    [core/BaseConfig.js]; the pair item types, the default color and the
    circle shape of [helpers/constants.js]. *)
Record PairedEnv : Type := {
  isDefined : JsVal -> bool;
  hasValue : list string -> string -> bool;
  getNumber : JsVal -> JsVal;
  isValidAxisType : JsVal -> AXIS_TYPE -> bool;
  parseTypedValue : JsVal -> AXIS_TYPE -> JsVal;
  PAIR_ITEM_TYPES : list string;
  DEFAULT_COLOR : JsVal;
  SHAPES_CIRCLE : JsVal
}.

(** An instance used only on concrete inputs. *)
Definition std_paired_env : PairedEnv := {|
  isDefined v := match v with JUndefined => false | _ => true end;
  hasValue l k := bool_decide (k ∈ l);
  getNumber v := v;
  isValidAxisType x _ := match x with JNum (Fin _) | JStr _ => true | _ => false end;
  parseTypedValue x _ := x;
  PAIR_ITEM_TYPES := ["high"; "mid"; "low"];
  DEFAULT_COLOR := JStr "#1C1F21";
  SHAPES_CIRCLE := JStr "circle"
|}.

Section PairedResultData.
Context (lang : Lang) (penv : PairedEnv).

(** [a || b]. *)
Definition or_else (a b : JsVal) : JsVal := if truthy a then a else b.

(** [config.shownTargets = shown]. *)
Definition set_shownTargets (shown : list string) (config : Config) : Config :=
  {| axis := axis config; canvasWidth := canvasWidth config;
     height := height config; padding := padding config;
     axisSizes_y := axisSizes_y config;
     axisLabelWidths_y := axisLabelWidths_y config;
     shownTargets := shown; dateline := dateline config;
     others := others config |}.

(** [getXDataValues(x)] of [processDataPoints]. *)
Definition getXDataValues (type : AXIS_TYPE) (x : JsVal) : Outcome Error JsVal :=
  throw_if (negb (isValidAxisType penv x type)) THROW_MSG_INVALID_FORMAT_TYPE;;
  mret (parseTypedValue penv x type).

(** The body of [iterateOnPairType] in [processDataPoints] for one pair
    item type: the state is the list of shown targets, pushed to in place,
    and the [subset] object under construction. *)
Definition processPairType (axisType : AXIS_TYPE) (dataTarget value : JsVal)
    (type : string) (shown : list string) (subset : list (string * JsVal))
    : list string * Outcome Error (list (string * JsVal)) :=
  match
    defined ← PairedResultLegend.getValue value type;
    if isDefined penv defined then
      currentValue ← PairedResultLegend.getValue value type;
      cx ← get_prop currentValue "x";
      x ← getXDataValues axisType cx;
      cy ← get_prop currentValue "y";
      isCritical ← get_prop currentValue "isCritical";
      t_color ← get_prop dataTarget "color";
      color ← PairedResultLegend.getValue t_color type;
      t_label ← get_prop dataTarget "label";
      label ← PairedResultLegend.getValue t_label type;
      t_shape ← get_prop dataTarget "shape";
      shape ← PairedResultLegend.getValue t_shape type;
      t_key ← get_prop dataTarget "key";
      mret (Some
              [("x", x);
               ("y", getNumber penv cy);
               ("isCritical", or_else isCritical (JBool false));
               ("color", or_else color (DEFAULT_COLOR penv));
               ("label", or_else label (JObj []));
               ("shape", or_else shape (SHAPES_CIRCLE penv));
               ("key", JStr (ToString lang t_key +:+ "_" +:+ type))])
    else mret None
  with
  | Throws e => (shown, Throws e)
  | Returns None => (shown, Returns subset)
  | Returns (Some item) =>
    let subset := Gantt.obj_set type (JObj item) subset in
    let key := ToString lang (assoc "key" item) in
    let shown :=
      if negb (hasValue penv shown key) then shown ++ [key] else shown in
    (shown, Returns subset)
  end.

(** [iterateOnPairType(fn)]: [constants.PAIR_ITEM_TYPES.forEach(fn)]. *)
Fixpoint iterateOnPairType
    (fn : string -> list string -> list (string * JsVal) ->
          list string * Outcome Error (list (string * JsVal)))
    (types : list string) (shown : list string) (subset : list (string * JsVal))
    : list string * Outcome Error (list (string * JsVal)) :=
  match types with
  | [] => (shown, Returns subset)
  | type :: rest =>
    match fn type shown subset with
    | (shown, Returns subset) => iterateOnPairType fn rest shown subset
    | (shown, Throws e) => (shown, Throws e)
    end
  end.

(** The function [processDataPoints] maps over [dataTarget.values]. *)
Definition processValue (axisType : AXIS_TYPE) (dataTarget value : JsVal)
    (shown : list string) : list string * Outcome Error JsVal :=
  match
    iterateOnPairType (processPairType axisType dataTarget value)
      (PAIR_ITEM_TYPES penv) shown []
  with
  | (shown, Throws e) => (shown, Throws e)
  | (shown, Returns subset) =>
    (shown,
     t_yAxis ← get_prop dataTarget "yAxis";
     t_onClick ← get_prop dataTarget "onClick";
     t_key ← get_prop dataTarget "key";
     mret (JObj
             (Gantt.obj_set "key" t_key
                (Gantt.obj_set "onClick" t_onClick
                   (Gantt.obj_set "yAxis"
                      (or_else t_yAxis (JStr constants.Y_AXIS)) subset)))))
  end.

(** [values.map(fn)] for a function that changes the shown targets. *)
Fixpoint map_values (fn : JsVal -> list string -> list string * Outcome Error JsVal)
    (values : list JsVal) (shown : list string)
    : list string * Outcome Error (list JsVal) :=
  match values with
  | [] => (shown, Returns [])
  | value :: rest =>
    match fn value shown with
    | (shown, Throws e) => (shown, Throws e)
    | (shown, Returns subset) =>
      match map_values fn rest shown with
      | (shown, Throws e) => (shown, Throws e)
      | (shown, Returns subsets) => (shown, Returns (subset :: subsets))
      end
    end
  end.

(** [processDataPoints(graphConfig, dataTarget)]: the configuration, whose
    list of shown targets is changed in place, and the data target with its
    [internalValuesSubset], or the error thrown. *)
Definition processDataPoints (graphConfig : Config) (dataTarget : JsVal)
    : Config * Outcome Error JsVal :=
  let type := type (axis_x (axis graphConfig)) in
  match get_prop dataTarget "values" with
  | Throws e => (graphConfig, Throws e)
  | Returns (JArr values) =>
    match
      map_values (processValue type dataTarget) values
        (shownTargets graphConfig)
    with
    | (shown, Throws e) => (set_shownTargets shown graphConfig, Throws e)
    | (shown, Returns subsets) =>
      (set_shownTargets shown graphConfig,
       match dataTarget with
       | JObj fields =>
         Returns (JObj (Gantt.obj_set "internalValuesSubset" (JArr subsets)
                          fields))
       | _ => Returns dataTarget
       end)
    end
  | Returns _ => (graphConfig, Throws TypeError)
  end.

End PairedResultData.
End PairedResultData.

(* ===================================================================== *)
(** * Properties *)
(* ===================================================================== *)

(** ** Numbers, [Math.min] and [Math.max] *)

Section NumberFacts.

Lemma min2_comm (a b : JsNumber) : min2 a b = min2 b a.
Proof.
  destruct a as [| |x|], b as [| |y|]; simpl; try reflexivity.
  repeat case_bool_decide; try reflexivity; f_equal; lia.
Qed.

Lemma max2_comm (a b : JsNumber) : max2 a b = max2 b a.
Proof.
  destruct a as [| |x|], b as [| |y|]; simpl; try reflexivity.
  repeat case_bool_decide; try reflexivity; f_equal; lia.
Qed.

Lemma min2_assoc (a b c : JsNumber) : min2 a (min2 b c) = min2 (min2 a b) c.
Proof.
  destruct a as [| |x|], b as [| |y|], c as [| |z|]; simpl; try reflexivity;
    repeat (case_bool_decide; simpl); try reflexivity; try lia; f_equal; lia.
Qed.

Lemma max2_assoc (a b c : JsNumber) : max2 a (max2 b c) = max2 (max2 a b) c.
Proof.
  destruct a as [| |x|], b as [| |y|], c as [| |z|]; simpl; try reflexivity;
    repeat (case_bool_decide; simpl); try reflexivity; try lia; f_equal; lia.
Qed.

Lemma min2_fin (x y : Z) : min2 (Fin x) (Fin y) = Fin (Z.min x y).
Proof. simpl. case_bool_decide; f_equal; lia. Qed.

Lemma max2_fin (x y : Z) : max2 (Fin x) (Fin y) = Fin (Z.max x y).
Proof. simpl. case_bool_decide; f_equal; lia. Qed.

Lemma foldr_min_swap (zs : list Z) (a b : Z) :
  Z.min a (foldr Z.min b zs) = Z.min b (foldr Z.min a zs).
Proof. induction zs as [|w zs IH]; simpl; lia. Qed.

Lemma foldr_max_swap (zs : list Z) (a b : Z) :
  Z.max a (foldr Z.max b zs) = Z.max b (foldr Z.max a zs).
Proof. induction zs as [|w zs IH]; simpl; lia. Qed.

(** [Math.min] of finite numbers: the integer minimum, [Infinity] without
    arguments. *)
Lemma Math_min_num_fin (zs : list Z) :
  Math_min_num (Fin <$> zs) =
  match zs with [] => Infinity | z :: zs' => Fin (foldr Z.min z zs') end.
Proof.
  induction zs as [|z zs IH]; [reflexivity|].
  change (Math_min_num (Fin <$> z :: zs))
    with (min2 (Fin z) (Math_min_num (Fin <$> zs))).
  rewrite IH. destruct zs as [|z' zs]; [reflexivity|].
  rewrite min2_fin. f_equal. simpl. apply foldr_min_swap.
Qed.

Lemma Math_max_num_fin (zs : list Z) :
  Math_max_num (Fin <$> zs) =
  match zs with [] => NegInfinity | z :: zs' => Fin (foldr Z.max z zs') end.
Proof.
  induction zs as [|z zs IH]; [reflexivity|].
  change (Math_max_num (Fin <$> z :: zs))
    with (max2 (Fin z) (Math_max_num (Fin <$> zs))).
  rewrite IH. destruct zs as [|z' zs]; [reflexivity|].
  rewrite max2_fin. f_equal. simpl. apply foldr_max_swap.
Qed.

Lemma foldr_min_le (a : Z) (zs : list Z) :
  foldr Z.min a zs <= a /\ Forall (fun z => foldr Z.min a zs <= z) zs.
Proof.
  induction zs as [|w zs [IH1 IH2]]; simpl; [split; [lia|constructor]|].
  split; [lia|]. constructor; [lia|].
  eapply Forall_impl; [exact IH2|]. intros z Hz. simpl in Hz. lia.
Qed.

Lemma foldr_max_ge (a : Z) (zs : list Z) :
  a <= foldr Z.max a zs /\ Forall (fun z => z <= foldr Z.max a zs) zs.
Proof.
  induction zs as [|w zs [IH1 IH2]]; simpl; [split; [lia|constructor]|].
  split; [lia|]. constructor; [lia|].
  eapply Forall_impl; [exact IH2|]. intros z Hz. simpl in Hz. lia.
Qed.

Lemma foldr_min_elem (a : Z) (zs : list Z) :
  foldr Z.min a zs = a \/ foldr Z.min a zs ∈ zs.
Proof.
  induction zs as [|w zs IH]; simpl; [by left|].
  destruct (Z.min_spec w (foldr Z.min a zs)) as [[_ ->]|[_ ->]].
  - right. apply list_elem_of_here.
  - destruct IH as [IH|IH]; [by left|right; by apply list_elem_of_further].
Qed.

Lemma foldr_max_elem (a : Z) (zs : list Z) :
  foldr Z.max a zs = a \/ foldr Z.max a zs ∈ zs.
Proof.
  induction zs as [|w zs IH]; simpl; [by left|].
  destruct (Z.max_spec w (foldr Z.max a zs)) as [[_ ->]|[_ ->]].
  - destruct IH as [IH|IH]; [by left|right; by apply list_elem_of_further].
  - right. apply list_elem_of_here.
Qed.

End NumberFacts.

(** ** Value ranges of Line and Bar contents *)

Section ValueRanges.
Context (lang : Lang).

(** The [y] of a Line data point: [null] for a gap, or a finite number. *)
Definition nullOrFinite (p : DataPoint) : Prop :=
  y p = JNull \/ exists z, y p = JNum (Fin z).

(** The [y] of a Bar data point: a finite number. *)
Definition finiteY (p : DataPoint) : Prop := exists z, y p = JNum (Fin z).

(** The points [calculateValuesRange] of Line keeps. *)
Definition nonNull (values : list DataPoint) : list DataPoint :=
  filter (fun i => is_null (y i) = false) values.

Lemma nonNull_numbers (values : list DataPoint) :
  Forall nullOrFinite values ->
  exists zs,
    ToNumber lang <$> (y <$> nonNull values) = Fin <$> zs
    /\ forall z, z ∈ zs <-> exists p, p ∈ values /\ y p = JNum (Fin z).
Proof.
  unfold nonNull.
  induction values as [|p values IH]; intros Hall.
  - exists []. split; [reflexivity|]. intros z. split.
    + intros Hz. by apply elem_of_nil in Hz.
    + intros (p & Hp & _). by apply elem_of_nil in Hp.
  - apply Forall_cons in Hall as [Hp Hall].
    destruct (IH Hall) as (zs & Heq & Hin).
    destruct Hp as [Hnull|[z Hz]].
    + exists zs. rewrite filter_cons_False by (rewrite Hnull; simpl; congruence).
      split; [exact Heq|]. intros z'. rewrite Hin. split.
      * intros (q & Hq & Hy). exists q. split; [by apply list_elem_of_further|done].
      * intros (q & Hq & Hy). apply elem_of_cons in Hq as [->|Hq].
        -- congruence.
        -- by exists q.
    + exists (z :: zs). rewrite filter_cons_True by (rewrite Hz; reflexivity).
      split.
      * rewrite !fmap_cons, Heq, Hz. reflexivity.
      * intros z'. rewrite elem_of_cons, Hin. split.
        -- intros [->|(q & Hq & Hy)].
           ++ exists p. split; [apply list_elem_of_here|done].
           ++ exists q. split; [by apply list_elem_of_further|done].
        -- intros (q & Hq & Hy). apply elem_of_cons in Hq as [->|Hq].
           ++ left. congruence.
           ++ right. by exists q.
Qed.

(** C10.  For a Line value list whose [y] values are numbers or [null] and
    that holds at least one point with a non-null [y],
    [calculateValuesRange] returns under the axis a finite minimum and a
    finite maximum: both are attained at points of the list, they bound the
    [y] of every non-null point, and a list with the same non-null points
    has the same range, so that the [null] points do not influence it. *)
Theorem Line_calculateValuesRange_ignores_null
    (values : list DataPoint) (axis_name : string) :
  Forall nullOrFinite values ->
  (exists p, p ∈ values /\ y p <> JNull) ->
  exists lo hi : Z,
    Line.calculateValuesRange lang values axis_name
      = {[ axis_name := {| min := Fin lo; max := Fin hi |} ]}
    /\ (forall p z, p ∈ values -> y p = JNum (Fin z) -> lo <= z <= hi)
    /\ (exists p, p ∈ values /\ y p = JNum (Fin lo))
    /\ (exists p, p ∈ values /\ y p = JNum (Fin hi))
    /\ (forall values',
          nonNull values' = nonNull values ->
          Line.calculateValuesRange lang values' axis_name
            = Line.calculateValuesRange lang values axis_name).
Proof.
  intros Hall (p0 & Hp0 & Hnn).
  destruct (nonNull_numbers values Hall) as (zs & Heq & Hin).
  assert (Hz0 : exists z0, z0 ∈ zs).
  { rewrite Forall_forall in Hall. destruct (Hall p0 Hp0) as [?|[z Hz]]; [done|].
    exists z. apply Hin. by exists p0. }
  destruct zs as [|z zs]; [destruct Hz0 as [? Hz0]; by apply elem_of_nil in Hz0|].
  assert (Hsame : forall values',
             nonNull values' = nonNull values ->
             Line.calculateValuesRange lang values' axis_name
               = Line.calculateValuesRange lang values axis_name).
  { intros values' Hsame. unfold Line.calculateValuesRange.
    fold (nonNull values'). fold (nonNull values). by rewrite Hsame. }
  assert (Hval : Line.calculateValuesRange lang values axis_name
            = {[ axis_name := {| min := Fin (foldr Z.min z zs);
                                 max := Fin (foldr Z.max z zs) |} ]}).
  { unfold Line.calculateValuesRange, Math_min, Math_max.
    fold (nonNull values). by rewrite Heq, Math_min_num_fin, Math_max_num_fin. }
  exists (foldr Z.min z zs), (foldr Z.max z zs).
  split; [exact Hval|].
  destruct (foldr_min_le z zs) as [Hlo1 Hlo2].
  destruct (foldr_max_ge z zs) as [Hhi1 Hhi2].
  rewrite Forall_forall in Hlo2, Hhi2.
  split; [|split; [|split]].
  - intros p w Hp Hw.
    assert (Hwin : w ∈ z :: zs) by (apply Hin; by exists p).
    apply elem_of_cons in Hwin as [->|Hwin]; [lia|].
    specialize (Hlo2 w Hwin). specialize (Hhi2 w Hwin). lia.
  - apply Hin. destruct (foldr_min_elem z zs) as [->|H].
    + apply list_elem_of_here.
    + by apply list_elem_of_further.
  - apply Hin. destruct (foldr_max_elem z zs) as [->|H].
    + apply list_elem_of_here.
    + by apply list_elem_of_further.
  - exact Hsame.
Qed.


(** C6.  For a Bar value list whose [y] values are the finite numbers
    [zs], [calculateValuesRange] returns under the axis the smaller of the
    minimum of [zs] and 0 as the range minimum and the larger of the maximum
    of [zs] and 0 as the range maximum (0 and 0 for an empty list); the
    range therefore contains 0 and every [y]. *)
Theorem Bar_calculateValuesRange_includes_zero
    (values : list DataPoint) (axis_name : string) (zs : list Z) :
  y <$> values = (fun z => JNum (Fin z)) <$> zs ->
  exists lo hi : Z,
    Bar.calculateValuesRange lang values axis_name
      = {[ axis_name := {| min := Fin lo; max := Fin hi |} ]}
    /\ lo = match zs with [] => 0 | z :: zs' => Z.min (foldr Z.min z zs') 0 end
    /\ hi = match zs with [] => 0 | z :: zs' => Z.max (foldr Z.max z zs') 0 end
    /\ lo <= 0 <= hi
    /\ Forall (fun z => lo <= z <= hi) zs.
Proof.
  intros Hys.
  assert (Hnum : ToNumber lang <$> (y <$> values) = Fin <$> zs).
  { rewrite Hys, <- list_fmap_compose. reflexivity. }
  unfold Bar.calculateValuesRange, Math_min, Math_max.
  rewrite Hnum, Math_min_num_fin, Math_max_num_fin.
  destruct zs as [|z zs].
  - exists 0, 0. simpl. repeat split; try lia. constructor.
  - exists (Z.min (foldr Z.min z zs) 0), (Z.max (foldr Z.max z zs) 0).
    split.
    { unfold num_gt. simpl. repeat case_bool_decide; repeat f_equal; lia. }
    split; [reflexivity|]. split; [reflexivity|]. split; [lia|].
    destruct (foldr_min_le z zs) as [Hlo1 Hlo2].
    destruct (foldr_max_ge z zs) as [Hhi1 Hhi2].
    constructor; [lia|].
    rewrite Forall_forall in Hlo2, Hhi2. apply Forall_forall. intros w Hw.
    specialize (Hlo2 w Hw). specialize (Hhi2 w Hw). lia.
Qed.

End ValueRanges.

(** C10 at a concrete list with a gap. *)
Lemma Line_calculateValuesRange_ignores_null_witness :
  exists lo hi : Z,
    Line.calculateValuesRange std_lang
      [ {| x := JNum (Fin 1); y := JNum (Fin 5) |};
        {| x := JNum (Fin 2); y := JNull |};
        {| x := JNum (Fin 3); y := JNum (Fin (-2)) |} ] "y"
    = {[ "y" := {| min := Fin lo; max := Fin hi |} ]}
    /\ lo = -2 /\ hi = 5.
Proof.
  destruct (Line_calculateValuesRange_ignores_null std_lang
              [ {| x := JNum (Fin 1); y := JNum (Fin 5) |};
                {| x := JNum (Fin 2); y := JNull |};
                {| x := JNum (Fin 3); y := JNum (Fin (-2)) |} ] "y")
    as (lo & hi & Heq & _).
  - repeat first
      [ apply Forall_nil_2
      | apply Forall_cons; split
      | left; reflexivity
      | right; eexists; reflexivity ].
  - exists {| x := JNum (Fin 1); y := JNum (Fin 5) |}.
    split; [apply list_elem_of_here|discriminate].
  - exists lo, hi. split; [exact Heq|].
    vm_compute in Heq. split; congruence.
Defined.

(** C6 at a concrete list of positive values: the minimum is forced to 0. *)
Lemma Bar_calculateValuesRange_includes_zero_witness :
  exists lo hi : Z,
    Bar.calculateValuesRange std_lang
      [ {| x := JNum (Fin 1); y := JNum (Fin 10) |};
        {| x := JNum (Fin 2); y := JNum (Fin 50) |} ] "y"
    = {[ "y" := {| min := Fin lo; max := Fin hi |} ]}
    /\ lo = 0 /\ hi = 50.
Proof.
  destruct (Bar_calculateValuesRange_includes_zero std_lang
              [ {| x := JNum (Fin 1); y := JNum (Fin 10) |};
                {| x := JNum (Fin 2); y := JNum (Fin 50) |} ] "y" [10; 50])
    as (lo & hi & Heq & Hlo & Hhi & _).
  - reflexivity.
  - exists lo, hi. split; [exact Heq|]. split; [exact Hlo|exact Hhi].
Defined.

(** ** The merged domain does not depend on the load order *)

Section DomainFacts.
Context (padDomain : string -> Range -> Range) (lang : Lang).

Lemma mergeRange_comm (a b : Range) :
  Domain.mergeRange a b = Domain.mergeRange b a.
Proof.
  unfold Domain.mergeRange. by rewrite (min2_comm (min a)), (max2_comm (max a)).
Qed.

Lemma mergeRange_assoc (a b c : Range) :
  Domain.mergeRange (Domain.mergeRange a b) c
  = Domain.mergeRange a (Domain.mergeRange b c).
Proof. unfold Domain.mergeRange. simpl. by rewrite min2_assoc, max2_assoc. Qed.

Lemma mergeInto_swap (acc : option Range) (r s : Range) :
  Domain.mergeInto (Domain.mergeInto acc r) s
  = Domain.mergeInto (Domain.mergeInto acc s) r.
Proof.
  destruct acc as [a|]; unfold Domain.mergeInto; f_equal.
  - by rewrite !mergeRange_assoc, (mergeRange_comm r s).
  - apply mergeRange_comm.
Qed.

Lemma foldl_mergeInto_perm (l1 l2 : list Range) :
  l1 ≡ₚ l2 ->
  forall acc, foldl Domain.mergeInto acc l1 = foldl Domain.mergeInto acc l2.
Proof.
  induction 1 as [|r l1 l2 _ IH|r s l|l1 l2 l3 _ IH1 _ IH2]; intros acc; simpl.
  - reflexivity.
  - apply IH.
  - by rewrite mergeInto_swap.
  - by rewrite IH1, IH2.
Qed.

(** Any two load orders of the same contents give the same domain. *)
Lemma computeDomain_permutation (l1 l2 : list (gmap string Range))
    (axisId : string) :
  l1 ≡ₚ l2 ->
  Domain.computeDomain padDomain l1 axisId
  = Domain.computeDomain padDomain l2 axisId.
Proof.
  intros Hp. unfold Domain.computeDomain, Domain.rangesOn. f_equal.
  apply foldl_mergeInto_perm. by apply omap_Permutation.
Qed.

(** C5.  For two Line series A and B, with the value ranges
    [calculateValuesRange] gives them, the merged domain of every axis
    (lower and upper bound) is the same whether A is loaded before B or B
    before A. *)
Theorem computeDomain_order_independent
    (valuesA valuesB : list DataPoint) (axisA axisB axisId : string) :
  let A := Line.calculateValuesRange lang valuesA axisA in
  let B := Line.calculateValuesRange lang valuesB axisB in
  Domain.computeDomain padDomain [A; B] axisId
  = Domain.computeDomain padDomain [B; A] axisId.
Proof.
  intros A B. apply computeDomain_permutation. apply Permutation_swap.
Qed.

(** The merged range of two series on a shared axis, spelled out. *)
Lemma computeDomain_two_finite (lo1 hi1 lo2 hi2 : Z) (axisId : string) :
  Domain.computeDomain padDomain
    [ {[ axisId := {| min := Fin lo1; max := Fin hi1 |} ]};
      {[ axisId := {| min := Fin lo2; max := Fin hi2 |} ]} ] axisId
  = Some (padDomain axisId
            {| min := Fin (Z.min lo1 lo2); max := Fin (Z.max hi1 hi2) |}).
Proof.
  unfold Domain.computeDomain, Domain.rangesOn. simpl.
  rewrite !lookup_singleton_eq. simpl. unfold Domain.mergeRange. simpl.
  repeat case_bool_decide; repeat f_equal; lia.
Qed.

End DomainFacts.

(** ** The tick values of the X axis with datetime buckets *)

Section DatetimeBucketFacts.
Context (utils : Utils).

(** A tick list of the configuration: an array, or not given. *)
Definition arrayOrUndefined (v : JsVal) : Prop :=
  v = JUndefined \/ exists l, v = JArr l.

Hypothesis isEmpty_undefined : isEmpty utils JUndefined = true.
Hypothesis isEmpty_items : forall v l, isEmpty utils (JArr (v :: l)) = false.

Lemma concat_notEmpty (acc : list JsVal) (v : JsVal) :
  arrayOrUndefined v ->
  (if notEmpty utils v then DatetimeBuckets.concat acc v else acc)
  = acc ++ array_items v.
Proof.
  unfold notEmpty. intros [->|[l ->]].
  - rewrite isEmpty_undefined. simpl. by rewrite app_nil_r.
  - destruct l as [|w l].
    + simpl. destruct (isEmpty utils (JArr [])); simpl; by rewrite ?app_nil_r.
    + by rewrite isEmpty_items.
Qed.

Lemma constructDatetimeBucketValues_app (values upper : JsVal) :
  arrayOrUndefined values -> arrayOrUndefined upper ->
  DatetimeBuckets.constructDatetimeBucketValues utils values upper
  = array_items values ++ array_items upper.
Proof.
  intros Hv Hu. unfold DatetimeBuckets.constructDatetimeBucketValues.
  rewrite (concat_notEmpty [] values Hv). simpl.
  by rewrite (concat_notEmpty (array_items values) upper Hu).
Qed.

(** C7.  When the tick configuration of the X axis has datetime buckets
    ([hasDatetimeBuckets] holds) and its tick lists are arrays or not given,
    [prepareHAxis] prepares the X axis with exactly the lower-step tick
    values (the plain [values] when no lower-step list is given) followed by
    the upper-step tick values.  The midpoint tick values take no part in
    the list. *)
Theorem prepareHAxis_labels_lower_and_upper {D : Type}
    (scale : Scale) (axis_obj : gmap string D) (config : Config)
    (prepareXAxisHandler :
       Scale -> list JsVal -> Config -> JsVal -> Outcome Error D)
    (orientation : JsVal) (fields : list (string * JsVal)) :
  let lower := assoc "lowerStepTickValues" fields in
  let values := assoc "values" fields in
  let upper := assoc "upperStepTickValues" fields in
  ticks (axis_x (axis config)) = JObj fields ->
  arrayOrUndefined lower -> arrayOrUndefined values -> arrayOrUndefined upper ->
  DatetimeBuckets.hasDatetimeBuckets utils (JObj fields) = Returns true ->
  DatetimeBuckets.prepareHAxis utils scale axis_obj config prepareXAxisHandler
    orientation
  = match
      prepareXAxisHandler scale
        (array_items (if truthy lower then lower else values)
         ++ array_items upper)
        config orientation
    with
    | Returns d => (<[constants.X_AXIS := d]> axis_obj, Returns tt)
    | Throws e => (axis_obj, Throws e)
    end.
Proof.
  intros lower values upper Hticks Hl Hv Hu Hhas.
  unfold DatetimeBuckets.prepareHAxis. rewrite Hticks, Hhas. simpl.
  fold lower values upper.
  destruct (truthy lower) eqn:Ht; simpl.
  - by rewrite (constructDatetimeBucketValues_app lower upper Hl Hu).
  - by rewrite (constructDatetimeBucketValues_app values upper Hv Hu).
Qed.

End DatetimeBucketFacts.

(** C7 on a three-tier configuration: the axis gets the lower and the upper
    tier, the midpoint tier is left out. *)
Lemma prepareHAxis_labels_lower_and_upper_witness :
  let x_ticks :=
    JObj [("lowerStepTickValues", JArr [JStr "01:00"; JStr "03:00"]);
          ("midpointTickValues", JArr [JStr "02:00"]);
          ("upperStepTickValues", JArr [JStr "Jan 1"])] in
  let a :=
    {| type := TIME_SERIES; domain := JUndefined; ticks := x_ticks;
       orientation := JUndefined; rangeRounding := JUndefined;
       dataRange := None; trackList := []; trackCount := 0 |} in
  let config :=
    {| axis := {| axis_x := a; axis_y := a; axis_y2 := a |};
       canvasWidth := 500; height := 200;
       padding := {| padding_top := 10; padding_bottom := 5;
                     padding_left := 30; padding_right := 50;
                     hasCustomPadding := false |};
       axisSizes_y := 0; axisLabelWidths_y := 0; shownTargets := [];
       dateline := JArr []; others := [] |} in
  DatetimeBuckets.prepareHAxis std_utils ∅ ∅ config
    (fun _ tickValues _ _ => Returns tickValues) JUndefined
  = ({[ "x" := [JStr "01:00"; JStr "03:00"; JStr "Jan 1"] ]}, Returns tt).
Proof.
  intros x_ticks a config.
  rewrite (prepareHAxis_labels_lower_and_upper std_utils eq_refl
             (fun _ _ => eq_refl) ∅ ∅ config
             (fun _ tickValues _ _ => Returns tickValues) JUndefined
             [("lowerStepTickValues", JArr [JStr "01:00"; JStr "03:00"]);
              ("midpointTickValues", JArr [JStr "02:00"]);
              ("upperStepTickValues", JArr [JStr "Jan 1"])]).
  - reflexivity.
  - reflexivity.
  - right. eexists. reflexivity.
  - left. reflexivity.
  - right. eexists. reflexivity.
  - reflexivity.
Defined.

(** ** Validation of a region *)

(** The axis of a region is valid for the target axis: it is not given and
    the target is [y], or it is the target, one of [y] and [y2]. *)
Definition axis_ok (fields : list (string * JsVal)) (targetAxis : string)
    : Prop :=
  (assoc "axis" fields = JUndefined /\ targetAxis = constants.Y_AXIS)
  \/ (assoc "axis" fields = JStr targetAxis
      /\ (targetAxis = constants.Y_AXIS \/ targetAxis = constants.Y2_AXIS)).

Section ValidateRegionFacts.
Context (lang : Lang) (utils : Utils).

Hypothesis isEmpty_undefined : isEmpty utils JUndefined = true.
Hypothesis isEmpty_number : forall z, isEmpty utils (JNum (Fin z)) = false.
Hypothesis isEmpty_object :
  forall f fs, isEmpty utils (JObj (f :: fs)) = false.
Hypothesis isEmpty_string :
  forall s, s <> "" -> isEmpty utils (JStr s) = false.
Hypothesis isNumber_number : forall z, isNumber utils (JNum (Fin z)) = true.

(** A region without bounds is rejected as such, unless the region object
    is itself empty. *)
Lemma validateRegion_bounds_missing
    (fields : list (string * JsVal)) (targetAxis : string) :
  isEmpty utils (JObj fields) = false ->
  isEmpty utils (assoc "start" fields) = true ->
  isEmpty utils (assoc "end" fields) = true ->
  Region.validateRegion lang utils (JObj fields) targetAxis
  = Throws THROW_MSG_REGION_START_END_MISSING.
Proof.
  intros Hobj Hs He. unfold Region.validateRegion.
  rewrite Hobj. simpl. by rewrite Hs, He.
Qed.

(** The two axis tests pass on a valid axis. *)
Lemma axis_tests_pass (fields : list (string * JsVal)) (targetAxis : string) :
  axis_ok fields targetAxis ->
  let r_axis := assoc "axis" fields in
  notEmpty utils r_axis &&
    ((negb (is_string constants.Y_AXIS r_axis) &&
      negb (is_string constants.Y2_AXIS r_axis))
     || negb (is_string targetAxis r_axis)) = false
  /\ isEmpty utils r_axis && negb (bool_decide (constants.Y_AXIS = targetAxis))
     = false.
Proof.
  unfold notEmpty. intros [[-> ->]|[-> Ht]]; simpl.
  - rewrite isEmpty_undefined. simpl. split; reflexivity.
  - rewrite (bool_decide_eq_true_2 (targetAxis = targetAxis)) by reflexivity.
    rewrite isEmpty_string by (destruct Ht as [->| ->]; discriminate).
    simpl. destruct Ht as [->| ->]; simpl; split; reflexivity.
Qed.

(** A region with exactly one bound, a finite number, the other bound not
    given, passes on a valid axis. *)
Lemma validateRegion_single_bound
    (fields : list (string * JsVal)) (targetAxis : string) (z : Z) :
  axis_ok fields targetAxis ->
  (assoc "start" fields = JNum (Fin z) /\ assoc "end" fields = JUndefined)
  \/ (assoc "start" fields = JUndefined /\ assoc "end" fields = JNum (Fin z)) ->
  Region.validateRegion lang utils (JObj fields) targetAxis = Returns tt.
Proof.
  intros Hax Hb. destruct (axis_tests_pass fields targetAxis Hax) as [Ha1 Ha2].
  assert (Hobj : isEmpty utils (JObj fields) = false).
  { destruct fields as [|f fs]; [|apply isEmpty_object].
    destruct Hb as [[Hb _]|[_ Hb]]; discriminate. }
  unfold Region.validateRegion. rewrite Hobj. simpl.
  rewrite Ha1, Ha2. simpl.
  destruct Hb as [[-> ->]|[-> ->]]; simpl;
    rewrite ?isEmpty_number, ?isEmpty_undefined, ?isNumber_number; simpl;
    rewrite ?andb_false_r; reflexivity.
Qed.

(** A region with two finite bounds, the start above the end, is rejected
    for that reason on a valid axis. *)
Lemma validateRegion_start_more_end
    (fields : list (string * JsVal)) (targetAxis : string) (s e : Z) :
  axis_ok fields targetAxis ->
  assoc "start" fields = JNum (Fin s) ->
  assoc "end" fields = JNum (Fin e) ->
  s > e ->
  Region.validateRegion lang utils (JObj fields) targetAxis
  = Throws THROW_MSG_REGION_START_MORE_END.
Proof.
  intros Hax Hs He Hgt.
  destruct (axis_tests_pass fields targetAxis Hax) as [Ha1 Ha2].
  assert (Hobj : isEmpty utils (JObj fields) = false).
  { destruct fields as [|f fs]; [discriminate|apply isEmpty_object]. }
  unfold Region.validateRegion. rewrite Hobj. simpl.
  rewrite Ha1, Ha2, Hs, He. simpl.
  rewrite !isEmpty_number, !isNumber_number. simpl.
  rewrite !andb_false_r. simpl. unfold num_gt. simpl.
  by rewrite bool_decide_eq_true_2 by lia.
Qed.

(** C9, as the code has it.  A region object that is not itself empty and
    in which both [start] and [end] are empty is rejected with the
    start-end-missing error; a region that gives exactly one bound as a
    finite number and does not give the other passes validation on a valid
    axis. *)
Theorem validateRegion_needs_one_bound :
  (forall (fields : list (string * JsVal)) (targetAxis : string),
     isEmpty utils (JObj fields) = false ->
     isEmpty utils (assoc "start" fields) = true ->
     isEmpty utils (assoc "end" fields) = true ->
     Region.validateRegion lang utils (JObj fields) targetAxis
     = Throws THROW_MSG_REGION_START_END_MISSING)
  /\ (forall (fields : list (string * JsVal)) (targetAxis : string) (z : Z),
        axis_ok fields targetAxis ->
        (assoc "start" fields = JNum (Fin z) /\ assoc "end" fields = JUndefined)
        \/ (assoc "start" fields = JUndefined
            /\ assoc "end" fields = JNum (Fin z)) ->
        Region.validateRegion lang utils (JObj fields) targetAxis = Returns tt).
Proof.
  split.
  - apply validateRegion_bounds_missing.
  - apply validateRegion_single_bound.
Qed.

End ValidateRegionFacts.

(** The sample helpers meet the hypotheses made on [utils]. *)
Lemma std_isEmpty_string (s : string) :
  s <> "" -> isEmpty std_utils (JStr s) = false.
Proof. destruct s; [congruence|reflexivity]. Qed.

(** C9 at a region with only a colour and at a region with only a start. *)
Lemma validateRegion_needs_one_bound_witness :
  Region.validateRegion std_lang std_utils (JObj [("color", JStr "red")]) "y"
  = Throws THROW_MSG_REGION_START_END_MISSING
  /\ Region.validateRegion std_lang std_utils
       (JObj [("start", JNum (Fin 10))]) "y"
     = Returns tt.
Proof.
  destruct (validateRegion_needs_one_bound std_lang std_utils eq_refl
              (fun _ => eq_refl) (fun _ _ => eq_refl) std_isEmpty_string
              (fun _ => eq_refl)) as [Hmissing Hsingle].
  split.
  - apply Hmissing; reflexivity.
  - apply (Hsingle _ _ 10).
    + left. split; reflexivity.
    + left. split; reflexivity.
Defined.

(** C9 as stated fails twice.  The empty region object has neither bound
    and is rejected as an empty region, not for its missing bounds.  The
    region [{start: 10, end: null}] gives one bound only and is rejected
    because [Number(null)] is 0; no behaviour of [utils] lets it pass. *)
Lemma validateRegion_single_bound_counterexample :
  Region.validateRegion std_lang std_utils (JObj []) "y"
  = Throws THROW_MSG_REGION_EMPTY
  /\ Region.validateRegion std_lang std_utils
       (JObj [("start", JNum (Fin 10)); ("end", JNull)]) "y"
     = Throws THROW_MSG_REGION_START_MORE_END
  /\ (forall (lang : Lang) (utils : Utils),
        Region.validateRegion lang utils
          (JObj [("start", JNum (Fin 10)); ("end", JNull)]) "y"
        <> Returns tt).
Proof.
  split; [reflexivity|]. split; [reflexivity|].
  intros lang utils. unfold Region.validateRegion, throw_if, notEmpty. simpl.
  repeat match goal with
         | |- context [isEmpty utils ?v] => destruct (isEmpty utils v); simpl
         | |- context [isNumber utils ?v] => destruct (isNumber utils v); simpl
         end; discriminate.
Qed.

(** ** The document tree under the d3 selections *)

Section TreeFacts.

(** Induction on a tree, with the hypothesis available for every child. *)
Lemma Node_ind' (P : Node -> Prop) :
  (forall o ch, Forall P ch -> P (Element o ch)) -> forall n, P n.
Proof.
  intros H. fix IH 1. intros [o ch]. apply H.
  induction ch as [|k ch IHch]; [apply Forall_nil_2|].
  apply Forall_cons. split; [apply IH|exact IHch].
Qed.

Lemma owns_Element (o : Own) (ch : list Node) :
  owns (Element o ch) = ch ≫= (fun k => own_of k :: owns k).
Proof.
  unfold owns. simpl. induction ch as [|k ch IH]; [reflexivity|].
  rewrite !bind_cons, fmap_app, IH. reflexivity.
Qed.

Lemma own_of_selectAll_each (sel : Selector) (f : Own -> Own) (k : Node) :
  own_of (selectAll_each sel f k) = own_of k.
Proof. by destruct k. Qed.

(** [selectAll(sel)] with an edit acts element by element. *)
Lemma owns_selectAll_each (sel : Selector) (f : Own -> Own) (root : Node) :
  owns (selectAll_each sel f root)
  = (fun o => if matches sel o then f o else o) <$> owns root.
Proof.
  induction root as [o ch IH] using Node_ind'.
  simpl. rewrite !owns_Element.
  induction ch as [|k ch IHch]; [reflexivity|].
  apply Forall_cons in IH as [Hk IH].
  cbn [map]. rewrite !bind_cons, fmap_app, (IHch IH). f_equal.
  pose proof (own_of_selectAll_each sel f k) as Hown.
  destruct (selectAll_each sel f k) as [ko kch] eqn:Hsel.
  simpl in Hown. subst ko.
  rewrite fmap_cons. f_equal.
  rewrite <- Hk. reflexivity.
Qed.

(** The traversal of [selectAll_indexed] over the children of an element. *)
Definition indexed_children (sel : Selector) (f : nat -> Own -> Own) :=
  fix go (i : nat) (ks : list Node) : nat * list Node :=
    match ks with
    | [] => (i, [])
    | k :: ks' =>
      let hit := matches sel (own_of k) in
      let '(i2, k') := selectAll_indexed sel f (if hit then S i else i) k in
      let k'' :=
        match k' with
        | Element ko kch => Element (if hit then f i ko else ko) kch
        end in
      let '(i3, ks'') := go i2 ks' in
      (i3, k'' :: ks'')
    end.

Lemma selectAll_indexed_Element sel f i o ch :
  selectAll_indexed sel f i (Element o ch)
  = let '(j, ch') := indexed_children sel f i ch in (j, Element o ch').
Proof. reflexivity. Qed.

(** What [selectAll_indexed] does to the list of owned parts. *)
Fixpoint reindex (sel : Selector) (f : nat -> Own -> Own) (i : nat)
    (l : list Own) : list Own :=
  match l with
  | [] => []
  | o :: l' =>
    if matches sel o then f i o :: reindex sel f (S i) l'
    else o :: reindex sel f i l'
  end.

Definition count_sel (sel : Selector) (l : list Own) : nat :=
  length (filter (fun o => matches sel o = true) l).

Lemma reindex_app sel f i l1 l2 :
  reindex sel f i (l1 ++ l2)
  = reindex sel f i l1 ++ reindex sel f (i + count_sel sel l1) l2.
Proof.
  revert i. induction l1 as [|o l1 IH]; intros i; simpl.
  - unfold count_sel. simpl. by rewrite Nat.add_0_r.
  - unfold count_sel in *. destruct (matches sel o) eqn:Hm.
    + rewrite filter_cons_True by done. simpl. rewrite IH. do 3 f_equal. lia.
    + rewrite filter_cons_False by (rewrite Hm; done). simpl. by rewrite IH.
Qed.

Lemma count_sel_cons sel o l :
  count_sel sel (o :: l)
  = ((if matches sel o then 1 else 0) + count_sel sel l)%nat.
Proof.
  unfold count_sel. destruct (matches sel o) eqn:Hm.
  - by rewrite filter_cons_True.
  - by rewrite filter_cons_False by (rewrite Hm; done).
Qed.

Lemma owns_root_irrelevant (o o' : Own) (ch : list Node) :
  owns (Element o ch) = owns (Element o' ch).
Proof. reflexivity. Qed.

Lemma count_sel_app sel l1 l2 :
  count_sel sel (l1 ++ l2) = (count_sel sel l1 + count_sel sel l2)%nat.
Proof. unfold count_sel. by rewrite filter_app, length_app. Qed.

Lemma selectAll_indexed_spec sel f root : forall i,
  (selectAll_indexed sel f i root).1 = (i + count_sel sel (owns root))%nat
  /\ own_of (selectAll_indexed sel f i root).2 = own_of root
  /\ owns (selectAll_indexed sel f i root).2 = reindex sel f i (owns root).
Proof.
  induction root as [o ch IH] using Node_ind'. intros i.
  rewrite selectAll_indexed_Element, owns_Element.
  assert (Hch : forall i,
    (indexed_children sel f i ch).1
      = (i + count_sel sel (ch ≫= (fun k => own_of k :: owns k)))%nat
    /\ (indexed_children sel f i ch).2 ≫= (fun k => own_of k :: owns k)
       = reindex sel f i (ch ≫= (fun k => own_of k :: owns k))).
  { clear i. induction ch as [|k ch IHch]; intros i.
    - simpl. unfold count_sel. simpl. split; [lia|reflexivity].
    - apply Forall_cons in IH as [Hk IH]. specialize (IHch IH).
      cbn [indexed_children].
      destruct (Hk (if matches sel (own_of k) then S i else i))
        as (H1 & H2 & H3).
      destruct (selectAll_indexed sel f
                  (if matches sel (own_of k) then S i else i) k)
        as [i2 [ko kch]] eqn:Hsel.
      simpl in H1, H2, H3. subst ko.
      destruct (IHch i2) as [H4 H5].
      destruct (indexed_children sel f i2 ch) as [i3 ks''] eqn:Hgo.
      simpl in H4, H5. cbn [fst snd].
      rewrite !bind_cons, count_sel_app, reindex_app, count_sel_cons.
      cbn [own_of reindex].
      rewrite (owns_root_irrelevant _ (own_of k) kch), H3, H5, H4, H1.
      destruct (matches sel (own_of k)) eqn:Hm; simpl.
      + split; [lia|]. do 3 f_equal. lia.
      + split; [lia|]. do 2 f_equal. }
  destruct (Hch i) as [H1 H2].
  destruct (indexed_children sel f i ch) as [j ch'] eqn:Hgo.
  simpl in *. rewrite owns_Element. auto.
Qed.

Lemma selectAll_indexed_no_match sel f root :
  count_sel sel (owns root) = 0%nat ->
  forall i, selectAll_indexed sel f i root = (i, root).
Proof.
  induction root as [o ch IH] using Node_ind'. intros Hnone i.
  rewrite selectAll_indexed_Element. rewrite owns_Element in Hnone.
  assert (Hch : forall i, indexed_children sel f i ch = (i, ch)).
  { clear i. induction ch as [|k ch IHch]; intros i; [reflexivity|].
    apply Forall_cons in IH as [Hk IH].
    rewrite bind_cons, count_sel_app, count_sel_cons in Hnone.
    destruct (matches sel (own_of k)) eqn:Hm; [lia|].
    cbn [indexed_children]. rewrite Hm, (Hk ltac:(lia) i).
    rewrite (IHch IH ltac:(lia) i). by destruct k. }
  by rewrite Hch.
Qed.

(** Without a match below the root, the join changes nothing and every
    datum enters. *)
Lemma data_join_no_match sel data root :
  selected sel root = [] -> data_join sel data root = (root, data).
Proof.
  intros Hnone. unfold data_join.
  rewrite selectAll_indexed_no_match; [reflexivity|].
  unfold count_sel. fold (selected sel root). by rewrite Hnone.
Qed.

Section Related.
Context (R : Own -> Own -> Prop) `{!Reflexive R} `{!Transitive R}.

Lemma each_node_related f l :
  (forall o o', f o = Returns o' -> R o o') ->
  Forall2 R l (each_node f l).1.
Proof.
  intros Hf. induction l as [|o l IH]; simpl; [constructor|].
  destruct (f o) as [o'|e] eqn:Hfo.
  - destruct (each_node f l) as [l'' r]. simpl in *.
    constructor; [by apply Hf|exact IH].
  - simpl. reflexivity.
Qed.

Lemma pass_related f l0 st :
  (forall o o', f o = Returns o' -> R o o') ->
  Forall2 R l0 st.1 -> Forall2 R l0 (pass f st).1.
Proof.
  intros Hf H0. destruct st as [l [[]|e]]; simpl in *; [|exact H0].
  etrans; [exact H0|]. by apply each_node_related.
Qed.

Lemma reindex_related sel (l' : list Own) : forall l i,
  Forall2 R (filter (fun o => matches sel o = true) l) (drop i l') ->
  Forall2 R l (reindex sel (fun j o => default o (l' !! j)) i l).
Proof.
  induction l as [|o l IH]; intros i H; simpl; [constructor|].
  destruct (matches sel o) eqn:Hm.
  - rewrite filter_cons_True in H by done.
    destruct (drop i l') as [|o' rest] eqn:Hdrop; [by inversion H|].
    apply Forall2_cons in H as [Ho H].
    assert (Hi : l' !! i = Some o').
    { rewrite <- (Nat.add_0_r i), <- lookup_drop, Hdrop. reflexivity. }
    assert (Hrest : drop (S i) l' = rest).
    { rewrite (drop_S l' o' i Hi) in Hdrop. congruence. }
    rewrite Hi. simpl. constructor; [exact Ho|]. apply IH. by rewrite Hrest.
  - rewrite filter_cons_False in H by (rewrite Hm; done).
    constructor; [reflexivity|]. by apply IH.
Qed.

End Related.

(** The search of [select_first] through the children of an element. *)
Definition first_children {X : Type} (sel : Selector) (f : Node -> Node * X) :=
  fix go (ks : list Node) : option (list Node * X) :=
    match ks with
    | [] => None
    | k :: ks' =>
      if matches sel (own_of k) then
        let '(k', r) := f k in Some (k' :: ks', r)
      else
        match select_first sel f k with
        | Some (k', r) => Some (k' :: ks', r)
        | None =>
          match go ks' with
          | Some (ks'', r) => Some (k :: ks'', r)
          | None => None
          end
        end
    end.

Lemma select_first_Element {X} sel (f : Node -> Node * X) o ch :
  select_first sel f (Element o ch)
  = match first_children sel f ch with
    | Some (ch', r) => Some (Element o ch', r)
    | None => None
    end.
Proof. reflexivity. Qed.

Section RelatedTrees.
Context (R : Own -> Own -> Prop) `{!Reflexive R} `{!Transitive R}.

Lemma select_first_related {X} sel (f : Node -> Node * X) root :
  (forall k k' r, f k = (k', r) ->
     R (own_of k) (own_of k') /\ Forall2 R (owns k) (owns k')) ->
  forall root' r,
    select_first sel f root = Some (root', r) ->
    own_of root' = own_of root /\ Forall2 R (owns root) (owns root').
Proof.
  intros Hf. induction root as [o ch IH] using Node_ind'. intros root' r.
  rewrite select_first_Element, owns_Element.
  assert (Hch : forall ch' r,
    first_children sel f ch = Some (ch', r) ->
    Forall2 R (ch ≫= (fun k => own_of k :: owns k))
              (ch' ≫= (fun k => own_of k :: owns k))).
  { clear root' r. induction ch as [|k ch IHch]; intros ch' r; [discriminate|].
    apply Forall_cons in IH as [Hk IH]. specialize (IHch IH).
    cbn [first_children].
    destruct (matches sel (own_of k)).
    - destruct (f k) as [k' r'] eqn:Hfk. intros [= <- <-].
      destruct (Hf k k' r' Hfk) as [H1 H2].
      rewrite !bind_cons. apply Forall2_app; [by constructor|reflexivity].
    - destruct (select_first sel f k) as [[k' r']|] eqn:Hsel.
      + intros [= <- <-]. destruct (Hk k' r' eq_refl) as [H1 H2].
        rewrite !bind_cons. apply Forall2_app; [|reflexivity].
        rewrite H1. by constructor.
      + destruct (first_children sel f ch) as [[ks'' r']|] eqn:Hgo; [|discriminate].
        intros [= <- <-]. rewrite !bind_cons.
        apply Forall2_app; [reflexivity|]. by eapply IHch. }
  destruct (first_children sel f ch) as [[ch' r']|] eqn:Hgo; [|discriminate].
  intros [= <- <-]. rewrite owns_Element. split; [reflexivity|].
  by eapply Hch.
Qed.

Lemma selectAll_chain_related sel chain root :
  (forall l, Forall2 R l (chain (l, Returns tt)).1) ->
  own_of (selectAll_chain sel chain root).1 = own_of root
  /\ Forall2 R (owns root) (owns (selectAll_chain sel chain root).1).
Proof.
  intros Hchain. unfold selectAll_chain.
  specialize (Hchain (selected sel root)).
  destruct (chain (selected sel root, Returns tt)) as [l' r]. simpl in *.
  destruct (selectAll_indexed_spec sel
              (fun i o => default o (l' !! i)) root 0%nat) as (_ & H2 & H3).
  split; [exact H2|]. rewrite H3. apply reindex_related; [done..|].
  exact Hchain.
Qed.

End RelatedTrees.

End TreeFacts.

(** ** Visibility of the regions *)

(** The region elements of a canvas, in document order. *)
Definition regions_of (styles : Styles) (canvasSVG : Node) : list Own :=
  selected (ByClass (region styles)) canvasSVG.

(** [aria-hidden="true"] and [aria-hidden="false"]. *)
Definition hidden (o : Own) : Prop :=
  get_attr "aria-hidden" o = Some (AStr "true").
Definition visible (o : Own) : Prop :=
  get_attr "aria-hidden" o = Some (AStr "false").

(** The element is a region of the target [key]. *)
Definition region_of_target (key : string) (o : Own) : bool :=
  attr_is "aria-describedby" ("region_" +:+ key) o.

(** What [translateRegion] leaves alone at once: everything but the
    attributes [x] and [y]. *)
Definition same_but_xy (o o' : Own) : Prop :=
  tagName o' = tagName o /\ classList o' = classList o /\ datum o' = datum o
  /\ forall name, name <> constants.X_AXIS -> name <> constants.Y_AXIS ->
       attributes o' !! name = attributes o !! name.

Section VisibilityFacts.
Context (lang : Lang) (utils : Utils) (styles : Styles) (env : RegionEnv).

#[local] Instance same_but_xy_refl : Reflexive same_but_xy.
Proof. intros o. repeat split. Qed.

#[local] Instance same_but_xy_trans : Transitive same_but_xy.
Proof.
  intros a b c (H1 & H2 & H3 & H4) (K1 & K2 & K3 & K4).
  repeat split; try congruence.
  intros name Hx Hy. rewrite K4, H4 by done. reflexivity.
Qed.

Lemma same_but_xy_set_x (v : AttrVal) (o : Own) :
  same_but_xy o (set_attr constants.X_AXIS v o).
Proof.
  repeat split. intros name Hx Hy. simpl. by rewrite lookup_insert_ne.
Qed.

Lemma same_but_xy_set_y (v : AttrVal) (o : Own) :
  same_but_xy o (set_attr constants.Y_AXIS v o).
Proof.
  repeat split. intros name Hx Hy. simpl. by rewrite lookup_insert_ne.
Qed.

Lemma filter_fmap_commute {A : Type} (P : A -> Prop) `{!forall a, Decision (P a)}
    (f : A -> A) (l : list A) :
  (forall a, P (f a) <-> P a) ->
  filter P (f <$> l) = f <$> filter P l.
Proof.
  intros Hf. induction l as [|a l IH]; [reflexivity|].
  rewrite fmap_cons, !filter_cons.
  destruct (decide (P (f a))) as [Hfa|Hfa], (decide (P a)) as [Ha|Ha];
    rewrite ?fmap_cons, IH; try reflexivity; exfalso.
  - by apply Ha, Hf.
  - by apply Hfa, Hf.
Qed.

(** An edit of attributes keeps the class list, so the regions after a
    [selectAll] edit are the edited regions. *)
Lemma regions_of_selectAll_each (sel : Selector) (f : Own -> Own)
    (canvasSVG : Node) :
  (forall o, classList (f o) = classList o) ->
  regions_of styles (selectAll_each sel f canvasSVG)
  = (fun o => if matches sel o then f o else o) <$> regions_of styles canvasSVG.
Proof.
  intros Hf. unfold regions_of, selected. rewrite owns_selectAll_each.
  apply filter_fmap_commute. intros o. simpl. unfold has_class.
  destruct (matches sel o); [by rewrite Hf|done].
Qed.

Lemma hideAllRegions_hidden (canvasSVG : Node) :
  Forall hidden (regions_of styles (Region.hideAllRegions styles canvasSVG)).
Proof.
  unfold Region.hideAllRegions. rewrite regions_of_selectAll_each by done.
  apply Forall_fmap, Forall_forall. intros o Ho.
  apply list_elem_of_filter in Ho as [Ho _]. simpl in *.
  rewrite Ho. unfold hidden, get_attr. simpl. by rewrite lookup_insert_eq.
Qed.

Lemma related_hidden (l l' : list Own) :
  Forall2 same_but_xy l l' ->
  Forall hidden (filter (fun o => matches (ByClass (region styles)) o = true) l) ->
  Forall hidden (filter (fun o => matches (ByClass (region styles)) o = true) l').
Proof.
  induction 1 as [|o o' l l' (H1 & H2 & H3 & H4) _ IH]; [done|].
  rewrite !filter_cons. simpl. unfold has_class. rewrite H2.
  destruct (decide (bool_decide (region styles ∈ classList o) = true));
    [|exact IH].
  rewrite !Forall_cons. intros [Ho Hl]. split; [|by apply IH].
  unfold hidden, get_attr in *. rewrite H4; done.
Qed.


(** With no or several targets shown, [processRegions] hides every region. *)
Lemma processRegions_hides_all (shownTargets : list string) (canvasSVG : Node) :
  length shownTargets <> 1%nat ->
  Forall hidden
    (regions_of styles (Region.processRegions lang styles shownTargets canvasSVG)).
Proof.
  intros Hlen. unfold Region.processRegions, Region.isSingleTargetDisplayed.
  rewrite bool_decide_eq_false_2 by done. apply hideAllRegions_hidden.
Qed.

(** With one target shown and every region hidden before,
    [processRegions] leaves the regions of that target visible and the
    other regions hidden. *)
Lemma processRegions_shows_single (key : string) (canvasSVG : Node) :
  Forall hidden (regions_of styles canvasSVG) ->
  Forall (fun o => if region_of_target key o then visible o else hidden o)
    (regions_of styles (Region.processRegions lang styles [key] canvasSVG)).
Proof.
  intros Hall. unfold Region.processRegions. simpl.
  unfold Region.toggleRegion. rewrite regions_of_selectAll_each by done.
  apply Forall_fmap. rewrite Forall_forall in Hall. apply Forall_forall.
  intros o Ho. specialize (Hall o Ho).
  apply list_elem_of_filter in Ho as [Ho _]. simpl in Ho.
  unfold region_of_target. simpl. rewrite Ho. simpl.
  unfold hidden, visible, attr_is, get_attr in *.
  destruct (bool_decide
              (attributes o !! "aria-describedby"
               = Some (AStr ("region_" +:+ key)))) eqn:Hd; simpl.
  - rewrite lookup_insert_ne by done. rewrite Hd.
    rewrite lookup_insert_eq, Hall. by rewrite bool_decide_eq_true_2.
  - by rewrite Hd.
Qed.

(** The translation of the regions leaves hidden regions hidden. *)
Lemma translateRegion_related (scale : Scale) (config : Config) (k : Node) :
  own_of (Region.translateRegion lang styles env scale config k).1 = own_of k
  /\ Forall2 same_but_xy (owns k)
       (owns (Region.translateRegion lang styles env scale config k).1).
Proof.
  unfold Region.translateRegion.
  apply (selectAll_chain_related same_but_xy). intros l.
  apply (pass_related same_but_xy).
  { intros o o' Hf. destruct (Region.getRegionHeight _ _ _ _ _ _);
      simpl in Hf; [|discriminate].
    injection Hf as <-. reflexivity. }
  apply (pass_related same_but_xy).
  { intros o o' Hf. destruct (Region.getYAxisRangePosition _ _ _ _ _);
      simpl in Hf; [|discriminate].
    injection Hf as <-. apply same_but_xy_set_y. }
  apply (pass_related same_but_xy); [|reflexivity].
  intros o o' [= <-]. apply same_but_xy_set_x.
Qed.

Lemma translateRegion_related_pair (scale : Scale) (config : Config)
    (k k' : Node) (r : Outcome Error unit) :
  Region.translateRegion lang styles env scale config k = (k', r) ->
  same_but_xy (own_of k) (own_of k') /\ Forall2 same_but_xy (owns k) (owns k').
Proof.
  intros Hk. destruct (translateRegion_related scale config k) as [H1 H2].
  rewrite Hk in H1, H2. simpl in *. rewrite H1. split; [reflexivity|exact H2].
Qed.

Context (lenv : LineEnv).

(** The Line helper that translates the line and its points is taken not
    to show a hidden region. *)
Hypothesis translateLineGraph_keeps_hidden : forall g,
  Forall hidden (regions_of styles (svg g)) ->
  Forall hidden (regions_of styles (svg (translateLineGraph lenv g).1)).

(** With two or more targets shown, the resize of a Line that declares
    regions leaves every region hidden. *)
Lemma Line_resize_hides_all (this : LineObj) (graph : Graph) :
  notEmpty utils (regions (dataTarget this)) = true ->
  (2 <= length (shownTargets (config graph)))%nat ->
  Forall hidden
    (regions_of styles
       (svg (Line.resize lang utils styles env lenv this graph).1)).
Proof.
  intros Hregions Hshown. unfold Line.resize, Region.shouldHideAllRegions.
  rewrite Hregions, bool_decide_eq_true_2 by lia. simpl.
  pose proof (hideAllRegions_hidden (svg graph)) as Hhid.
  set (svg1 := Region.hideAllRegions styles (svg graph)) in *.
  destruct (select_first (ByClass (regionGroup styles))
              (Region.translateRegion lang styles env (scale graph)
                 (config graph)) svg1) as [[svg' r]|] eqn:Hsel.
  - assert (Hsvg' : Forall hidden (regions_of styles svg')).
    { destruct (select_first_related same_but_xy _ _ svg1
                  (translateRegion_related_pair (scale graph) (config graph))
                  svg' r Hsel) as [_ Hrel].
      by apply (related_hidden _ _ Hrel). }
    destruct r as [[]|e]; simpl; [|exact Hsvg'].
    by apply translateLineGraph_keeps_hidden.
  - destruct (translateLineGraph lenv _) eqn:Ht.
    change g with ((g, o).1). rewrite <- Ht.
    by apply translateLineGraph_keeps_hidden.
Qed.


(** With one content loaded, the PairedResult handler sets the regions of
    the clicked target to the target's own state. *)
Lemma Paired_processRegions_single (graphContext : Graph) (config : Config)
    (canvasSVG : Node) (key : string) (c : loc) :
  content graphContext = [c] ->
  Forall (fun o => region_of_target key o = true ->
                   if bool_decide (key ∈ shownTargets config)
                   then visible o else hidden o)
    (regions_of styles
       (PairedResult.processRegions styles graphContext config canvasSVG key)).
Proof.
  intros Hc. unfold PairedResult.processRegions. rewrite Hc. simpl.
  unfold Region.showHideRegion. rewrite regions_of_selectAll_each by done.
  apply Forall_fmap, Forall_forall. intros o Ho.
  apply list_elem_of_filter in Ho as [Ho _]. simpl in *. rewrite Ho. simpl.
  unfold region_of_target, hidden, visible, attr_is, get_attr.
  destruct (bool_decide
              (attributes o !! "aria-describedby"
               = Some (AStr ("region_" +:+ key)))) eqn:Hd; simpl.
  - intros _. rewrite lookup_insert_eq.
    by destruct (bool_decide (key ∈ shownTargets config)).
  - rewrite Hd. discriminate.
Qed.

(** With another number of contents, it hides every region. *)
Lemma Paired_processRegions_hides_all (graphContext : Graph) (config : Config)
    (canvasSVG : Node) (key : string) :
  length (content graphContext) <> 1%nat ->
  Forall hidden
    (regions_of styles
       (PairedResult.processRegions styles graphContext config canvasSVG key)).
Proof.
  intros Hlen. unfold PairedResult.processRegions,
    Region.isSingleTargetDisplayed.
  rewrite bool_decide_eq_false_2 by done. apply hideAllRegions_hidden.
Qed.

(** C3, as the code has it.  With two or more targets shown,
    [processRegions] of [region.js] marks every region [aria-hidden=true],
    and so does the resize of a Line that declares regions.  With exactly
    one target shown and the regions hidden before, [processRegions] leaves
    the regions of that target visible and the others hidden.  The
    PairedResult handler goes by the number of loaded contents: with one
    content the regions of the clicked target are visible exactly when the
    target is shown, with another number every region is hidden. *)
Theorem region_visibility_follows_targets :
  (forall (shownTargets : list string) (canvasSVG : Node),
     (2 <= length shownTargets)%nat ->
     Forall hidden
       (regions_of styles
          (Region.processRegions lang styles shownTargets canvasSVG)))
  /\ (forall (this : LineObj) (graph : Graph),
        notEmpty utils (regions (dataTarget this)) = true ->
        (2 <= length (shownTargets (config graph)))%nat ->
        Forall hidden
          (regions_of styles
             (svg (Line.resize lang utils styles env lenv this graph).1)))
  /\ (forall (key : string) (canvasSVG : Node),
        Forall hidden (regions_of styles canvasSVG) ->
        Forall (fun o => if region_of_target key o then visible o else hidden o)
          (regions_of styles
             (Region.processRegions lang styles [key] canvasSVG)))
  /\ (forall (graphContext : Graph) (config : Config) (canvasSVG : Node)
             (key : string) (c : loc),
        content graphContext = [c] ->
        Forall (fun o => region_of_target key o = true ->
                         if bool_decide (key ∈ shownTargets config)
                         then visible o else hidden o)
          (regions_of styles
             (PairedResult.processRegions styles graphContext config
                canvasSVG key)))
  /\ (forall (graphContext : Graph) (config : Config) (canvasSVG : Node)
             (key : string),
        length (content graphContext) <> 1%nat ->
        Forall hidden
          (regions_of styles
             (PairedResult.processRegions styles graphContext config
                canvasSVG key))).
Proof.
  split; [|split; [|split; [|split]]].
  - intros shownTargets canvasSVG Hlen. apply processRegions_hides_all. lia.
  - apply Line_resize_hides_all.
  - apply processRegions_shows_single.
  - apply Paired_processRegions_single.
  - apply Paired_processRegions_hides_all.
Qed.

End VisibilityFacts.

(** A canvas for concrete runs: the region group under the root, holding
    the given region elements. *)
Definition sample_canvas (regionRects : list Own) : Node :=
  Element (new_element "svg" JUndefined)
    [Element (add_class (regionGroup std_styles) (new_element "g" JUndefined))
       (leaf <$> regionRects)].

(** A region element as [createRegion] leaves it, with the given
    [aria-hidden]. *)
Definition sample_region (describedby : string) (ariaHidden : bool) : Own :=
  set_attr "aria-hidden" (attr_of_bool ariaHidden)
    (set_attr "aria-describedby" (AStr describedby)
       (add_class (region std_styles) (new_element "rect" JUndefined))).

(** A Line helper environment whose helpers do nothing. *)
Definition idle_line_env : LineEnv := {|
  processDataPoints g this := (g, Returns (line_config this));
  draw g _ := (g, Returns tt);
  prepareLegendItems g _ := (g, Returns tt);
  prepareLabelShapeItem g _ := (g, Returns tt);
  translateLineGraph g := (g, Returns tt)
|}.

(** A configuration for concrete runs, with the given shown targets. *)
Definition sample_axis : AxisConfig :=
  {| type := TIME_SERIES; domain := JUndefined; ticks := JUndefined;
     orientation := JUndefined; rangeRounding := JUndefined;
     dataRange := None; trackList := []; trackCount := 0 |}.

Definition sample_config (shown : list string) : Config :=
  {| axis := {| axis_x := sample_axis; axis_y := sample_axis;
                axis_y2 := sample_axis |};
     canvasWidth := 500; height := 200;
     padding := {| padding_top := 10; padding_bottom := 5;
                   padding_left := 30; padding_right := 50;
                   hasCustomPadding := false |};
     axisSizes_y := 0; axisLabelWidths_y := 0;
     shownTargets := shown; dateline := JArr []; others := [] |}.

(** A Graph for concrete runs, with the given contents and canvas. *)
Definition sample_graph (shown : list string) (contents : list loc)
    (canvasSVG : Node) : Graph :=
  {| config := sample_config shown; scale := ∅; svg := canvasSVG;
     legendSVG := None; content := contents; contentTargets := contents;
     containerWidth := 500 |}.

(** C3 at two shown targets over a canvas with one visible region. *)
Lemma region_visibility_follows_targets_witness :
  Forall hidden
    (regions_of std_styles
       (Region.processRegions std_lang std_styles ["uid_1"; "uid_2"]
          (sample_canvas [sample_region "region_uid_1" false]))).
Proof.
  apply (region_visibility_follows_targets std_lang std_utils std_styles
           std_region_env idle_line_env (fun g H => H)).
  simpl. lia.
Defined.

(** C3 as stated fails twice.  With the single target [uid_1] shown and
    its region visible, [processRegions] hides the region.  With one
    PairedResult content, whose targets [uid_1_high] and [uid_1_low] are
    both shown after a click on [uid_1_mid], the handler leaves the regions
    of the two shown targets visible. *)
Lemma region_visibility_counterexample :
  get_attr "aria-hidden" <$>
    regions_of std_styles
      (Region.processRegions std_lang std_styles ["uid_1"]
         (sample_canvas [sample_region "region_uid_1" false]))
  = [Some (AStr "true")]
  /\ get_attr "aria-hidden" <$>
       regions_of std_styles
         (PairedResult.processRegions std_styles
            (sample_graph ["uid_1_high"; "uid_1_low"] [0%nat] (sample_canvas []))
            (sample_config ["uid_1_high"; "uid_1_low"])
            (sample_canvas [sample_region "region_uid_1_high" false;
                            sample_region "region_uid_1_low" false;
                            sample_region "region_uid_1_mid" false])
            "uid_1_mid")
     = [Some (AStr "false"); Some (AStr "false"); Some (AStr "true")].
Proof. split; vm_compute; reflexivity. Qed.

(** ** Validation inside [createRegion] *)

Section CreateRegionFacts.
Context (lang : Lang) (utils : Utils) (styles : Styles) (env : RegionEnv).

(** A pass of [each] with a validation: the elements are left as they are,
    and the first element whose datum is rejected stops the pass. *)
Lemma each_node_validate_throws (validate : JsVal -> Outcome Error unit)
    (pre post : list Own) (o : Own) (e : Error) :
  Forall (fun p => validate (datum p) = Returns tt) pre ->
  validate (datum o) = Throws e ->
  each_node (fun o => validate (datum o);; mret o) (pre ++ o :: post)
  = (pre ++ o :: post, Throws e).
Proof.
  intros Hpre Ho. induction pre as [|p pre IH]; simpl.
  - by rewrite Ho.
  - apply Forall_cons in Hpre as [Hp Hpre]. rewrite Hp. simpl.
    by rewrite (IH Hpre).
Qed.

Lemma pass_first (f : Own -> Outcome Error Own) (l : list Own) :
  pass f (l, Returns tt) = each_node f l.
Proof. reflexivity. Qed.

Hypothesis isEmpty_undefined : isEmpty utils JUndefined = true.
Hypothesis isEmpty_number : forall z, isEmpty utils (JNum (Fin z)) = false.
Hypothesis isEmpty_object :
  forall f fs, isEmpty utils (JObj (f :: fs)) = false.
Hypothesis isEmpty_string :
  forall s, s <> "" -> isEmpty utils (JStr s) = false.
Hypothesis isNumber_number : forall z, isNumber utils (JNum (Fin z)) = true.

(** C2, as the code has it.  Let the region group hold no [g] element, so
    that every region of the list enters, and let the first region of the
    list that fails validation have two finite bounds with the start above
    the end, on a valid axis.  Then [createRegion] throws the
    start-more-than-end error, and when it does the group holds one new
    [rect] per region of the list, each still without class and
    attributes: the elements are appended before the regions are
    validated. *)
Theorem createRegion_validates_after_append
    (scale : Scale) (config : Config) (regionGroupSVG : Node)
    (uniqueKey targetAxis : string)
    (pre post : list JsVal) (fields : list (string * JsVal)) (s e : Z) :
  selected (ByTag "g") regionGroupSVG = [] ->
  Forall (fun r => Region.validateRegion lang utils r targetAxis = Returns tt)
    pre ->
  axis_ok fields targetAxis ->
  assoc "start" fields = JNum (Fin s) ->
  assoc "end" fields = JNum (Fin e) ->
  s > e ->
  Region.createRegion lang utils styles env scale config regionGroupSVG
    (pre ++ JObj fields :: post) uniqueKey targetAxis
  = (append_children
       (leaf <$> (new_element "rect" <$> (pre ++ JObj fields :: post)))
       regionGroupSVG,
     Throws THROW_MSG_REGION_START_MORE_END).
Proof.
  intros Hnog Hpre Hax Hs He Hgt. unfold Region.createRegion.
  rewrite (data_join_no_match _ _ _ Hnog).
  rewrite fmap_app, fmap_cons. rewrite pass_first.
  rewrite (each_node_validate_throws
             (fun d => Region.validateRegion lang utils d targetAxis)
             (new_element "rect" <$> pre) (new_element "rect" <$> post)
             (new_element "rect" (JObj fields))
             THROW_MSG_REGION_START_MORE_END).
  - reflexivity.
  - apply Forall_fmap. exact Hpre.
  - simpl. by apply (validateRegion_start_more_end lang utils) with s e.
Qed.

End CreateRegionFacts.

(** C2 on the region [{start: 10, end: 5}] of the spec's scenario. *)
Lemma createRegion_validates_after_append_witness :
  Region.createRegion std_lang std_utils std_styles std_region_env ∅
    (sample_config []) (leaf (new_element "g" JUndefined))
    [JObj [("start", JNum (Fin 10)); ("end", JNum (Fin 5))]]
    "region_uid_1" "y"
  = (Element (new_element "g" JUndefined)
       [leaf (new_element "rect"
                (JObj [("start", JNum (Fin 10)); ("end", JNum (Fin 5))]))],
     Throws THROW_MSG_REGION_START_MORE_END).
Proof.
  apply (createRegion_validates_after_append std_lang std_utils std_styles
           std_region_env eq_refl (fun _ => eq_refl) (fun _ _ => eq_refl)
           std_isEmpty_string (fun _ => eq_refl) ∅ (sample_config [])
           (leaf (new_element "g" JUndefined)) "region_uid_1" "y" [] []
           [("start", JNum (Fin 10)); ("end", JNum (Fin 5))] 10 5).
  - reflexivity.
  - apply Forall_nil_2.
  - left. split; reflexivity.
  - reflexivity.
  - reflexivity.
  - lia.
Defined.

(** C2 as stated fails: when the error of the region [{start: 10, end: 5}]
    is raised, the region group of the canvas already holds the [rect] of
    the region. *)
Lemma createRegion_appends_before_validation_counterexample :
  let result :=
    Region.createRegion std_lang std_utils std_styles std_region_env ∅
      (sample_config [])
      (Element (add_class (regionGroup std_styles) (new_element "g" JUndefined)) [])
      [JObj [("start", JNum (Fin 10)); ("end", JNum (Fin 5))]]
      "region_uid_1" "y" in
  result.2 = Throws THROW_MSG_REGION_START_MORE_END
  /\ tagName <$> owns result.1 = ["rect"].
Proof. split; vm_compute; reflexivity. Qed.

(** ** Loading a Gantt track at an index below zero *)

Section GanttFacts.
Context (lang : Lang) (utils : Utils) (genv : Gantt.GanttEnv).

Hypothesis isEmpty_number : forall z, isEmpty utils (JNum (Fin z)) = false.
Hypothesis isEmpty_object :
  forall f fs, isEmpty utils (JObj (f :: fs)) = false.

(** C8.  For a track content that passes [validateContent] and whose
    [loadAtIndex] is a number below zero, [prepareLoadAtIndex] throws the
    invalid-load-index error, and the scale and the configuration, with its
    track list, are as they were before the call. *)
Theorem prepareLoadAtIndex_rejects_negative_index
    (scale : Scale) (config : Config) (fields : list (string * JsVal))
    (length : JsVal) (z : Z) :
  Gantt.validateContent genv (JObj fields) = Returns tt ->
  assoc "loadAtIndex" fields = JNum (Fin z) ->
  z < 0 ->
  Gantt.prepareLoadAtIndex lang utils genv scale config (JObj fields) length
  = (scale, config, Throws THROW_MSG_INVALID_LOAD_CONTENT_AT_INDEX).
Proof.
  intros Hvalid Hindex Hneg. unfold Gantt.prepareLoadAtIndex, notEmpty.
  rewrite Hvalid.
  assert (Hobj : isEmpty utils (JObj fields) = false).
  { destruct fields as [|f fs]; [discriminate|apply isEmpty_object]. }
  rewrite Hobj. simpl. rewrite Hindex, isEmpty_number. simpl.
  by rewrite bool_decide_eq_true_2 by lia.
Qed.

End GanttFacts.

(** C8 on a track with [loadAtIndex: -1], the track list not being empty. *)
Lemma prepareLoadAtIndex_rejects_negative_index_witness :
  let tracks := [("track 1", {| trackHeight := JNum (Fin 41);
                                trackLabel := JStr "Track 1" |})] in
  let config := Gantt.set_trackList tracks (sample_config []) in
  Gantt.prepareLoadAtIndex std_lang std_utils Gantt.std_gantt_env ∅ config
    (JObj [("key", JStr "track 2");
           ("trackLabel", JObj [("display", JStr "Track 2")]);
           ("loadAtIndex", JNum (Fin (-1)))])
    (JNum (Fin 1))
  = (∅, config, Throws THROW_MSG_INVALID_LOAD_CONTENT_AT_INDEX).
Proof.
  intros tracks config.
  apply (prepareLoadAtIndex_rejects_negative_index std_lang std_utils
           Gantt.std_gantt_env (fun _ => eq_refl) (fun _ _ => eq_refl)
           ∅ config _ (JNum (Fin 1)) (-1)).
  - reflexivity.
  - reflexivity.
  - lia.
Defined.

(** The same content with [loadAtIndex: 0] is inserted in front; the x
    domain of this configuration is not an array, so [scaleGraph] throws
    after the track has been put into the track list. *)
Example prepareLoadAtIndex_at_zero :
  let tracks := [("track 1", {| trackHeight := JNum (Fin 41);
                                trackLabel := JStr "Track 1" |})] in
  let config := Gantt.set_trackList tracks (sample_config []) in
  let '(_, config', r) :=
    Gantt.prepareLoadAtIndex std_lang std_utils Gantt.std_gantt_env ∅ config
      (JObj [("key", JStr "track 2");
             ("trackLabel", JObj [("display", JStr "Track 2")]);
             ("loadAtIndex", JNum (Fin 0))])
      (JNum (Fin 1)) in
  fst <$> trackList (axis_y (axis config')) = ["track 2"; "track 1"]
  /\ r = Throws TypeError.
Proof. split; vm_compute; reflexivity. Qed.


(** ** The Graph controller *)

Section GraphControlFacts.
Context {Store : Type} (lang : Lang) (utils : Utils) (styles : Styles)
  (ops : @GraphControl.ContentOps Store) (genv : @GraphControl.GraphEnv Store).

Lemma indexOf_absent (arr : list loc) (c : loc) :
  c ∉ arr -> GraphControl.indexOf arr c = -1.
Proof.
  intros Hc. unfold GraphControl.indexOf.
  destruct (list_find (fun r => r = c) arr) as [[i r]|] eqn:Hfind; [|done].
  apply list_find_Some in Hfind as (Hi & -> & _).
  exfalso. apply Hc. by eapply list_elem_of_lookup_2.
Qed.

Lemma indexOf_present (arr : list loc) (c : loc) :
  c ∈ arr -> 0 <= GraphControl.indexOf arr c.
Proof.
  intros Hc. unfold GraphControl.indexOf.
  destruct (list_find (fun r => r = c) arr) as [[i r]|] eqn:Hfind; [lia|].
  apply list_find_None in Hfind. rewrite Forall_forall in Hfind.
  by destruct (Hfind c Hc).
Qed.

(** C1.  For every state of the Graph and of its contents and every
    content [c] that is not in the Graph's content list,
    [unloadContent(c)] throws the invalid-object error and leaves the
    state as it was: the Graph instance, with its content list, its
    [contentTargets] list and its canvas, the content objects, and the log
    of calls, to which no call of a collaborator has been added. *)
Theorem unloadContent_rejects_unknown_content
    (c : loc) (g : Graph) (st : Store) (log : list GraphControl.Call) :
  c ∉ content g ->
  GraphControl.unloadContent ops genv c (g, st, log)
  = ((g, st, log), Throws THROW_MSG_INVALID_OBJECT_PROVIDED).
Proof.
  intros Hc. unfold GraphControl.unloadContent.
  unfold mbind, GraphControl.M_bind, GraphControl.get_graph.
  rewrite (indexOf_absent _ _ Hc). reflexivity.
Qed.

(** A collaborator that leaves the content list of the Graph alone. *)
Definition keeps_content (op : @GraphControl.Op Store) : Prop :=
  forall g st, content (op g st).1.1 = content g.

#[local] Instance JsVal_inhabited : Inhabited JsVal := populate JUndefined.
#[local] Existing Instance GraphControl.M_bind.
#[local] Existing Instance GraphControl.M_ret.

(** A step follows a plan [P] when, from every state, the calls it adds to
    the log are a prefix of a call list the plan allows for the content
    list it starts from, and are the whole list, with the content list the
    plan gives, when the step returns. *)
Definition follows {A : Type} (m : @GraphControl.M Store A)
    (P : list loc -> list GraphControl.Call -> list loc -> Prop) : Prop :=
  forall g st log,
    exists calls full cs',
      (m (g, st, log)).1.2 = log ++ calls
      /\ P (content g) full cs'
      /\ calls `prefix_of` full
      /\ (forall a, (m (g, st, log)).2 = Returns a ->
            calls = full /\ content (m (g, st, log)).1.1.1 = cs').

Lemma follows_weaken {A} (m : @GraphControl.M Store A) P P' :
  follows m P -> (forall cs full cs', P cs full cs' -> P' cs full cs') ->
  follows m P'.
Proof.
  intros Hm HP g st log.
  destruct (Hm g st log) as (calls & full & cs' & H1 & H2 & H3 & H4).
  exists calls, full, cs'. split; [exact H1|]. split; [by apply HP|].
  split; [exact H3|exact H4].
Qed.

Lemma follows_bind {A B} `{!Inhabited A} (m : @GraphControl.M Store A)
    (k : A -> @GraphControl.M Store B) P1 P2 :
  follows m P1 -> (forall a, follows (k a) P2) ->
  follows (m ≫= k)
    (fun cs full cs' =>
       exists f1 f2 mid, P1 cs f1 mid /\ P2 mid f2 cs' /\ full = f1 ++ f2).
Proof.
  intros Hm Hk g st log.
  destruct (Hm g st log) as (calls1 & full1 & mid & Hlog1 & HP1 & Hpre1 & Hret1).
  unfold mbind, GraphControl.M_bind.
  destruct (m (g, st, log)) as [[[g1 st1] log1] [a|e]] eqn:Hrun; simpl in *.
  - destruct (Hret1 a eq_refl) as [-> <-].
    destruct (Hk a g1 st1 log1) as (calls2 & full2 & cs' & Hlog2 & HP2 & Hpre2 & Hret2).
    exists (full1 ++ calls2), (full1 ++ full2), cs'.
    split; [by rewrite Hlog2, Hlog1, app_assoc|].
    split; [by exists full1, full2, (content g1)|].
    split; [by apply prefix_app|].
    intros b Hb. destruct (Hret2 b Hb) as [-> Hc]. done.
  - destruct (Hk inhabitant (GraphControl.set_content mid [] g) st log)
      as (_ & full2 & cs' & _ & HP2 & _ & _).
    exists calls1, (full1 ++ full2), cs'.
    split; [done|]. split; [by exists full1, full2, mid|].
    split; [by apply prefix_app_r|]. discriminate.
Qed.

Lemma follows_invoke (c : GraphControl.Call) (op : GraphControl.Op) :
  keeps_content op ->
  follows (GraphControl.invoke c op) (fun cs full cs' => full = [c] /\ cs' = cs).
Proof.
  intros Hop g st log. exists [c], [c], (content g).
  unfold GraphControl.invoke. specialize (Hop g st).
  destruct (op g st) as [[g' st'] r]. simpl in *.
  split; [reflexivity|]. split; [done|]. split; [reflexivity|]. done.
Qed.

Lemma follows_note (c : GraphControl.Call) :
  follows (GraphControl.note c) (fun cs full cs' => full = [c] /\ cs' = cs).
Proof.
  intros g st log. exists [c], [c], (content g). simpl.
  split; [reflexivity|]. split; [done|]. split; [reflexivity|]. done.
Qed.

Lemma follows_silent {A} (m : @GraphControl.M Store A) :
  (forall w, (m w).1 = w) ->
  follows m (fun cs full cs' => full = [] /\ cs' = cs).
Proof.
  intros Hm g st log. exists [], [], (content g).
  rewrite Hm. simpl. rewrite app_nil_r.
  split; [reflexivity|]. split; [done|]. split; [reflexivity|]. done.
Qed.

(** A step that reads the state and cannot throw hands what it read to
    the rest, which runs in the same state. *)
Lemma follows_read {A B} (m : @GraphControl.M Store A)
    (k : A -> @GraphControl.M Store B) P :
  (forall w, exists a, m w = (w, Returns a)) ->
  (forall g st log a, m (g, st, log) = ((g, st, log), Returns a) ->
     exists calls full cs',
       (k a (g, st, log)).1.2 = log ++ calls
       /\ P (content g) full cs'
       /\ calls `prefix_of` full
       /\ (forall b, (k a (g, st, log)).2 = Returns b ->
             calls = full /\ content (k a (g, st, log)).1.1.1 = cs')) ->
  follows (m ≫= k) P.
Proof.
  intros Hm Hk g st log. destruct (Hm (g, st, log)) as [a Ha].
  specialize (Hk g st log a Ha).
  unfold mbind, GraphControl.M_bind. rewrite Ha. exact Hk.
Qed.

Lemma follows_read_uniform {A B} (m : @GraphControl.M Store A)
    (k : A -> @GraphControl.M Store B) P :
  (forall w, exists a, m w = (w, Returns a)) ->
  (forall a, follows (k a) P) ->
  follows (m ≫= k) P.
Proof.
  intros Hm Hk. apply follows_read; [exact Hm|].
  intros g st log a _. apply Hk.
Qed.

Lemma follows_forEach {A} (f : A -> @GraphControl.M Store unit)
    (F : A -> GraphControl.Call)
    (arr : list A) :
  (forall a, follows (f a) (fun cs full cs' => full = [F a] /\ cs' = cs)) ->
  follows (GraphControl.forEach f arr)
    (fun cs full cs' => full = F <$> arr /\ cs' = cs).
Proof.
  intros Hf. induction arr as [|a arr IH]; simpl.
  - apply follows_silent. done.
  - eapply follows_weaken.
    + apply (follows_bind (f a) (fun _ => GraphControl.forEach f arr));
        [apply Hf|intros _; apply IH].
    + intros cs full cs' (f1 & f2 & mid & [-> ->] & [-> ->] & ->). done.
Qed.

(** The collaborators of the controller are not among the sources; what is
    assumed of them is that none changes the content list of the Graph. *)
Hypothesis validateContent_keeps :
  forall c, keeps_content (GraphControl.validateContent genv c).
Hypothesis setAxisPadding_keeps :
  forall c, keeps_content (GraphControl.setAxisPadding genv c).
Hypothesis getAxesDataRange_keeps :
  forall c a, keeps_content (GraphControl.getAxesDataRange genv c a).
Hypothesis updateAxesDomain_keeps :
  forall c, keeps_content (GraphControl.updateAxesDomain genv c).
Hypothesis scaleGraph_keeps : keeps_content (GraphControl.scaleGraph genv).
Hypothesis translateGraph_keeps :
  keeps_content (GraphControl.translateGraph genv).
Hypothesis createDateline_keeps :
  keeps_content (GraphControl.createDateline genv).
Hypothesis content_load_keeps :
  forall c, keeps_content (GraphControl.content_load ops c).
Hypothesis content_resize_keeps :
  forall c, keeps_content (GraphControl.content_resize ops c).

(** [resize()] sets the canvas width, scales and translates the Graph, and
    resizes every registered content in list order. *)
Lemma resize_follows :
  follows (GraphControl.resize ops genv)
    (fun cs full cs' =>
       full = [GraphControl.CallSetCanvasWidth; GraphControl.CallScaleGraph;
               GraphControl.CallTranslateGraph]
              ++ (GraphControl.CallContentResize <$> cs)
       /\ cs' = cs).
Proof.
  unfold GraphControl.resize.
  eapply follows_weaken.
  - apply follows_bind; [apply follows_invoke; by intros g st|]. intros _.
    apply follows_bind; [by apply follows_invoke|]. intros _.
    apply follows_bind; [by apply follows_invoke|]. intros _.
    apply (follows_read _ _
             (fun cs full cs' =>
                full = GraphControl.CallContentResize <$> cs /\ cs' = cs)).
    + intros [[g st] log]. by exists g.
    + intros g st log a [= <-].
      apply (follows_forEach _ GraphControl.CallContentResize (content g)).
      intros c. by apply follows_invoke.
  - intros cs full cs' (f1 & f2 & mid & [-> ->] & H). 
    destruct H as ((f3 & f4 & mid2 & [-> ->] & H) & ->).
    destruct H as ((f5 & f6 & mid3 & [-> ->] & [-> ->] & ->) & ->).
    done.
Qed.

(** The calls of [redrawDatelineContent]: none when no dateline content is
    on the canvas, otherwise its removal and the drawing of the datelines. *)
Definition redraw_calls (rs : list GraphControl.Call) : Prop :=
  rs = []
  \/ rs = [GraphControl.CallRemoveDatelineContent;
           GraphControl.CallCreateDateline].

Lemma redrawDatelineContent_follows :
  follows (GraphControl.redrawDatelineContent styles genv)
    (fun cs full cs' => redraw_calls full /\ cs' = cs).
Proof.
  unfold GraphControl.redrawDatelineContent.
  apply follows_read_uniform; [intros [[g st] log]; by exists g|].
  intros g. destruct (negb _).
  - eapply follows_weaken.
    + eapply follows_bind; [by apply follows_invoke|]. intros _.
      by apply follows_invoke.
    + intros cs full cs' (f1 & f2 & mid & [-> ->] & [-> ->] & ->).
      split; [by right|done].
  - eapply follows_weaken; [by apply follows_silent|].
    intros cs full cs' [-> ->]. split; [by left|done].
Qed.

(** The calls of [loadContent(c)] up to the update of the axis domains:
    [modified] is what the test of [isRangeModified] gave. *)
Definition calls_to_update (c : loc) (modified : bool)
    : list GraphControl.Call :=
  [GraphControl.CallValidateContent c; GraphControl.CallSetAxisPadding c;
   GraphControl.CallGetAxesDataRange c; GraphControl.SawRangeModified modified]
  ++ (if modified then [GraphControl.CallUpdateAxesDomain c] else []).

(** The calls of [loadContent(c)] after the update of the axis domains:
    [present] tells whether a dateline is configured on a time-series X
    axis, [redraw] are the calls of [redrawDatelineContent], [registered]
    the contents that are resized. *)
Definition calls_after_update (c : loc) (present : bool)
    (redraw : list GraphControl.Call) (registered : list loc)
    : list GraphControl.Call :=
  [GraphControl.CallContentLoad c;
   GraphControl.SawDatelineOnTimeSeries present]
  ++ (if present then redraw else [])
  ++ [GraphControl.CallSetCanvasWidth; GraphControl.CallScaleGraph;
      GraphControl.CallTranslateGraph]
  ++ (GraphControl.CallContentResize <$> registered).

(** The axis whose data range [isRangeModified(config, yAxis)] reads:
    [yAxis], and [constants.Y_AXIS] when it is [undefined]. *)
Definition range_axis (yAxis : JsVal) : string :=
  ToPropertyKey lang
    (match yAxis with JUndefined => JStr constants.Y_AXIS | _ => yAxis end).

(** The test [loadContent] makes before it redraws the dateline content:
    [utils.notEmpty(config.dateline) && config.axis.x.type ===
    AXIS_TYPE.TIME_SERIES]. *)
Definition dateline_on_time_series (g : Graph) : bool :=
  notEmpty utils (dateline (config g))
  && bool_decide (type (axis_x (axis (config g))) = TIME_SERIES).

(** The calls of [redrawDatelineContent] on a Graph: none when its canvas
    holds no dateline content. *)
Definition redraw_of (g : Graph) : list GraphControl.Call :=
  if select_empty (ByClass (datelineContent styles)) (svg g) then []
  else [GraphControl.CallRemoveDatelineContent;
        GraphControl.CallCreateDateline].

(** A collaborator that returns from every state. *)
Definition always_returns (op : @GraphControl.Op Store) : Prop :=
  forall g st, (op g st).2 = Returns tt.

(** What [loadContent(c)] does after the update of the axis domains. *)
Definition after_update (c : loc) : @GraphControl.M Store unit :=
  GraphControl.invoke (GraphControl.CallContentLoad c)
    (GraphControl.content_load ops c);;
  g ← GraphControl.get_graph;
  GraphControl.note
    (GraphControl.SawDatelineOnTimeSeries (dateline_on_time_series g));;
  (if dateline_on_time_series g
   then GraphControl.redrawDatelineContent styles genv else mret tt);;
  GraphControl.resize ops genv.

Lemma after_update_follows (c : loc) :
  follows (after_update c)
    (fun cs full cs' =>
       exists present redraw,
         redraw_calls redraw
         /\ full = calls_after_update c present redraw cs
         /\ cs' = cs).
Proof.
  unfold after_update. eapply follows_weaken.
  - eapply follows_bind; [by apply follows_invoke|]. intros _.
    apply (follows_read_uniform _ _
             (fun cs full cs' =>
                exists present redraw,
                  redraw_calls redraw
                  /\ full = [GraphControl.SawDatelineOnTimeSeries present]
                            ++ (if present then redraw else [])
                            ++ [GraphControl.CallSetCanvasWidth;
                                GraphControl.CallScaleGraph;
                                GraphControl.CallTranslateGraph]
                            ++ (GraphControl.CallContentResize <$> cs)
                  /\ cs' = cs));
      [intros [[g st] log]; by exists g|].
    intros g2. set (present := dateline_on_time_series g2).
    eapply follows_weaken.
    + eapply follows_bind; [apply follows_note|]. intros _.
      eapply follows_bind with
        (P1 := fun cs full cs' =>
                 (exists redraw, redraw_calls redraw
                    /\ full = if present then redraw else [])
                 /\ cs' = cs).
      { destruct present.
        - eapply follows_weaken; [apply redrawDatelineContent_follows|].
          intros cs full cs' [H ->]. split; [by exists full|done].
        - eapply follows_weaken; [by apply follows_silent|].
          intros cs full cs' [-> ->]. split; [|done].
          exists []. split; [by left|done]. }
      intros _. apply resize_follows.
    + intros cs full cs' (f1 & f2 & mid & [-> ->] & H & ->).
      destruct H as (f3 & f4 & mid' & [(rs & Hrs & ->) ->] & [-> ->] & ->).
      by exists present, rs.
  - intros cs full cs' (f1 & f2 & mid & [-> ->] & H & ->).
    destruct H as (present & rs & Hrs & -> & ->).
    by exists present, rs.
Qed.

(** A call that returns is logged and leaves the state it returned. *)
Lemma invoke_returns (call : GraphControl.Call) (op : GraphControl.Op)
    (g g' : Graph) (st st' : Store) (log : list GraphControl.Call)
    (r : Outcome Error unit) :
  op g st = (g', st', r) ->
  GraphControl.invoke call op (g, st, log) = ((g', st', log ++ [call]), r).
Proof. intros Hop. unfold GraphControl.invoke. by rewrite Hop. Qed.

Lemma forEach_resize_returns (cs : list loc) :
  (forall c', always_returns (GraphControl.content_resize ops c')) ->
  forall g st log,
    exists g' st',
      GraphControl.forEach
        (fun control =>
           GraphControl.invoke (GraphControl.CallContentResize control)
             (GraphControl.content_resize ops control)) cs (g, st, log)
      = ((g', st', log ++ (GraphControl.CallContentResize <$> cs)), Returns tt)
      /\ content g' = content g.
Proof.
  intros Hresize. induction cs as [|c' cs IH]; intros g st log; simpl.
  - exists g, st. by rewrite app_nil_r.
  - unfold mbind, GraphControl.M_bind.
    pose proof (Hresize c' g st) as Hret.
    pose proof (content_resize_keeps c' g st) as Hkeep.
    destruct (GraphControl.content_resize ops c' g st) as [[g1 st1] r] eqn:Hop.
    simpl in Hret, Hkeep. subst r.
    rewrite (invoke_returns _ _ _ _ _ _ _ _ Hop).
    destruct (IH g1 st1 (log ++ [GraphControl.CallContentResize c']))
      as (g' & st' & -> & Hc).
    exists g', st'. rewrite <- app_assoc. simpl. split; [done|congruence].
Qed.

(** [resize()] with collaborators that return. *)
Lemma resize_returns (g : Graph) (st : Store) (log : list GraphControl.Call) :
  always_returns (GraphControl.scaleGraph genv) ->
  always_returns (GraphControl.translateGraph genv) ->
  (forall c', always_returns (GraphControl.content_resize ops c')) ->
  exists g' st',
    GraphControl.resize ops genv (g, st, log)
    = ((g', st',
        log ++ [GraphControl.CallSetCanvasWidth; GraphControl.CallScaleGraph;
                GraphControl.CallTranslateGraph]
            ++ (GraphControl.CallContentResize <$> content g)),
       Returns tt)
    /\ content g' = content g.
Proof.
  intros Hscale Htranslate Hresize. unfold GraphControl.resize.
  unfold mbind at 1, GraphControl.M_bind at 1.
  rewrite (invoke_returns _ _ _ _ _ _ _ _ eq_refl).
  unfold mbind at 1, GraphControl.M_bind at 1.
  set (g1 := GraphControl.set_config _ g).
  pose proof (Hscale g1 st) as Hret1.
  pose proof (scaleGraph_keeps g1 st) as Hkeep1.
  destruct (GraphControl.scaleGraph genv g1 st) as [[g2 st2] r2] eqn:Hop2.
  simpl in Hret1, Hkeep1. subst r2.
  rewrite (invoke_returns _ _ _ _ _ _ _ _ Hop2).
  unfold mbind at 1, GraphControl.M_bind at 1.
  pose proof (Htranslate g2 st2) as Hret2.
  pose proof (translateGraph_keeps g2 st2) as Hkeep2.
  destruct (GraphControl.translateGraph genv g2 st2) as [[g3 st3] r3] eqn:Hop3.
  simpl in Hret2, Hkeep2. subst r3.
  rewrite (invoke_returns _ _ _ _ _ _ _ _ Hop3).
  unfold mbind at 1, GraphControl.M_bind at 1, GraphControl.get_graph.
  destruct (forEach_resize_returns (content g3) Hresize g3 st3
              (((log ++ [GraphControl.CallSetCanvasWidth])
                  ++ [GraphControl.CallScaleGraph])
                 ++ [GraphControl.CallTranslateGraph]))
    as (g' & st' & -> & Hc).
  exists g', st'.
  assert (Hcs : content g3 = content g) by (rewrite Hkeep2, Hkeep1; done).
  rewrite Hcs. rewrite <- !app_assoc. simpl. split; [done|congruence].
Qed.

(** [redrawDatelineContent] with a [createDateline] that returns. *)
Lemma redrawDatelineContent_returns (g : Graph) (st : Store)
    (log : list GraphControl.Call) :
  always_returns (GraphControl.createDateline genv) ->
  exists g' st',
    GraphControl.redrawDatelineContent styles genv (g, st, log)
    = ((g', st', log ++ redraw_of g), Returns tt)
    /\ content g' = content g.
Proof.
  intros Hcreate. unfold GraphControl.redrawDatelineContent, redraw_of.
  unfold mbind at 1, GraphControl.M_bind at 1, GraphControl.get_graph.
  destruct (select_empty (ByClass (datelineContent styles)) (svg g)); simpl.
  - exists g, st. by rewrite app_nil_r.
  - unfold mbind, GraphControl.M_bind.
    rewrite (invoke_returns _ _ _ _ _ _ _ _ eq_refl).
    set (g1 := Line.set_svg _ g).
    pose proof (Hcreate g1 st) as Hret.
    pose proof (createDateline_keeps g1 st) as Hkeep.
    destruct (GraphControl.createDateline genv g1 st) as [[g2 st2] r] eqn:Hop.
    simpl in Hret, Hkeep. subst r.
    rewrite (invoke_returns _ _ _ _ _ _ _ _ Hop).
    exists g2, st2. rewrite <- app_assoc. split; [done|exact Hkeep].
Qed.

(** [loadContent(c)] after the update of the axis domains, when
    [content.load] and the collaborators after it return. *)
Lemma after_update_returns (c : loc) (g g' : Graph) (st st' : Store)
    (log : list GraphControl.Call) :
  GraphControl.content_load ops c g st = (g', st', Returns tt) ->
  always_returns (GraphControl.createDateline genv) ->
  always_returns (GraphControl.scaleGraph genv) ->
  always_returns (GraphControl.translateGraph genv) ->
  (forall c', always_returns (GraphControl.content_resize ops c')) ->
  exists gf stf,
    after_update c (g, st, log)
    = ((gf, stf,
        log ++ calls_after_update c (dateline_on_time_series g') (redraw_of g')
                 (content g)),
       Returns tt)
    /\ content gf = content g.
Proof.
  intros Hload Hcreate Hscale Htranslate Hresize. unfold after_update.
  unfold mbind at 1, GraphControl.M_bind at 1.
  rewrite (invoke_returns _ _ _ _ _ _ _ _ Hload).
  pose proof (content_load_keeps c g st) as Hkeep.
  rewrite Hload in Hkeep. simpl in Hkeep.
  unfold mbind at 1, GraphControl.M_bind at 1, GraphControl.get_graph.
  unfold mbind at 1, GraphControl.M_bind at 1, GraphControl.note.
  unfold mbind at 1, GraphControl.M_bind at 1.
  unfold calls_after_update.
  destruct (dateline_on_time_series g') eqn:Hpresent.
  - destruct (redrawDatelineContent_returns g' st'
                ((log ++ [GraphControl.CallContentLoad c])
                   ++ [GraphControl.SawDatelineOnTimeSeries true]) Hcreate)
      as (g2 & st2 & -> & Hc2).
    destruct (resize_returns g2 st2
                (((log ++ [GraphControl.CallContentLoad c])
                    ++ [GraphControl.SawDatelineOnTimeSeries true])
                   ++ redraw_of g') Hscale Htranslate Hresize)
      as (gf & stf & -> & Hcf).
    exists gf, stf. rewrite Hc2, Hkeep. rewrite <- !app_assoc. simpl.
    split; [done|congruence].
  - destruct (resize_returns g' st'
                ((log ++ [GraphControl.CallContentLoad c])
                   ++ [GraphControl.SawDatelineOnTimeSeries false])
                Hscale Htranslate Hresize)
      as (gf & stf & Hrun & Hcf).
    exists gf, stf. simpl. rewrite Hrun, Hkeep. rewrite <- !app_assoc. simpl.
    split; [done|congruence].
Qed.

(** No call after the update of the axis domains is that update. *)
Lemma update_not_after (c : loc) (present : bool)
    (redraw : list GraphControl.Call) (registered : list loc)
    (calls : list GraphControl.Call) :
  redraw_calls redraw ->
  calls `prefix_of` calls_after_update c present redraw registered ->
  GraphControl.CallUpdateAxesDomain c ∉ calls.
Proof.
  intros Hredraw [rest Hrest] Hin.
  assert (Hin' : GraphControl.CallUpdateAxesDomain c
                 ∈ calls_after_update c present redraw registered).
  { rewrite Hrest. apply elem_of_app. by left. }
  unfold calls_after_update in Hin'.
  rewrite !elem_of_app, !elem_of_cons, elem_of_nil in Hin'.
  destruct Hin' as [[|[|[]]]|[Hin'|[[|[|[|[]]]]|Hin']]]; try discriminate.
  - destruct present; [|by apply elem_of_nil in Hin'].
    destruct Hredraw as [->| ->]; [by apply elem_of_nil in Hin'|].
    rewrite !elem_of_cons, elem_of_nil in Hin'.
    by destruct Hin' as [|[|[]]].
  - apply list_elem_of_fmap in Hin' as (c' & Hc' & _). discriminate.
Qed.

(** What [loadContent(c)] does once it has reached the test of
    [isRangeModified], in the state [(g3, st3)] and on the data range
    [dr]. *)
Lemma loadContent_from_range_test
    (c : loc) (g g1 g2 g3 : Graph) (st st1 st2 st3 : Store)
    (log : list GraphControl.Call) (yAxis yAxis' : JsVal)
    (a : AxisConfig) (dr : DataRange) :
  let run :=
    GraphControl.loadContent lang utils styles ops genv c (g, st, log) in
  let modified := truthy (dr_isRangeModified dr) in
  let registered := content g ++ [c] in
  GraphControl.validateContent genv c g st = (g1, st1, Returns tt) ->
  GraphControl.setAxisPadding genv c
    (GraphControl.push_content c (GraphControl.content_config ops st1 c) g1)
    st1
  = (g2, st2, Returns tt) ->
  GraphControl.content_yAxis ops st2 c = Returns yAxis ->
  GraphControl.getAxesDataRange genv c yAxis g2 st2 = (g3, st3, Returns tt) ->
  GraphControl.content_yAxis ops st3 c = Returns yAxis' ->
  axis_get (axis (config g3)) (range_axis yAxis') = Some a ->
  dataRange a = Some dr ->
  exists calls,
    run.1.2 = log ++ calls_to_update c modified ++ calls
    /\ (GraphControl.CallUpdateAxesDomain c ∉ calls)
    /\ (exists present redraw,
          redraw_calls redraw
          /\ calls `prefix_of` calls_after_update c present redraw registered)
    /\ (forall g4 st4 g5 st5,
          (if modified then GraphControl.updateAxesDomain genv c g3 st3
           else (g3, st3, Returns tt))
          = (g4, st4, Returns tt) ->
          GraphControl.content_load ops c g4 st4 = (g5, st5, Returns tt) ->
          always_returns (GraphControl.createDateline genv) ->
          always_returns (GraphControl.scaleGraph genv) ->
          always_returns (GraphControl.translateGraph genv) ->
          (forall c', always_returns (GraphControl.content_resize ops c')) ->
          run.2 = Returns tt
          /\ calls
             = calls_after_update c (dateline_on_time_series g5)
                 (redraw_of g5) registered
          /\ content run.1.1.1 = registered).
Proof.
  intros run modified registered Hvalidate Hpad Hy Hrange Hy' Haxis Hdr.
  assert (Hc3 : content g3 = registered).
  { pose proof (validateContent_keeps c g st) as H1.
    pose proof (setAxisPadding_keeps c
                  (GraphControl.push_content c
                     (GraphControl.content_config ops st1 c) g1) st1) as H2.
    pose proof (getAxesDataRange_keeps c yAxis g2 st2) as H3.
    rewrite Hvalidate in H1. rewrite Hpad in H2. rewrite Hrange in H3.
    simpl in H1, H2, H3. subst registered. by rewrite H3, H2, H1. }
  assert (Htest : GraphControl.isRangeModified lang (config g3) yAxis'
                  = Returns (dr_isRangeModified dr)).
  { unfold GraphControl.isRangeModified. unfold range_axis in Haxis.
    by rewrite Haxis, Hdr. }
  set (w := (g3, st3,
             log ++ [GraphControl.CallValidateContent c;
                     GraphControl.CallSetAxisPadding c;
                     GraphControl.CallGetAxesDataRange c;
                     GraphControl.SawRangeModified modified])).
  assert (Hrun : run
                 = ((if modified
                     then GraphControl.invoke (GraphControl.CallUpdateAxesDomain c)
                            (GraphControl.updateAxesDomain genv c)
                     else mret tt) ≫= (fun _ => after_update c)) w).
  { subst run w. unfold GraphControl.loadContent.
    unfold mbind at 1, GraphControl.M_bind at 1.
    rewrite (invoke_returns _ _ _ _ _ _ _ _ Hvalidate).
    unfold mbind at 1, GraphControl.M_bind at 1, GraphControl.get_store at 1.
    unfold mbind at 1, GraphControl.M_bind at 1, GraphControl.modify_graph.
    unfold mbind at 1, GraphControl.M_bind at 1.
    rewrite (invoke_returns _ _ _ _ _ _ _ _ Hpad).
    unfold mbind at 1, GraphControl.M_bind at 1, GraphControl.get_store at 1.
    unfold mbind at 1, GraphControl.M_bind at 1, GraphControl.lift at 1.
    rewrite Hy.
    unfold mbind at 1, GraphControl.M_bind at 1.
    rewrite (invoke_returns _ _ _ _ _ _ _ _ Hrange).
    unfold mbind at 1, GraphControl.M_bind at 1, GraphControl.get_graph at 1.
    unfold mbind at 1, GraphControl.M_bind at 1, GraphControl.get_store at 1.
    unfold mbind at 1, GraphControl.M_bind at 1, GraphControl.lift at 1.
    rewrite Hy'.
    unfold mbind at 1, GraphControl.M_bind at 1, GraphControl.lift at 1.
    rewrite Htest.
    unfold mbind at 1, GraphControl.M_bind at 1, GraphControl.note at 1.
    rewrite <- !app_assoc. reflexivity. }
  assert (Hafter : forall g4 st4 log4,
            content g4 = registered ->
            exists calls,
              (after_update c (g4, st4, log4)).1.2 = log4 ++ calls
              /\ (GraphControl.CallUpdateAxesDomain c ∉ calls)
              /\ (exists present redraw,
                    redraw_calls redraw
                    /\ calls `prefix_of`
                         calls_after_update c present redraw registered)).
  { intros g4 st4 log4 Hc4.
    destruct (after_update_follows c g4 st4 log4)
      as (calls & full & cs' & Hlog & (present & redraw & Hrs & -> & ->)
          & Hpre & _).
    rewrite Hc4 in Hpre. exists calls. split; [exact Hlog|].
    split; [by eapply update_not_after|by exists present, redraw]. }
  assert (Hexact : forall g4 st4 log4 g5 st5,
            content g4 = registered ->
            GraphControl.content_load ops c g4 st4 = (g5, st5, Returns tt) ->
            always_returns (GraphControl.createDateline genv) ->
            always_returns (GraphControl.scaleGraph genv) ->
            always_returns (GraphControl.translateGraph genv) ->
            (forall c', always_returns (GraphControl.content_resize ops c')) ->
            (after_update c (g4, st4, log4)).2 = Returns tt
            /\ (after_update c (g4, st4, log4)).1.2
               = log4 ++ calls_after_update c (dateline_on_time_series g5)
                           (redraw_of g5) registered
            /\ content (after_update c (g4, st4, log4)).1.1.1 = registered).
  { intros g4 st4 log4 g5 st5 Hc4 Hload H1 H2 H3 H4.
    destruct (after_update_returns c g4 g5 st4 st5 log4 Hload H1 H2 H3 H4)
      as (gf & stf & -> & Hcf). simpl. rewrite Hc4 in *. done. }
  rewrite Hrun. subst w. unfold calls_to_update.
  destruct modified eqn:Hmod.
  - unfold mbind, GraphControl.M_bind.
    pose proof (updateAxesDomain_keeps c g3 st3) as Hkeep.
    destruct (GraphControl.updateAxesDomain genv c g3 st3)
      as [[g4 st4] r] eqn:Hupd.
    simpl in Hkeep.
    rewrite (invoke_returns _ _ _ _ _ _ _ _ Hupd).
    destruct r as [[]|e].
    + destruct (Hafter g4 st4
                  ((log ++ [GraphControl.CallValidateContent c;
                            GraphControl.CallSetAxisPadding c;
                            GraphControl.CallGetAxesDataRange c;
                            GraphControl.SawRangeModified true])
                     ++ [GraphControl.CallUpdateAxesDomain c]))
        as (calls & Hlog & Hno & Hpre); [congruence|].
      exists calls. split; [rewrite Hlog; by rewrite <- !app_assoc|].
      split; [exact Hno|]. split; [exact Hpre|].
      intros g4' st4' g5 st5 [= <- <-] Hload H1 H2 H3 H4.
      destruct (Hexact g4 st4
                  ((log ++ [GraphControl.CallValidateContent c;
                            GraphControl.CallSetAxisPadding c;
                            GraphControl.CallGetAxesDataRange c;
                            GraphControl.SawRangeModified true])
                     ++ [GraphControl.CallUpdateAxesDomain c])
                  g5 st5) as (Hret & Hlog' & Hcf); try done; [congruence|].
      split; [exact Hret|]. split; [|exact Hcf].
      rewrite Hlog in Hlog'. by apply app_inv_head in Hlog'.
    + exists []. simpl. split; [by rewrite <- !app_assoc|].
      split; [apply not_elem_of_nil|].
      split; [exists false, []; split; [by left|apply prefix_nil]|].
      intros g4' st4' g5 st5 [=].
  - unfold mbind, GraphControl.M_bind, mret, GraphControl.M_ret.
    destruct (Hafter g3 st3
                (log ++ [GraphControl.CallValidateContent c;
                         GraphControl.CallSetAxisPadding c;
                         GraphControl.CallGetAxesDataRange c;
                         GraphControl.SawRangeModified false]))
      as (calls & Hlog & Hno & Hpre); [exact Hc3|].
    exists calls. split; [rewrite Hlog; by rewrite app_nil_r, <- !app_assoc|].
    split; [exact Hno|]. split; [exact Hpre|].
    intros g4' st4' g5 st5 [= <- <-] Hload H1 H2 H3 H4.
    destruct (Hexact g3 st3
                (log ++ [GraphControl.CallValidateContent c;
                         GraphControl.CallSetAxisPadding c;
                         GraphControl.CallGetAxesDataRange c;
                         GraphControl.SawRangeModified false])
                g5 st5) as (Hret & Hlog' & Hcf); try done.
    split; [exact Hret|]. split; [|exact Hcf].
    rewrite Hlog in Hlog'. by apply app_inv_head in Hlog'.
Qed.

(** [loadContent(c)], called in the state [(g, st)], reaches the test of
    [isRangeModified] in the state [(g3, st3)], where the data range of the
    content's Y axis is [dr]: [validateContent] has returned, the content
    has been registered, and [setAxisPadding] and [getAxesDataRange] have
    returned. *)
Definition reaches_range_test (c : loc) (g : Graph) (st : Store)
    (g3 : Graph) (st3 : Store) (dr : DataRange) : Prop :=
  exists (g1 g2 : Graph) (st1 st2 : Store) (yAxis yAxis' : JsVal)
         (a : AxisConfig),
    GraphControl.validateContent genv c g st = (g1, st1, Returns tt)
    /\ GraphControl.setAxisPadding genv c
         (GraphControl.push_content c (GraphControl.content_config ops st1 c)
            g1) st1
       = (g2, st2, Returns tt)
    /\ GraphControl.content_yAxis ops st2 c = Returns yAxis
    /\ GraphControl.getAxesDataRange genv c yAxis g2 st2
       = (g3, st3, Returns tt)
    /\ GraphControl.content_yAxis ops st3 c = Returns yAxis'
    /\ axis_get (axis (config g3)) (range_axis yAxis') = Some a
    /\ dataRange a = Some dr.


End GraphControlFacts.

(** Contents for concrete runs, kept in no store: each is its own
    configuration, plots on the Y axis, and does nothing when it is loaded,
    unloaded or resized. *)
Definition idle_op : @GraphControl.Op unit := fun g st => (g, st, Returns tt).

Definition idle_content_ops : @GraphControl.ContentOps unit := {|
  GraphControl.content_config _ c := c;
  GraphControl.content_yAxis _ _ := Returns (JStr constants.Y_AXIS);
  GraphControl.content_load _ := idle_op;
  GraphControl.content_unload _ := idle_op;
  GraphControl.content_resize _ := idle_op
|}.

(** A configuration with one dateline and a modified data range on the Y
    axis. *)
Definition ranged_config : Config :=
  {| axis :=
       {| axis_x := sample_axis;
          axis_y :=
            {| type := OtherAxisType "default"; domain := JUndefined;
               ticks := JUndefined; orientation := JUndefined;
               rangeRounding := JUndefined;
               dataRange :=
                 Some {| dr_isRangeModified := JBool true;
                         range_min := JNum (Fin 0); range_max := JNum (Fin 20) |};
               trackList := []; trackCount := 0 |};
          axis_y2 := sample_axis |};
     canvasWidth := 500; height := 200;
     padding := padding (sample_config []);
     axisSizes_y := 0; axisLabelWidths_y := 0; shownTargets := [];
     dateline := JArr [JObj [("value", JStr "2016-06-03T12:00:00Z")]];
     others := [] |}.

(** Collaborators of the Graph for concrete runs: [getAxesDataRange] leaves
    the configuration above, the others do nothing. *)
Definition ranging_graph_env : @GraphControl.GraphEnv unit := {|
  GraphControl.validateContent _ := idle_op;
  GraphControl.setAxisPadding _ := idle_op;
  GraphControl.getAxesDataRange _ _ :=
    fun g st => (GraphControl.set_config ranged_config g, st, Returns tt);
  GraphControl.updateAxesDomain _ := idle_op;
  GraphControl.scaleGraph := idle_op;
  GraphControl.translateGraph := idle_op;
  GraphControl.createDateline := idle_op
|}.

(** A canvas that holds the dateline content. *)
Definition dateline_canvas : Node :=
  Element (new_element "svg" JUndefined)
    [leaf (add_class (datelineContent std_styles) (new_element "g" JUndefined))].

(** C1 on a Graph that holds the content [0], for the content [1]. *)
Lemma unloadContent_rejects_unknown_content_witness :
  GraphControl.unloadContent idle_content_ops ranging_graph_env 1%nat
    (sample_graph [] [0%nat] dateline_canvas, tt, [])
  = ((sample_graph [] [0%nat] dateline_canvas, tt, []),
     Throws THROW_MSG_INVALID_OBJECT_PROVIDED).
Proof.
  apply (unloadContent_rejects_unknown_content idle_content_ops
           ranging_graph_env).
  simpl. intros [H|H]%elem_of_cons; [lia|by apply elem_of_nil in H].
Defined.


(** The same run in full: the range is modified and a dateline
    content is on the canvas of a time-series Graph. *)
Example loadContent_run :
  let run :=
    GraphControl.loadContent std_lang std_utils std_styles idle_content_ops
      ranging_graph_env 2%nat
      (sample_graph [] [0%nat; 1%nat] dateline_canvas, tt, []) in
  run.2 = Returns tt
  /\ run.1.2
     = [GraphControl.CallValidateContent 2; GraphControl.CallSetAxisPadding 2;
        GraphControl.CallGetAxesDataRange 2; GraphControl.SawRangeModified true;
        GraphControl.CallUpdateAxesDomain 2; GraphControl.CallContentLoad 2;
        GraphControl.SawDatelineOnTimeSeries true;
        GraphControl.CallRemoveDatelineContent; GraphControl.CallCreateDateline;
        GraphControl.CallSetCanvasWidth; GraphControl.CallScaleGraph;
        GraphControl.CallTranslateGraph; GraphControl.CallContentResize 0;
        GraphControl.CallContentResize 1; GraphControl.CallContentResize 2]%nat
  /\ content run.1.1.1 = [0; 1; 2]%nat
  /\ contentTargets run.1.1.1 = [0; 1; 2]%nat.
Proof. vm_compute. repeat split; reflexivity. Qed.

(** [unloadContent] of a registered content removes it from both lists,
    unloads it and resizes the rest. *)
Example unloadContent_run :
  let run :=
    GraphControl.unloadContent idle_content_ops ranging_graph_env 0%nat
      (sample_graph [] [0%nat; 1%nat] dateline_canvas, tt, []) in
  run.2 = Returns tt
  /\ run.1.2
     = [GraphControl.CallContentUnload 0; GraphControl.CallSetCanvasWidth;
        GraphControl.CallScaleGraph; GraphControl.CallTranslateGraph;
        GraphControl.CallContentResize 1]%nat
  /\ content run.1.1.1 = [1%nat]
  /\ contentTargets run.1.1.1 = [1%nat].
Proof. vm_compute. repeat split; reflexivity. Qed.

(* ===================================================================== *)
(** * Further properties of the embedded sources *)
(* ===================================================================== *)

(** ** The Graph controller: registration of the contents *)

(** The two parallel lists of a Graph: the registered contents and their
    configurations. *)
Definition registry (g : Graph) : list loc * list loc :=
  (content g, contentTargets g).

Section RegistryFacts.
Context {Store : Type} (lang : Lang) (utils : Utils) (styles : Styles)
  (ops : @GraphControl.ContentOps Store) (genv : @GraphControl.GraphEnv Store).

#[local] Existing Instance GraphControl.M_bind.
#[local] Existing Instance GraphControl.M_ret.

(** A collaborator that leaves both lists alone. *)
Definition keeps_registry (op : @GraphControl.Op Store) : Prop :=
  forall g st, registry (op g st).1.1 = registry g.

Lemma keeps_registry_content (op : @GraphControl.Op Store) :
  keeps_registry op -> keeps_content op.
Proof. intros H g st. by injection (H g st). Qed.

(** A step is steady when it leaves both lists alone, whether it returns
    or throws. *)
Definition steady {A : Type} (m : @GraphControl.M Store A) : Prop :=
  forall g st log, registry (m (g, st, log)).1.1.1 = registry g.

Lemma bind_run {A B} (m : @GraphControl.M Store A)
    (k : A -> @GraphControl.M Store B) (w : GraphControl.World) :
  (m ≫= k) w
  = match m w with
    | (w', Returns a) => k a w'
    | (w', Throws e) => (w', Throws e)
    end.
Proof. reflexivity. Qed.

Lemma steady_bind {A B} (m : @GraphControl.M Store A)
    (k : A -> @GraphControl.M Store B) :
  steady m -> (forall a, steady (k a)) -> steady (m ≫= k).
Proof.
  intros Hm Hk g st log. rewrite bind_run. specialize (Hm g st log).
  destruct (m (g, st, log)) as [[[g1 st1] log1] [a|e]]; simpl in *.
  - by rewrite Hk.
  - exact Hm.
Qed.

Lemma steady_invoke (c : GraphControl.Call) (op : GraphControl.Op) :
  keeps_registry op -> steady (GraphControl.invoke c op).
Proof.
  intros Hop g st log. unfold GraphControl.invoke. specialize (Hop g st).
  by destruct (op g st) as [[g' st'] r].
Qed.

Lemma steady_same_graph {A} (m : @GraphControl.M Store A) :
  (forall w, (m w).1.1.1 = w.1.1) -> steady m.
Proof. intros Hm g st log. by rewrite Hm. Qed.

Lemma steady_forEach {A} (f : A -> @GraphControl.M Store unit) (arr : list A) :
  (forall a, steady (f a)) -> steady (GraphControl.forEach f arr).
Proof.
  intros Hf. induction arr as [|a arr IH]; simpl.
  - by apply steady_same_graph.
  - apply steady_bind; [apply Hf|intros _; apply IH].
Qed.

(** The collaborators of the controller are not among the sources; what is
    assumed of them here is that none changes the two lists of the Graph. *)
Hypothesis validateContent_keeps :
  forall c, keeps_registry (GraphControl.validateContent genv c).
Hypothesis setAxisPadding_keeps :
  forall c, keeps_registry (GraphControl.setAxisPadding genv c).
Hypothesis getAxesDataRange_keeps :
  forall c a, keeps_registry (GraphControl.getAxesDataRange genv c a).
Hypothesis updateAxesDomain_keeps :
  forall c, keeps_registry (GraphControl.updateAxesDomain genv c).
Hypothesis scaleGraph_keeps : keeps_registry (GraphControl.scaleGraph genv).
Hypothesis translateGraph_keeps :
  keeps_registry (GraphControl.translateGraph genv).
Hypothesis createDateline_keeps :
  keeps_registry (GraphControl.createDateline genv).
Hypothesis content_load_keeps :
  forall c, keeps_registry (GraphControl.content_load ops c).
Hypothesis content_unload_keeps :
  forall c, keeps_registry (GraphControl.content_unload ops c).
Hypothesis content_resize_keeps :
  forall c, keeps_registry (GraphControl.content_resize ops c).

Lemma resize_steady : steady (GraphControl.resize ops genv).
Proof.
  unfold GraphControl.resize.
  apply steady_bind; [by apply steady_invoke|intros _].
  apply steady_bind; [by apply steady_invoke|intros _].
  apply steady_bind; [by apply steady_invoke|intros _].
  apply steady_bind; [apply steady_same_graph; by intros [[g st] log]|].
  intros g. apply steady_forEach. intros c. by apply steady_invoke.
Qed.

Lemma redrawDatelineContent_steady :
  steady (GraphControl.redrawDatelineContent styles genv).
Proof.
  unfold GraphControl.redrawDatelineContent.
  apply steady_bind; [apply steady_same_graph; by intros [[g st] log]|].
  intros g. destruct (negb _).
  - apply steady_bind; [by apply steady_invoke|intros _].
    by apply steady_invoke.
  - by apply steady_same_graph.
Qed.

(** Once [validateContent] has returned, [loadContent] has registered the
    content, and nothing it does afterwards takes it back. *)
Lemma loadContent_registry (c : loc) (g g1 : Graph) (st st1 : Store)
    (log : list GraphControl.Call) :
  GraphControl.validateContent genv c g st = (g1, st1, Returns tt) ->
  registry (GraphControl.loadContent lang utils styles ops genv c (g, st, log)).1.1.1
  = (content g ++ [c],
     contentTargets g ++ [GraphControl.content_config ops st1 c]).
Proof.
  intros Hval. unfold GraphControl.loadContent.
  rewrite bind_run. unfold GraphControl.invoke at 1. rewrite Hval.
  rewrite bind_run. cbn [GraphControl.get_store].
  rewrite bind_run. cbn [GraphControl.modify_graph].
  match goal with
  | |- registry (?m ?w).1.1.1 = _ =>
    assert (Hrest : steady m); [|rewrite (Hrest _ _ _)]
  end.
  - apply steady_bind; [by apply steady_invoke|intros _].
    apply steady_bind; [apply steady_same_graph; by intros [[? ?] ?]|intros ?].
    apply steady_bind; [by apply steady_same_graph|intros ?].
    apply steady_bind; [by apply steady_invoke|intros _].
    apply steady_bind; [apply steady_same_graph; by intros [[? ?] ?]|intros ?].
    apply steady_bind; [apply steady_same_graph; by intros [[? ?] ?]|intros ?].
    apply steady_bind; [by apply steady_same_graph|intros ?].
    apply steady_bind; [by apply steady_same_graph|intros modified].
    apply steady_bind; [apply steady_same_graph; by intros [[? ?] ?]|intros _].
    apply steady_bind.
    { destruct (truthy modified);
        [by apply steady_invoke|by apply steady_same_graph]. }
    intros _.
    apply steady_bind; [by apply steady_invoke|intros _].
    apply steady_bind; [apply steady_same_graph; by intros [[? ?] ?]|intros g2].
    cbv zeta.
    apply steady_bind; [apply steady_same_graph; by intros [[? ?] ?]|intros _].
    apply steady_bind; [|intros _; apply resize_steady].
    destruct (_ && _);
      [apply redrawDatelineContent_steady|by apply steady_same_graph].
  - unfold registry, GraphControl.push_content. simpl.
    by injection (validateContent_keeps c g st); rewrite Hval; simpl;
      intros -> ->.
Qed.

(** [indexOf] gives the first place that holds the content. *)
Lemma indexOf_first (arr : list loc) (c : loc) :
  c ∈ arr ->
  0 <= GraphControl.indexOf arr c
  /\ arr !! Z.to_nat (GraphControl.indexOf arr c) = Some c
  /\ (forall j, (j < Z.to_nat (GraphControl.indexOf arr c))%nat ->
        arr !! j <> Some c).
Proof.
  intros Hc. unfold GraphControl.indexOf.
  destruct (list_find (fun r => r = c) arr) as [[i r]|] eqn:Hfind.
  - apply list_find_Some in Hfind as (Hi & -> & Hbefore).
    rewrite Nat2Z.id. split; [lia|]. split; [exact Hi|].
    intros j Hj Harr. by apply (Hbefore j c).
  - apply list_find_None in Hfind. rewrite Forall_forall in Hfind.
    by destruct (Hfind c Hc).
Qed.

Lemma indexOf_app_fresh (arr : list loc) (c : loc) :
  c ∉ arr -> GraphControl.indexOf (arr ++ [c]) c = Z.of_nat (length arr).
Proof.
  intros Hc.
  destruct (indexOf_first (arr ++ [c]) c) as (_ & Hat & Hbefore);
    [set_solver|].
  set (i := Z.to_nat (GraphControl.indexOf (arr ++ [c]) c)) in *.
  assert (Hi : i = length arr).
  { destruct (decide (i < length arr)%nat) as [Hlt|Hge].
    - rewrite lookup_app_l in Hat by done.
      exfalso. apply Hc. by eapply list_elem_of_lookup_2.
    - apply lookup_lt_Some in Hat. rewrite length_app in Hat. simpl in Hat.
      lia. }
  destruct (indexOf_first (arr ++ [c]) c) as (Hpos & _ & _); [set_solver|].
  subst i. lia.
Qed.

(** What [unloadContent] does after the removal from the two lists. *)
Lemma unload_rest_follows (c : loc) :
  follows
    (GraphControl.invoke (GraphControl.CallContentUnload c)
       (GraphControl.content_unload ops c);;
     GraphControl.resize ops genv)
    (fun cs full cs' =>
       full = [GraphControl.CallContentUnload c;
               GraphControl.CallSetCanvasWidth; GraphControl.CallScaleGraph;
               GraphControl.CallTranslateGraph]
              ++ (GraphControl.CallContentResize <$> cs)
       /\ cs' = cs).
Proof.
  eapply follows_weaken.
  - eapply follows_bind;
      [apply follows_invoke, keeps_registry_content, content_unload_keeps|].
    intros _. apply resize_follows; auto using keeps_registry_content.
  - intros cs full cs' (f1 & f2 & mid & [-> ->] & [-> ->] & ->). done.
Qed.

Lemma unload_rest_steady (c : loc) :
  steady
    (GraphControl.invoke (GraphControl.CallContentUnload c)
       (GraphControl.content_unload ops c);;
     GraphControl.resize ops genv).
Proof.
  apply steady_bind; [by apply steady_invoke|intros _; apply resize_steady].
Qed.

Lemma unloadContent_registered (c : loc) (g : Graph) (st : Store)
    (log : list GraphControl.Call) :
  c ∈ content g ->
  GraphControl.unloadContent ops genv c (g, st, log)
  = (GraphControl.invoke (GraphControl.CallContentUnload c)
       (GraphControl.content_unload ops c);;
     GraphControl.resize ops genv)
      (GraphControl.splice_content (GraphControl.indexOf (content g) c) g,
       st, log).
Proof.
  intros Hc. destruct (indexOf_first _ _ Hc) as (Hpos & _).
  unfold GraphControl.unloadContent. rewrite bind_run.
  cbn [GraphControl.get_graph]. cbv zeta.
  rewrite bool_decide_eq_false_2 by lia. reflexivity.
Qed.

(** X1.  [unloadContent(c)] of a registered content, with collaborators that
    leave the two lists alone: the first place [i] of [c] in the content
    list is removed from the content list and from [contentTargets]; the
    calls added to the log are a prefix of [content.unload], canvas width,
    scale, translate and the resize of the contents that remain, in list
    order, and are all of them when the call returns.  The two lists are as
    described whether the call returns or a collaborator throws. *)
Theorem unloadContent_removes_first_occurrence
    (c : loc) (g : Graph) (st : Store) (log : list GraphControl.Call) :
  c ∈ content g ->
  let run := GraphControl.unloadContent ops genv c (g, st, log) in
  let i := Z.to_nat (GraphControl.indexOf (content g) c) in
  let full :=
    [GraphControl.CallContentUnload c; GraphControl.CallSetCanvasWidth;
     GraphControl.CallScaleGraph; GraphControl.CallTranslateGraph]
    ++ (GraphControl.CallContentResize <$> delete i (content g)) in
  content g !! i = Some c
  /\ (forall j, (j < i)%nat -> content g !! j <> Some c)
  /\ content run.1.1.1 = delete i (content g)
  /\ contentTargets run.1.1.1 = delete i (contentTargets g)
  /\ exists calls,
       run.1.2 = log ++ calls
       /\ calls `prefix_of` full
       /\ (forall a, run.2 = Returns a -> calls = full).
Proof.
  intros Hc run i full. destruct (indexOf_first _ _ Hc) as (Hpos & Hat & Hbefore).
  split; [exact Hat|]. split; [exact Hbefore|].
  subst run. rewrite (unloadContent_registered _ _ _ _ Hc).
  set (g' := GraphControl.splice_content _ g).
  pose proof (unload_rest_steady c g' st log) as Hreg.
  injection Hreg as Hcs Hts. split; [exact Hcs|]. split; [exact Hts|].
  destruct (unload_rest_follows c g' st log)
    as (calls & full' & cs' & Hlog & [-> ->] & Hpre & Hret).
  exists calls. split; [exact Hlog|]. split; [exact Hpre|].
  intros a Ha. by destruct (Hret a Ha).
Qed.

(** X3.  Once [validateContent] has returned, [loadContent(c)] has put the
    content at the end of the content list and its configuration at the
    end of [contentTargets], and both stay there whether the rest of the
    call returns or throws: a failure of [content.load] or of a later step
    leaves the content registered. *)
Theorem loadContent_registers_before_loading
    (c : loc) (g g1 : Graph) (st st1 : Store) (log : list GraphControl.Call) :
  GraphControl.validateContent genv c g st = (g1, st1, Returns tt) ->
  let run :=
    GraphControl.loadContent lang utils styles ops genv c (g, st, log) in
  content run.1.1.1 = content g ++ [c]
  /\ contentTargets run.1.1.1
     = contentTargets g ++ [GraphControl.content_config ops st1 c].
Proof.
  intros Hval run.
  by injection (loadContent_registry c g g1 st st1 log Hval).
Qed.

(** X4.  [resize()] with collaborators that leave the two lists alone: the
    calls added to the log are a prefix of canvas width, scale, translate
    and the resize of every registered content in list order, all of them
    when the call returns; a content whose resize throws stops the pass.
    The two lists are left as they were in every case. *)
Theorem resize_call_order
    (g : Graph) (st : Store) (log : list GraphControl.Call) :
  let run := GraphControl.resize ops genv (g, st, log) in
  let full :=
    [GraphControl.CallSetCanvasWidth; GraphControl.CallScaleGraph;
     GraphControl.CallTranslateGraph]
    ++ (GraphControl.CallContentResize <$> content g) in
  content run.1.1.1 = content g
  /\ contentTargets run.1.1.1 = contentTargets g
  /\ exists calls,
       run.1.2 = log ++ calls
       /\ calls `prefix_of` full
       /\ (forall a, run.2 = Returns a -> calls = full).
Proof.
  intros run full.
  injection (resize_steady g st log) as Hcs Hts.
  split; [exact Hcs|]. split; [exact Hts|].
  destruct (resize_follows ops genv
              (keeps_registry_content _ scaleGraph_keeps)
              (keeps_registry_content _ translateGraph_keeps)
              (fun c => keeps_registry_content _ (content_resize_keeps c))
              g st log)
    as (calls & full' & cs' & Hlog & [-> ->] & Hpre & Hret).
  exists calls. split; [exact Hlog|]. split; [exact Hpre|].
  intros a Ha. by destruct (Hret a Ha).
Qed.

(** X5.  Loading a content that is not registered and unloading it again,
    both calls returning, leaves the content list and [contentTargets] as
    they were before the two calls, when the two lists were of one
    length. *)
Theorem loadContent_unloadContent_round_trip
    (c : loc) (g : Graph) (st : Store) (log : list GraphControl.Call)
    (w1 w2 : GraphControl.World) :
  c ∉ content g ->
  length (content g) = length (contentTargets g) ->
  GraphControl.loadContent lang utils styles ops genv c (g, st, log)
  = (w1, Returns tt) ->
  GraphControl.unloadContent ops genv c w1 = (w2, Returns tt) ->
  content w2.1.1 = content g /\ contentTargets w2.1.1 = contentTargets g.
Proof.
  intros Hc Hlen Hload Hunload.
  destruct (GraphControl.validateContent genv c g st)
    as [[g1 st1] [[]|e]] eqn:Hval.
  - pose proof (loadContent_registry c g g1 st st1 log Hval) as Hreg.
    rewrite Hload in Hreg. destruct w1 as [[gl stl] logl]. simpl in Hreg.
    injection Hreg as Hcs Hts.
    assert (Hin : c ∈ content gl) by (rewrite Hcs; set_solver).
    rewrite (unloadContent_registered _ _ _ _ Hin) in Hunload.
    pose proof (unload_rest_steady c
                  (GraphControl.splice_content
                     (GraphControl.indexOf (content gl) c) gl) stl logl) as Hreg.
    rewrite Hunload in Hreg. simpl in Hreg. injection Hreg as -> ->.
    rewrite Hcs, Hts, (indexOf_app_fresh _ _ Hc), Nat2Z.id.
    split; [|rewrite Hlen]; by rewrite (delete_middle _ []), app_nil_r.
  - unfold GraphControl.loadContent in Hload. rewrite bind_run in Hload.
    unfold GraphControl.invoke at 1 in Hload. rewrite Hval in Hload.
    discriminate.
Qed.

End RegistryFacts.

Section LoadContentFailure.
Context {Store : Type} (lang : Lang) (utils : Utils) (styles : Styles)
  (ops : @GraphControl.ContentOps Store) (genv : @GraphControl.GraphEnv Store).

(** X2.  When [validateContent] throws, [loadContent(c)] throws the same
    error from the state [validateContent] left: the content is not
    registered by [loadContent], and the validation is the only call
    made. *)
Theorem loadContent_rejected_content
    (c : loc) (g g1 : Graph) (st st1 : Store) (log : list GraphControl.Call)
    (e : Error) :
  GraphControl.validateContent genv c g st = (g1, st1, Throws e) ->
  GraphControl.loadContent lang utils styles ops genv c (g, st, log)
  = ((g1, st1, log ++ [GraphControl.CallValidateContent c]), Throws e).
Proof.
  intros Hval. unfold GraphControl.loadContent. rewrite bind_run.
  unfold GraphControl.invoke at 1. by rewrite Hval.
Qed.

End LoadContentFailure.

(** Collaborators for concrete runs whose validation rejects every
    content. *)
Definition rejecting_graph_env : @GraphControl.GraphEnv unit := {|
  GraphControl.validateContent _ :=
    fun g st => (g, st, Throws (OtherError "content rejected"));
  GraphControl.setAxisPadding _ := idle_op;
  GraphControl.getAxesDataRange _ _ := idle_op;
  GraphControl.updateAxesDomain _ := idle_op;
  GraphControl.scaleGraph := idle_op;
  GraphControl.translateGraph := idle_op;
  GraphControl.createDateline := idle_op
|}.

(** X1 on a Graph whose content list holds the content [0] twice. *)
Lemma unloadContent_removes_first_occurrence_witness :
  let g := sample_graph [] [1; 0; 2; 0]%nat dateline_canvas in
  let run :=
    GraphControl.unloadContent idle_content_ops ranging_graph_env 0%nat
      (g, tt, []) in
  content run.1.1.1 = [1; 2; 0]%nat
  /\ contentTargets run.1.1.1 = [1; 2; 0]%nat
  /\ run.1.2
     = [GraphControl.CallContentUnload 0; GraphControl.CallSetCanvasWidth;
        GraphControl.CallScaleGraph; GraphControl.CallTranslateGraph;
        GraphControl.CallContentResize 1; GraphControl.CallContentResize 2;
        GraphControl.CallContentResize 0]%nat.
Proof.
  intros g run.
  destruct (unloadContent_removes_first_occurrence idle_content_ops
              ranging_graph_env
              (fun _ _ => eq_refl) (fun _ _ => eq_refl)
              (fun _ _ _ => eq_refl) (fun _ _ _ => eq_refl)
              0%nat g tt [])
    as (_ & _ & Hcs & Hts & calls & Hlog & _ & Hret).
  - apply (bool_decide_unpack _). vm_compute. exact I.
  - split; [exact Hcs|]. split; [exact Hts|].
    subst run. rewrite Hlog. by rewrite (Hret tt eq_refl).
Defined.

(** X2 on a validation that rejects the content. *)
Lemma loadContent_rejected_content_witness :
  GraphControl.loadContent std_lang std_utils std_styles idle_content_ops
    rejecting_graph_env 1%nat (sample_graph [] [0%nat] dateline_canvas, tt, [])
  = ((sample_graph [] [0%nat] dateline_canvas, tt,
      [GraphControl.CallValidateContent 1%nat]),
     Throws (OtherError "content rejected")).
Proof.
  apply (loadContent_rejected_content std_lang std_utils std_styles
           idle_content_ops rejecting_graph_env 1%nat
           (sample_graph [] [0%nat] dateline_canvas)
           (sample_graph [] [0%nat] dateline_canvas) tt tt []).
  reflexivity.
Defined.

(** Contents for concrete runs that cannot be loaded. *)
Definition failing_content_ops : @GraphControl.ContentOps unit := {|
  GraphControl.content_config _ c := c;
  GraphControl.content_yAxis _ _ := Returns (JStr constants.Y_AXIS);
  GraphControl.content_load _ :=
    fun g st => (g, st, Throws (OtherError "load failed"));
  GraphControl.content_unload _ := idle_op;
  GraphControl.content_resize _ := idle_op
|}.

(** X3 on a content whose [load] throws: the call throws and the content
    is registered. *)
Lemma loadContent_registers_before_loading_witness :
  let run :=
    GraphControl.loadContent std_lang std_utils std_styles failing_content_ops
      ranging_graph_env 1%nat
      (sample_graph [] [0%nat] dateline_canvas, tt, []) in
  run.2 = Throws (OtherError "load failed")
  /\ content run.1.1.1 = [0; 1]%nat
  /\ contentTargets run.1.1.1 = [0; 1]%nat.
Proof.
  split; [reflexivity|].
  apply (loadContent_registers_before_loading std_lang std_utils std_styles
           failing_content_ops ranging_graph_env
           (fun _ _ _ => eq_refl) (fun _ _ _ => eq_refl)
           (fun _ _ _ _ => eq_refl) (fun _ _ _ => eq_refl)
           (fun _ _ => eq_refl) (fun _ _ => eq_refl) (fun _ _ => eq_refl)
           (fun _ _ _ => eq_refl) (fun _ _ _ => eq_refl)
           1%nat (sample_graph [] [0%nat] dateline_canvas)
           (sample_graph [] [0%nat] dateline_canvas) tt tt []).
  reflexivity.
Defined.

(** X4 on a Graph with three contents. *)
Lemma resize_call_order_witness :
  let run :=
    GraphControl.resize idle_content_ops ranging_graph_env
      (sample_graph [] [0; 1; 2]%nat dateline_canvas, tt, []) in
  content run.1.1.1 = [0; 1; 2]%nat
  /\ contentTargets run.1.1.1 = [0; 1; 2]%nat
  /\ exists calls,
       run.1.2 = [] ++ calls
       /\ calls `prefix_of`
            [GraphControl.CallSetCanvasWidth; GraphControl.CallScaleGraph;
             GraphControl.CallTranslateGraph; GraphControl.CallContentResize 0;
             GraphControl.CallContentResize 1;
             GraphControl.CallContentResize 2]%nat
       /\ (forall a, run.2 = Returns a ->
             calls
             = [GraphControl.CallSetCanvasWidth; GraphControl.CallScaleGraph;
                GraphControl.CallTranslateGraph;
                GraphControl.CallContentResize 0;
                GraphControl.CallContentResize 1;
                GraphControl.CallContentResize 2]%nat).
Proof.
  apply (resize_call_order idle_content_ops ranging_graph_env
           (fun _ _ => eq_refl) (fun _ _ => eq_refl) (fun _ _ _ => eq_refl)
           (sample_graph [] [0; 1; 2]%nat dateline_canvas) tt []).
Defined.

(** X5 on a Graph with two contents, for a third. *)
Lemma loadContent_unloadContent_round_trip_witness :
  let w0 := (sample_graph [] [0; 1]%nat dateline_canvas, tt, []) in
  let w1 :=
    (GraphControl.loadContent std_lang std_utils std_styles idle_content_ops
       ranging_graph_env 2%nat w0).1 in
  let w2 :=
    (GraphControl.unloadContent idle_content_ops ranging_graph_env 2%nat w1).1 in
  content w2.1.1 = [0; 1]%nat /\ contentTargets w2.1.1 = [0; 1]%nat.
Proof.
  intros w0 w1 w2.
  apply (loadContent_unloadContent_round_trip std_lang std_utils std_styles
           idle_content_ops ranging_graph_env
           (fun _ _ _ => eq_refl) (fun _ _ _ => eq_refl)
           (fun _ _ _ _ => eq_refl) (fun _ _ _ => eq_refl)
           (fun _ _ => eq_refl) (fun _ _ => eq_refl) (fun _ _ => eq_refl)
           (fun _ _ _ => eq_refl) (fun _ _ _ => eq_refl) (fun _ _ _ => eq_refl)
           2%nat (sample_graph [] [0; 1]%nat dateline_canvas) tt [] w1 w2).
  - apply (bool_decide_unpack _). vm_compute. exact I.
  - reflexivity.
  - vm_compute. reflexivity.
  - vm_compute. reflexivity.
Defined.

(** ** Validation of a region: the axis, the types and the order of the
    bounds *)

Section ValidateRegionCases.
Context (lang : Lang) (utils : Utils).

Hypothesis isEmpty_undefined : isEmpty utils JUndefined = true.
Hypothesis isEmpty_number : forall z, isEmpty utils (JNum (Fin z)) = false.
Hypothesis isEmpty_object :
  forall f fs, isEmpty utils (JObj (f :: fs)) = false.
Hypothesis isEmpty_string :
  forall s, s <> "" -> isEmpty utils (JStr s) = false.
Hypothesis isNumber_number : forall z, isNumber utils (JNum (Fin z)) = true.

(** X6.  A region with two finite bounds on a valid axis passes validation
    exactly when the start is not above the end; equal bounds, a goal
    line, pass. *)
Theorem validateRegion_two_bounds
    (fields : list (string * JsVal)) (targetAxis : string) (s e : Z) :
  axis_ok fields targetAxis ->
  assoc "start" fields = JNum (Fin s) ->
  assoc "end" fields = JNum (Fin e) ->
  Region.validateRegion lang utils (JObj fields) targetAxis
  = if bool_decide (s <= e) then Returns tt
    else Throws THROW_MSG_REGION_START_MORE_END.
Proof.
  intros Hax Hs He.
  destruct (axis_tests_pass utils isEmpty_undefined isEmpty_string
              fields targetAxis Hax) as [Ha1 Ha2].
  assert (Hobj : isEmpty utils (JObj fields) = false).
  { destruct fields as [|f fs]; [discriminate|apply isEmpty_object]. }
  unfold Region.validateRegion. rewrite Hobj. simpl.
  rewrite Ha1, Ha2, Hs, He. simpl.
  rewrite !isEmpty_number, !isNumber_number. simpl.
  rewrite !andb_false_r. simpl. unfold num_gt. simpl.
  destruct (decide (s <= e)) as [Hle|Hgt].
  - rewrite bool_decide_eq_false_2 by lia.
    by rewrite bool_decide_eq_true_2 by lia.
  - rewrite bool_decide_eq_true_2 by lia.
    by rewrite (bool_decide_eq_false_2 (s <= e)) by lia.
Qed.

(** X7.  A region that has a bound and whose axis is not given or is a
    string is rejected with the invalid-axis error whenever the axis is not
    valid for the target axis: not given with a target other than [y], a
    name other than the target, or a target that is neither [y] nor [y2].
    The error comes before the tests of the types and of the order of the
    bounds. *)
Theorem validateRegion_axis_mismatch
    (fields : list (string * JsVal)) (targetAxis : string) :
  isEmpty utils (JObj fields) = false ->
  isEmpty utils (assoc "start" fields) && isEmpty utils (assoc "end" fields)
  = false ->
  assoc "axis" fields = JUndefined
  \/ (exists a, a <> "" /\ assoc "axis" fields = JStr a) ->
  ~ axis_ok fields targetAxis ->
  Region.validateRegion lang utils (JObj fields) targetAxis
  = Throws THROW_MSG_REGION_INVALID_AXIS_PROVIDED.
Proof.
  intros Hobj Hbounds Haxis Hbad.
  unfold Region.validateRegion. rewrite Hobj. simpl. rewrite Hbounds. simpl.
  unfold notEmpty. destruct Haxis as [Hu|(a & Ha & Hs)].
  - rewrite Hu, isEmpty_undefined. simpl.
    destruct (decide (constants.Y_AXIS = targetAxis)) as [Heq|Hne].
    + exfalso. apply Hbad. left. by split.
    + by rewrite bool_decide_eq_false_2 by done.
  - rewrite Hs, (isEmpty_string a Ha). simpl.
    destruct (decide (a = targetAxis)) as [->|Hne].
    + rewrite (bool_decide_eq_true_2 (targetAxis = targetAxis)) by done.
      destruct (decide (targetAxis = constants.Y_AXIS)) as [Hy|Hy].
      { exfalso. apply Hbad. right. split; [done|by left]. }
      destruct (decide (targetAxis = constants.Y2_AXIS)) as [Hy2|Hy2].
      { exfalso. apply Hbad. right. split; [done|by right]. }
      rewrite !bool_decide_eq_false_2 by done. reflexivity.
    + rewrite (bool_decide_eq_false_2 (a = targetAxis)) by done.
      simpl. by rewrite orb_true_r.
Qed.

(** X8.  On a valid axis, a region one of whose bounds is truthy and not a
    number is rejected with the invalid-value-type error, whatever the
    other bound is. *)
Theorem validateRegion_value_type
    (fields : list (string * JsVal)) (targetAxis : string) :
  isEmpty utils (JObj fields) = false ->
  isEmpty utils (assoc "start" fields) && isEmpty utils (assoc "end" fields)
  = false ->
  axis_ok fields targetAxis ->
  (truthy (assoc "start" fields) = true
   /\ isNumber utils (assoc "start" fields) = false)
  \/ (truthy (assoc "end" fields) = true
      /\ isNumber utils (assoc "end" fields) = false) ->
  Region.validateRegion lang utils (JObj fields) targetAxis
  = Throws THROW_MSG_REGION_INVALID_VALUE_TYPE_PROVIDED.
Proof.
  intros Hobj Hbounds Hax Hbad.
  destruct (axis_tests_pass utils isEmpty_undefined isEmpty_string
              fields targetAxis Hax) as [Ha1 Ha2].
  unfold Region.validateRegion. rewrite Hobj. simpl. rewrite Hbounds. simpl.
  rewrite Ha1, Ha2. simpl.
  destruct Hbad as [[-> ->]|[-> ->]]; simpl; [reflexivity|].
  by rewrite orb_true_r.
Qed.

End ValidateRegionCases.

(** X6 on the goal line [{start: 10, end: 10}] and on [{start: 10, end: 5}]. *)
Lemma validateRegion_two_bounds_witness :
  Region.validateRegion std_lang std_utils
    (JObj [("start", JNum (Fin 10)); ("end", JNum (Fin 10))]) "y"
  = Returns tt.
Proof.
  apply (validateRegion_two_bounds std_lang std_utils eq_refl
           (fun _ => eq_refl) (fun _ _ => eq_refl) std_isEmpty_string
           (fun _ => eq_refl)
           [("start", JNum (Fin 10)); ("end", JNum (Fin 10))] "y" 10 10).
  - left. split; reflexivity.
  - reflexivity.
  - reflexivity.
Defined.

(** X7 on a region of the axis [y] for a content of the axis [y2]. *)
Lemma validateRegion_axis_mismatch_witness :
  Region.validateRegion std_lang std_utils
    (JObj [("axis", JStr "y"); ("start", JNum (Fin 1)); ("end", JNum (Fin 5))])
    "y2"
  = Throws THROW_MSG_REGION_INVALID_AXIS_PROVIDED.
Proof.
  apply (validateRegion_axis_mismatch std_lang std_utils eq_refl
           std_isEmpty_string).
  - reflexivity.
  - reflexivity.
  - right. exists "y". split; [discriminate|reflexivity].
  - intros [[H _]|[H _]]; discriminate.
Defined.

(** X8 on a region whose start is a string. *)
Lemma validateRegion_value_type_witness :
  Region.validateRegion std_lang std_utils
    (JObj [("start", JStr "ten"); ("end", JNum (Fin 20))]) "y"
  = Throws THROW_MSG_REGION_INVALID_VALUE_TYPE_PROVIDED.
Proof.
  apply (validateRegion_value_type std_lang std_utils eq_refl
           std_isEmpty_string).
  - reflexivity.
  - reflexivity.
  - left. split; reflexivity.
  - left. split; reflexivity.
Defined.

(** ** Edits of the selected elements of a tree *)

Section TreeEdits.

(** [selectAll_each] on the children of an element. *)
Definition each_children (sel : Selector) (f : Own -> Own) (ch : list Node)
    : list Node :=
  map (fun k =>
         match selectAll_each sel f k with
         | Element ko kch =>
           Element (if matches sel (own_of k) then f ko else ko) kch
         end) ch.

Lemma selectAll_each_Element sel f o ch :
  selectAll_each sel f (Element o ch) = Element o (each_children sel f ch).
Proof. reflexivity. Qed.

Lemma each_children_cons sel f ko kch rest :
  each_children sel f (Element ko kch :: rest)
  = Element (if matches sel ko then f ko else ko) (each_children sel f kch)
    :: each_children sel f rest.
Proof. reflexivity. Qed.

(** Two edits of one selection, one after the other, are the edit by the
    composition, when the first edit keeps an element in the selection. *)
Lemma selectAll_each_compose sel (f g : Own -> Own) :
  (forall o, matches sel o = true -> matches sel (f o) = true) ->
  forall root,
    selectAll_each sel g (selectAll_each sel f root)
    = selectAll_each sel (fun o => g (f o)) root.
Proof.
  intros Hkeep. apply Node_ind'. intros o ch IH.
  rewrite !selectAll_each_Element. f_equal.
  induction IH as [|[ko kch] rest Hk _ IHrest]; [reflexivity|].
  rewrite !each_children_cons, IHrest.
  rewrite !selectAll_each_Element in Hk. injection Hk as ->.
  destruct (matches sel ko) eqn:Hm.
  - by rewrite (Hkeep ko Hm).
  - by rewrite Hm.
Qed.

(** An edit that changes no selected element of the tree changes
    nothing. *)
Lemma selectAll_each_fixed sel (f : Own -> Own) :
  forall root,
    Forall (fun o => matches sel o = true -> f o = o) (owns root) ->
    selectAll_each sel f root = root.
Proof.
  apply (Node_ind' (fun root =>
    Forall (fun o => matches sel o = true -> f o = o) (owns root) ->
    selectAll_each sel f root = root)).
  intros o ch IH Hfix. rewrite selectAll_each_Element. f_equal.
  rewrite owns_Element in Hfix.
  induction IH as [|[ko kch] rest Hk _ IHrest]; [reflexivity|].
  rewrite each_children_cons. simpl in Hfix.
  apply Forall_cons in Hfix as [Hko Hfix].
  apply Forall_app in Hfix as [Hkch Hrest].
  rewrite (IHrest Hrest). specialize (Hk Hkch).
  rewrite selectAll_each_Element in Hk. injection Hk as ->.
  destruct (matches sel ko) eqn:Hm; [by rewrite Hko|done].
Qed.

(** Edits that agree on every element give the same tree. *)
Lemma selectAll_each_ext sel (f g : Own -> Own) :
  (forall o, f o = g o) ->
  forall root, selectAll_each sel f root = selectAll_each sel g root.
Proof.
  intros Hfg. apply Node_ind'. intros o ch IH.
  rewrite !selectAll_each_Element. f_equal.
  induction IH as [|[ko kch] rest Hk _ IHrest]; [reflexivity|].
  rewrite !each_children_cons, IHrest, Hfg.
  rewrite !selectAll_each_Element in Hk. by injection Hk as ->.
Qed.

End TreeEdits.

(** ** Showing and hiding regions *)

Section RegionToggleFacts.
Context (lang : Lang) (styles : Styles).

Lemma set_attr_twice (name : string) (v v' : AttrVal) (o : Own) :
  set_attr name v' (set_attr name v o) = set_attr name v' o.
Proof. unfold set_attr. simpl. by rewrite insert_insert_eq. Qed.

Lemma get_set_attr (name : string) (v : AttrVal) (o : Own) :
  get_attr name (set_attr name v o) = Some v.
Proof. unfold get_attr, set_attr. simpl. by rewrite lookup_insert_eq. Qed.

Lemma set_attr_same (name : string) (v : AttrVal) (o : Own) :
  get_attr name o = Some v -> set_attr name v o = o.
Proof.
  unfold set_attr, get_attr. intros H. destruct o as [t c a d]. simpl in *.
  by rewrite insert_id.
Qed.

Lemma matches_set_attr_other (cls name value other : string) (v : AttrVal)
    (o : Own) :
  other <> name ->
  matches (ByClassAttr cls name value) (set_attr other v o)
  = matches (ByClassAttr cls name value) o.
Proof.
  intros Hne. unfold matches, has_class, attr_is, set_attr. simpl.
  by rewrite lookup_insert_ne.
Qed.

(** X9.  On a canvas whose regions carry [aria-hidden="true"] or
    [aria-hidden="false"], [processRegions] with one shown target undoes
    itself: a second call gives back the canvas the first call was given,
    so the regions of the target are shown by one call and hidden by the
    next. *)
Theorem processRegions_single_target_twice (key : string) (canvasSVG : Node) :
  Forall (fun o => hidden o \/ visible o) (regions_of styles canvasSVG) ->
  Region.processRegions lang styles [key]
    (Region.processRegions lang styles [key] canvasSVG)
  = canvasSVG.
Proof.
  intros Hreg. unfold Region.processRegions. simpl.
  unfold Region.toggleRegion.
  rewrite selectAll_each_compose
    by (intros o Ho; by rewrite matches_set_attr_other).
  apply selectAll_each_fixed.
  unfold regions_of, selected in Hreg. rewrite Forall_forall in Hreg.
  apply Forall_forall. intros o Ho Hm.
  assert (Hstate : hidden o \/ visible o).
  { apply Hreg. apply list_elem_of_filter. split; [|exact Ho].
    simpl in *. apply andb_prop in Hm as [Hc _]. exact Hc. }
  rewrite set_attr_twice. apply set_attr_same. rewrite get_set_attr.
  unfold hidden, visible in Hstate.
  destruct Hstate as [Hh|Hv]; rewrite ?Hh, ?Hv; reflexivity.
Qed.

(** X10.  [hideAllRegions] changes nothing but the [aria-hidden] attribute
    of the region elements, which it sets to ["true"], and a second call
    changes nothing more. *)
Theorem hideAllRegions_only_hides (canvasSVG : Node) :
  own_of (Region.hideAllRegions styles canvasSVG) = own_of canvasSVG
  /\ owns (Region.hideAllRegions styles canvasSVG)
     = (fun o => if has_class (region styles) o
                 then set_attr "aria-hidden" (AStr "true") o else o)
       <$> owns canvasSVG
  /\ Region.hideAllRegions styles (Region.hideAllRegions styles canvasSVG)
     = Region.hideAllRegions styles canvasSVG.
Proof.
  unfold Region.hideAllRegions. split; [apply own_of_selectAll_each|].
  split; [apply owns_selectAll_each|].
  rewrite selectAll_each_compose by done.
  apply selectAll_each_ext. intros o. apply set_attr_twice.
Qed.

(** X11.  [showHideRegion(canvasSVG, key, shouldShow)] gives the regions
    described by [key] the [aria-hidden] value opposite to [shouldShow] and
    leaves every other region as it was; the regions stay the same in
    number and order. *)
Theorem showHideRegion_only_key (canvasSVG : Node) (key : string)
    (shouldShow : bool) :
  Forall2
    (fun before after =>
       if attr_is "aria-describedby" key before
       then after = set_attr "aria-hidden" (attr_of_bool (negb shouldShow)) before
       else after = before)
    (regions_of styles canvasSVG)
    (regions_of styles (Region.showHideRegion styles canvasSVG key shouldShow)).
Proof.
  unfold Region.showHideRegion.
  rewrite regions_of_selectAll_each by done.
  apply Forall2_fmap_r, Forall_Forall2_diag, Forall_forall.
  intros o Ho. unfold regions_of, selected in Ho.
  apply list_elem_of_filter in Ho as [Hcls _]. simpl in *.
  rewrite Hcls. simpl. by destruct (attr_is _ _ o).
Qed.

End RegionToggleFacts.

(** X9 on a canvas with a hidden and a visible region of the target. *)
Lemma processRegions_single_target_twice_witness :
  let canvasSVG :=
    sample_canvas [sample_region "region_uid_1" true;
                   sample_region "region_uid_1" false;
                   sample_region "region_uid_2" true] in
  Region.processRegions std_lang std_styles ["uid_1"]
    (Region.processRegions std_lang std_styles ["uid_1"] canvasSVG)
  = canvasSVG.
Proof.
  intros canvasSVG.
  apply (processRegions_single_target_twice std_lang std_styles).
  repeat first [apply Forall_nil_2 | apply Forall_cons; split
               | left; reflexivity | right; reflexivity].
Defined.

(** ** The resize of a Line and the visibility of the regions *)

Section LineResizeFacts.
Context (lang : Lang) (utils : Utils) (styles : Styles) (env : RegionEnv)
  (lenv : LineEnv).

#[local] Existing Instance same_but_xy_refl.
#[local] Existing Instance same_but_xy_trans.

(** The [aria-hidden] values of the regions of a canvas, in document
    order. *)
Definition region_visibility (canvasSVG : Node) : list (option AttrVal) :=
  get_attr "aria-hidden" <$> regions_of styles canvasSVG.

Lemma related_visibility (l l' : list Own) :
  Forall2 same_but_xy l l' ->
  get_attr "aria-hidden"
    <$> filter (fun o => matches (ByClass (region styles)) o = true) l'
  = get_attr "aria-hidden"
    <$> filter (fun o => matches (ByClass (region styles)) o = true) l.
Proof.
  induction 1 as [|o o' l l' (Ht & Hc & Hd & Ha) _ IH]; [reflexivity|].
  assert (Hm : matches (ByClass (region styles)) o'
               = matches (ByClass (region styles)) o).
  { simpl. unfold has_class. by rewrite Hc. }
  rewrite !filter_cons, Hm.
  destruct (decide _); [|exact IH].
  rewrite !fmap_cons, IH. f_equal. unfold get_attr. by apply Ha.
Qed.

(** The Line helper that translates the line and its points is not among
    the sources; it is taken to leave the visibility of the regions
    alone. *)
Hypothesis translateLineGraph_keeps_visibility : forall g,
  region_visibility (svg (translateLineGraph lenv g).1)
  = region_visibility (svg g).

(** X13.  The resize of a Line hides no region and shows none when at most
    one target is shown or the Line declares no regions: the [aria-hidden]
    values of the regions of the canvas are after the resize what they
    were before, whether the resize returns or throws. *)
Theorem Line_resize_keeps_visibility (this : LineObj) (graph : Graph) :
  (length (shownTargets (config graph)) <= 1)%nat
  \/ isEmpty utils (regions (dataTarget this)) = true ->
  region_visibility
    (svg (Line.resize lang utils styles env lenv this graph).1)
  = region_visibility (svg graph).
Proof.
  intros Hfew. unfold Line.resize.
  assert (Hno : Region.shouldHideAllRegions utils (regions (dataTarget this))
                  (shownTargets (config graph)) = false).
  { unfold Region.shouldHideAllRegions, notEmpty.
    destruct Hfew as [Hlen|He]; [|by rewrite He].
    rewrite (bool_decide_eq_false_2 (1 < _)%nat) by lia.
    apply andb_false_r. }
  rewrite Hno.
  destruct (select_first (ByClass (regionGroup styles))
              (Region.translateRegion lang styles env (scale graph)
                 (config graph)) (svg graph)) as [[svg' r]|] eqn:Hsel.
  - assert (Hsvg' : region_visibility svg' = region_visibility (svg graph)).
    { destruct (select_first_related same_but_xy _ _ (svg graph)
                  (translateRegion_related_pair lang styles env (scale graph)
                     (config graph))
                  svg' r Hsel) as [_ Hrel].
      by apply related_visibility. }
    destruct r as [[]|e]; simpl; [|exact Hsvg'].
    by rewrite translateLineGraph_keeps_visibility.
  - destruct (translateLineGraph lenv graph) eqn:Ht.
    change g with ((g, o).1). rewrite <- Ht.
    apply translateLineGraph_keeps_visibility.
Qed.

End LineResizeFacts.

(** X13 on a Graph with one shown target and a visible region. *)
Lemma Line_resize_keeps_visibility_witness :
  let graph :=
    sample_graph ["uid_1"] [0%nat]
      (sample_canvas [sample_region "region_uid_1" false]) in
  let this :=
    {| line_config := empty_target; valuesRange := ∅;
       dataTarget :=
         {| key := JStr "uid_1"; yAxis := "y"; values := [];
            regions := JArr [JObj [("start", JNum (Fin 1))]] |} |} in
  region_visibility std_styles
    (svg (Line.resize std_lang std_utils std_styles std_region_env
            idle_line_env this graph).1)
  = [Some (AStr "false")].
Proof.
  intros graph this.
  apply (Line_resize_keeps_visibility std_lang std_utils std_styles
           std_region_env idle_line_env (fun _ => eq_refl) this graph).
  left. simpl. lia.
Defined.

(** ** The regions [createRegion] draws *)

Section CreateRegionSuccess.
Context (lang : Lang) (utils : Utils) (styles : Styles) (env : RegionEnv).

(** The scale a region is drawn on: [region.axis || constants.Y_AXIS]. *)
Definition region_scale_key (fields : list (string * JsVal)) : string :=
  ToPropertyKey lang
    (if truthy (assoc "axis" fields) then assoc "axis" fields
     else JStr constants.Y_AXIS).

(** A region that can be drawn: an object that passes the validation and
    whose axis has a scale. *)
Definition drawable (scale : Scale) (targetAxis : string) (r : JsVal) : Prop :=
  exists fields,
    r = JObj fields
    /\ Region.validateRegion lang utils r targetAxis = Returns tt
    /\ is_Some (scale !! region_scale_key fields).

(** What [createRegion] leaves for a region: a [rect] bound to the region,
    of the region class, visible, described by the key, placed and
    sized. *)
Definition created_region (config : Config) (uniqueKey : string)
    (r : JsVal) (o : Own) : Prop :=
  tagName o = "rect"
  /\ datum o = r
  /\ classList o = [region styles]
  /\ get_attr "aria-hidden" o = Some (AStr "false")
  /\ get_attr "aria-describedby" o = Some (AStr uniqueKey)
  /\ get_attr constants.X_AXIS o = Some (ANum (getXAxisXPosition env config))
  /\ get_attr "width" o = Some (ANum (getXAxisWidth env config))
  /\ (exists y, get_attr constants.Y_AXIS o = Some (ANum y))
  /\ (exists h, h <> 0 /\ get_attr "height" o = Some (ANum h)).

(** A pass that returns on every element it meets. *)
Lemma pass_step (Q Q' : JsVal -> Own -> Prop) (f : Own -> Outcome Error Own)
    (rs : list JsVal) (l : list Own) :
  Forall2 Q rs l ->
  (forall r o, Q r o -> exists o', f o = Returns o' /\ Q' r o') ->
  exists l', pass f (l, Returns tt) = (l', Returns tt) /\ Forall2 Q' rs l'.
Proof.
  intros Hl Hf. simpl. induction Hl as [|r o rs l Hro _ IH].
  - by exists [].
  - destruct IH as (l' & Hl' & HQ'). destruct (Hf r o Hro) as (o' & Ho' & HQo).
    exists (o' :: l'). simpl. rewrite Ho', Hl'. split; [reflexivity|].
    by constructor.
Qed.

Lemma getYAxisRangePosition_returns (scale : Scale) (config : Config)
    (fields : list (string * JsVal)) :
  is_Some (scale !! region_scale_key fields) ->
  exists y,
    Region.getYAxisRangePosition lang env scale config (JObj fields)
    = Returns y.
Proof.
  intros [s Hs]. unfold Region.getYAxisRangePosition. simpl.
  destruct (truthy (assoc "end" fields)); [|by eexists].
  unfold Region.scale_at. fold (region_scale_key fields). rewrite Hs.
  by eexists.
Qed.

Hypothesis goal_line_width : DEFAULT_REGION_GOAL_LINE_STROKE_WIDTH env <> 0.

Lemma getRegionHeight_returns (scale : Scale) (config : Config)
    (regionPath : Own) (fields : list (string * JsVal)) :
  is_Some (scale !! region_scale_key fields) ->
  exists h,
    h <> 0
    /\ Region.getRegionHeight lang env regionPath (JObj fields) scale config
       = Returns h.
Proof.
  intros [s Hs]. unfold Region.getRegionHeight. simpl.
  destruct (truthy (assoc "start" fields)).
  - unfold Region.scale_at. fold (region_scale_key fields). rewrite Hs. simpl.
    eexists. split; [|reflexivity]. by case_bool_decide.
  - simpl. eexists. split; [|reflexivity]. by case_bool_decide.
Qed.

Ltac next_pass Q' H l' HQ :=
  match goal with
  | |- context [pass ?f (?l, Returns tt)] =>
    let Hl := fresh "Hl" in
    destruct (pass_step _ Q' f _ l H) as (l' & Hl & HQ);
      [|rewrite Hl; clear Hl]
  end.

(** X12.  When the region group holds no [g] element and every region of
    the list can be drawn, [createRegion] returns, and the group has gained
    one [rect] per region, after the children it had and in the order of
    the list: each is bound to its region, carries the region class,
    [aria-hidden="false"] and the key in [aria-describedby], and has its
    position, a width and a height other than 0. *)
Theorem createRegion_draws_visible_rects
    (scale : Scale) (config : Config) (regionGroupSVG : Node)
    (regionList : list JsVal) (uniqueKey targetAxis : string) :
  selected (ByTag "g") regionGroupSVG = [] ->
  Forall (drawable scale targetAxis) regionList ->
  exists rects,
    Region.createRegion lang utils styles env scale config regionGroupSVG
      regionList uniqueKey targetAxis
    = (append_children (leaf <$> rects) regionGroupSVG, Returns tt)
    /\ Forall2 (created_region config uniqueKey) regionList rects.
Proof.
  intros Hnog Hdraw. unfold Region.createRegion.
  rewrite (data_join_no_match _ _ _ Hnog). unfold pass_pure.
  set (base := fun r =>
         set_attr "aria-describedby" (AStr uniqueKey)
           (set_attr "aria-hidden" (attr_of_bool false)
              (add_class (region styles) (new_element "rect" r)))).
  assert (H0 : Forall2 (fun r o => drawable scale targetAxis r
                                   /\ o = new_element "rect" r)
                 regionList (new_element "rect" <$> regionList)).
  { apply Forall2_fmap_r, Forall_Forall2_diag.
    eapply Forall_impl; [exact Hdraw|]. by intros r Hr. }
  next_pass
    (fun r o => drawable scale targetAxis r
                           /\ o = new_element "rect" r)
    H0 l1 H1.
  { intros r o [Hr ->]. exists (new_element "rect" r).
    destruct Hr as (fields & -> & Hv & Hs). simpl. rewrite Hv.
    split; [reflexivity|]. split; [by exists fields|reflexivity]. }
  next_pass
    (fun r o => drawable scale targetAxis r
                           /\ o = add_class (region styles)
                                    (new_element "rect" r))
    H1 l2 H2.
  { intros r o [Hr ->]. eexists. split; [reflexivity|by split]. }
  next_pass
    (fun r o => drawable scale targetAxis r
                           /\ o = set_attr "aria-hidden" (attr_of_bool false)
                                    (add_class (region styles)
                                       (new_element "rect" r)))
    H2 l3 H3.
  { intros r o [Hr ->]. eexists. split; [reflexivity|by split]. }
  next_pass
    (fun r o => drawable scale targetAxis r /\ o = base r)
    H3 l4 H4.
  { intros r o [Hr ->]. eexists. split; [reflexivity|by split]. }
  next_pass
    (fun r o => drawable scale targetAxis r
                           /\ exists st, o = set_attr "style" st (base r))
    H4 l5 H5.
  { intros r o [Hr ->]. destruct Hr as (fields & -> & Hv & Hs).
    eexists. split; [reflexivity|]. split; [by exists fields|by eexists]. }
  next_pass
    (fun r o =>
                  drawable scale targetAxis r
                  /\ exists st,
                       o = set_attr constants.X_AXIS
                             (ANum (getXAxisXPosition env config))
                             (set_attr "style" st (base r)))
    H5 l6 H6.
  { intros r o [Hr (st & ->)]. eexists. split; [reflexivity|].
    split; [done|by eexists]. }
  next_pass
    (fun r o =>
                  drawable scale targetAxis r
                  /\ exists st y,
                       o = set_attr constants.Y_AXIS (ANum y)
                             (set_attr constants.X_AXIS
                                (ANum (getXAxisXPosition env config))
                                (set_attr "style" st (base r))))
    H6 l7 H7.
  { intros r o [Hr (st & ->)].
    pose proof Hr as (fields & -> & Hv & Hs).
    destruct (getYAxisRangePosition_returns scale config fields Hs)
      as (y & Hy).
    eexists. cbn [datum set_attr base add_class new_element]. rewrite Hy.
    split; [reflexivity|]. split; [done|by exists st, y]. }
  next_pass
    (fun r o =>
                  drawable scale targetAxis r
                  /\ exists st y,
                       o = set_attr "width" (ANum (getXAxisWidth env config))
                             (set_attr constants.Y_AXIS (ANum y)
                                (set_attr constants.X_AXIS
                                   (ANum (getXAxisXPosition env config))
                                   (set_attr "style" st (base r)))))
    H7 l8 H8.
  { intros r o [Hr (st & y & ->)]. eexists. split; [reflexivity|].
    split; [done|by exists st, y]. }
  next_pass
    (created_region config uniqueKey)
    H8 l9 H9.
  { intros r o [Hr (st & y & ->)].
    pose proof Hr as (fields & -> & Hv & Hs).
    match goal with
    | |- exists o', (?m ≫= _) = _ /\ _ =>
      match m with
      | Region.getRegionHeight _ _ ?p _ _ _ =>
        destruct (getRegionHeight_returns scale config p fields Hs)
          as (h & Hh0 & Hh)
      end
    end.
    eexists. cbn [datum set_attr base add_class new_element] in *.
    rewrite Hh. split; [reflexivity|].
    unfold created_region, get_attr. cbn.
    repeat split; try reflexivity; [by exists y|exists h; by split]. }
  by exists l9.
Qed.

End CreateRegionSuccess.

(** A scale object with a linear [y] scale, for concrete runs. *)
Definition sample_scale : Scale :=
  {[ constants.Y_AXIS :=
       {| kind := LinearScaleKind;
          scale_domain := JArr [JNum (Fin 0); JNum (Fin 20)];
          scale_range := [JNum (Fin 200); JNum (Fin 0)];
          clamp := true; nice := true |} ]}.

(** X12 on a band and on a region without an end. *)
Lemma createRegion_draws_visible_rects_witness :
  exists rects,
    Region.createRegion std_lang std_utils std_styles std_region_env
      sample_scale (sample_config []) (leaf (new_element "g" JUndefined))
      [JObj [("start", JNum (Fin 1)); ("end", JNum (Fin 5))];
       JObj [("start", JNum (Fin 3))]]
      "region_uid_1" "y"
    = (append_children (leaf <$> rects) (leaf (new_element "g" JUndefined)),
       Returns tt)
    /\ Forall2 (created_region std_styles std_region_env (sample_config [])
                  "region_uid_1")
         [JObj [("start", JNum (Fin 1)); ("end", JNum (Fin 5))];
          JObj [("start", JNum (Fin 3))]]
         rects.
Proof.
  apply (createRegion_draws_visible_rects std_lang std_utils std_styles
           std_region_env).
  - simpl. lia.
  - reflexivity.
  - repeat first
      [ apply Forall_nil_2
      | apply Forall_cons; split
      | eexists; split; [reflexivity|]; split; [reflexivity|];
        eexists; vm_compute; reflexivity ].
Defined.

(** ** Value ranges at the edges: no values, gaps only, values that are not
    numbers *)

Section ValueRangeEdges.
Context (lang : Lang).

Lemma Math_min_num_NaN (l : list JsNumber) :
  NaN ∈ l -> Math_min_num l = NaN.
Proof.
  unfold Math_min_num. induction l as [|a l IH]; intros Hin.
  - by apply elem_of_nil in Hin.
  - apply elem_of_cons in Hin as [<-|Hin]; [reflexivity|].
    simpl. rewrite (IH Hin). by destruct a.
Qed.

Lemma Math_max_num_NaN (l : list JsNumber) :
  NaN ∈ l -> Math_max_num l = NaN.
Proof.
  unfold Math_max_num. induction l as [|a l IH]; intros Hin.
  - by apply elem_of_nil in Hin.
  - apply elem_of_cons in Hin as [<-|Hin]; [reflexivity|].
    simpl. rewrite (IH Hin). by destruct a.
Qed.

(** X14.  Whatever the values of a Bar are (numbers, [null], [undefined],
    strings, none at all), the range [calculateValuesRange] returns is never
    [NaN] and contains 0: its minimum is 0 or below, its maximum 0 or
    above. *)
Theorem Bar_calculateValuesRange_never_NaN
    (values : list DataPoint) (axis_name : string) :
  exists lo hi : JsNumber,
    Bar.calculateValuesRange lang values axis_name
      = {[ axis_name := {| min := lo; max := hi |} ]}
    /\ (lo = Fin 0 \/ num_lt lo (Fin 0) = true)
    /\ (hi = Fin 0 \/ num_lt (Fin 0) hi = true)
    /\ lo <> NaN /\ hi <> NaN.
Proof.
  unfold Bar.calculateValuesRange, num_gt.
  set (lo := Math_min lang (y <$> values)).
  set (hi := Math_max lang (y <$> values)).
  exists (if num_lt lo (Fin 0) then lo else Fin 0),
         (if num_lt (Fin 0) hi then hi else Fin 0).
  split; [reflexivity|].
  destruct (num_lt lo (Fin 0)) eqn:Hlo, (num_lt (Fin 0) hi) eqn:Hhi;
    repeat split; auto; try discriminate;
    intros ->; discriminate.
Qed.

(** X15.  A Line without a point that is not a gap, an empty value list
    among them, has the range from [Infinity] to [-Infinity]: the minimum
    is above the maximum. *)
Theorem Line_calculateValuesRange_gaps_only
    (values : list DataPoint) (axis_name : string) :
  Forall (fun p => y p = JNull) values ->
  Line.calculateValuesRange lang values axis_name
  = {[ axis_name := {| min := Infinity; max := NegInfinity |} ]}.
Proof.
  intros Hall. unfold Line.calculateValuesRange.
  replace (filter (fun i => is_null (y i) = false) values) with (@nil DataPoint);
    [reflexivity|].
  induction Hall as [|p values Hp _ IH]; [reflexivity|].
  rewrite filter_cons_False by (rewrite Hp; simpl; congruence). exact IH.
Qed.

(** X16.  Only [null] marks a gap: a point whose [y] is [undefined] is
    kept, and one such point makes both ends of the range of a Line
    [NaN]. *)
Theorem Line_calculateValuesRange_undefined_y
    (values : list DataPoint) (axis_name : string) (p : DataPoint) :
  p ∈ values ->
  y p = JUndefined ->
  Line.calculateValuesRange lang values axis_name
  = {[ axis_name := {| min := NaN; max := NaN |} ]}.
Proof.
  intros Hp Hy. unfold Line.calculateValuesRange, Math_min, Math_max.
  assert (Hin : NaN ∈ ToNumber lang
                  <$> (y <$> filter (fun i => is_null (y i) = false) values)).
  { apply list_elem_of_fmap. exists JUndefined. split; [reflexivity|].
    apply list_elem_of_fmap. exists p. split; [by rewrite Hy|].
    apply list_elem_of_filter. split; [by rewrite Hy|exact Hp]. }
  by rewrite (Math_min_num_NaN _ Hin), (Math_max_num_NaN _ Hin).
Qed.

End ValueRangeEdges.

(** X15 on a list of two gaps. *)
Lemma Line_calculateValuesRange_gaps_only_witness :
  Line.calculateValuesRange std_lang
    [ {| x := JNum (Fin 1); y := JNull |};
      {| x := JNum (Fin 2); y := JNull |} ] "y2"
  = {[ "y2" := {| min := Infinity; max := NegInfinity |} ]}.
Proof.
  apply (Line_calculateValuesRange_gaps_only std_lang).
  repeat first [apply Forall_nil_2 | apply Forall_cons; split | reflexivity].
Defined.

(** X16 on a list with a point that has no [y]. *)
Lemma Line_calculateValuesRange_undefined_y_witness :
  Line.calculateValuesRange std_lang
    [ {| x := JNum (Fin 1); y := JNum (Fin 4) |};
      {| x := JNum (Fin 2); y := JUndefined |} ] "y"
  = {[ "y" := {| min := NaN; max := NaN |} ]}.
Proof.
  apply (Line_calculateValuesRange_undefined_y std_lang _ _
           {| x := JNum (Fin 2); y := JUndefined |}).
  - apply list_elem_of_further, list_elem_of_here.
  - reflexivity.
Defined.

(** ** The tracks of a Gantt chart *)

(** The sum of a list of heights. *)
Definition total (hs : list Z) : Z := foldr Z.add 0 hs.

(** A key that an object lists at the place of its insertion: it is no
    array index, and it is not [__proto__]. *)
Definition plain_key (k : string) : Prop :=
  Gantt.array_index k = None /\ k <> Gantt.proto_key.

#[global] Instance plain_key_dec (k : string) : Decision (plain_key k).
Proof. unfold plain_key. apply _. Defined.

Section GanttTrackFacts.
Context (lang : Lang) (utils : Utils) (genv : Gantt.GanttEnv).

Lemma total_app (l k : list Z) : total (l ++ k) = total l + total k.
Proof. unfold total. induction l as [|a l IH]; simpl; lia. Qed.

Lemma total_nonneg (l : list Z) : Forall (fun h => 0 <= h) l -> 0 <= total l.
Proof. unfold total. induction 1; simpl; lia. Qed.

(** An integer of at most 53 bits is a double. *)
Lemma round_double_exact (z : Z) :
  - 2 ^ 53 <= z <= 2 ^ 53 -> round_double z = Fin z.
Proof.
  intros Hz. unfold round_double.
  by rewrite bool_decide_eq_true_2 by lia.
Qed.

(** Heights that are not negative add up without rounding as long as
    their sum has at most 53 bits. *)
Lemma foldl_js_add_fin (a : Z) (l : list Z) :
  0 <= a -> Forall (fun h => 0 <= h) l -> a + total l <= 2 ^ 53 ->
  foldl (js_add lang) (JNum (Fin a)) ((fun h => JNum (Fin h)) <$> l)
  = JNum (Fin (a + total l)).
Proof.
  revert a. induction l as [|b l IH]; intros a Ha Hl Hsum; simpl.
  - do 2 f_equal. unfold total. simpl. lia.
  - apply Forall_cons in Hl as [Hb Hl].
    pose proof (total_nonneg l Hl) as Hnn.
    unfold total in Hsum, Hnn |- *. simpl in Hsum |- *.
    unfold js_add at 2. simpl.
    rewrite round_double_exact by lia.
    rewrite IH by (try done; unfold total; lia).
    do 2 f_equal. unfold total. lia.
Qed.

(** The track heights of a track list are the numbers [hs], none of them
    negative, and their sum has at most 53 bits: the heights add up
    without rounding. *)
Definition track_heights (trackList : list (string * Track)) (hs : list Z)
    : Prop :=
  (fun kv => trackHeight kv.2) <$> trackList = (fun h => JNum (Fin h)) <$> hs
  /\ Forall (fun h => 0 <= h) hs
  /\ total hs <= 2 ^ 53.

Lemma getYAxisRange_length (trackList : list (string * Track)) :
  length (Gantt.getYAxisRange lang trackList) = length trackList.
Proof. unfold Gantt.getYAxisRange. by rewrite length_imap, length_fmap. Qed.

Lemma total_take_le (hs : list Z) (n : nat) :
  Forall (fun h => 0 <= h) hs -> 0 <= total (take n hs) <= total hs.
Proof.
  intros Hhs. rewrite <- (take_drop n hs) at 3. rewrite total_app.
  assert (0 <= total (take n hs)) by (by apply total_nonneg, Forall_take).
  assert (0 <= total (drop n hs)) by (by apply total_nonneg, Forall_drop).
  lia.
Qed.

Lemma getYAxisRange_lookup
    (trackList : list (string * Track)) (hs : list Z) (i : nat) (h : Z) :
  track_heights trackList hs ->
  hs !! i = Some h ->
  Gantt.getYAxisRange lang trackList !! i
  = Some (JNum (Fin (total (take (S i) hs)))).
Proof.
  intros (Hhs & Hnn & Hsum) Hi. unfold Gantt.getYAxisRange.
  rewrite list_lookup_imap, Hhs, list_lookup_fmap, Hi.
  cbn [fmap option_fmap option_map]. f_equal.
  pose proof (total_take_le hs (S i) Hnn) as Hle.
  rewrite (take_S_r _ _ _ Hi), total_app in Hle |- *.
  pose proof (total_take_le hs i Hnn) as Hle'.
  assert (Hh : 0 <= h).
  { rewrite Forall_forall in Hnn. apply Hnn. by eapply list_elem_of_lookup_2. }
  assert (Hth : total [h] = h) by (unfold total; simpl; lia).
  rewrite Hth in Hle |- *.
  destruct i as [|i].
  - rewrite bool_decide_eq_false_2 by lia. reflexivity.
  - rewrite bool_decide_eq_true_2 by lia.
    rewrite <- fmap_take, foldl_js_add_fin;
      [|lia|by apply Forall_take|lia].
    unfold js_add. simpl. rewrite round_double_exact by lia.
    do 2 f_equal. lia.
Qed.


Context (tenv : GanttTracks.TrackEnv).


Lemma obj_insert_plain {V : Type} (k : string) (v : V)
    (obj : list (string * V)) :
  Gantt.array_index k = None -> Gantt.obj_insert k v obj = obj ++ [(k, v)].
Proof.
  intros Hk. induction obj as [|[k' v'] obj IH]; [reflexivity|].
  simpl. unfold Gantt.key_before. rewrite Hk. by rewrite IH.
Qed.

(** Setting a plain key that the object does not hold appends the entry. *)
Lemma obj_set_fresh {V : Type} (k : string) (v : V) (obj : list (string * V)) :
  k ∉ obj.*1 -> plain_key k -> Gantt.obj_set k v obj = obj ++ [(k, v)].
Proof.
  intros Hk [Hindex Hproto]. unfold Gantt.obj_set.
  rewrite bool_decide_eq_false_2 by done.
  rewrite bool_decide_eq_false_2 by done.
  by apply obj_insert_plain.
Qed.

(** An array of entries with distinct plain keys is the object built from
    it. *)
Lemma foldl_obj_set_NoDup {V : Type} (l acc : list (string * V)) :
  NoDup (acc.*1 ++ l.*1) ->
  Forall plain_key l.*1 ->
  foldl (fun obj (kv : string * V) => Gantt.obj_set kv.1 kv.2 obj) acc l
  = acc ++ l.
Proof.
  revert acc. induction l as [|[k v] l IH]; intros acc Hnd Hplain; simpl.
  - by rewrite app_nil_r.
  - simpl in Hnd, Hplain. apply Forall_cons in Hplain as [Hpk Hplain].
    apply NoDup_app in Hnd as (Hacc & Hdisj & Hl).
    apply NoDup_cons in Hl as [Hk Hl].
    rewrite obj_set_fresh;
      [|intros Hin; apply (Hdisj k Hin); left|exact Hpk].
    rewrite IH; [by rewrite <- app_assoc| |exact Hplain].
    rewrite fmap_app. simpl. rewrite <- app_assoc. simpl.
    apply NoDup_app. split; [exact Hacc|]. split.
    + intros x Hx Hx'. apply elem_of_cons in Hx' as [->|Hx'].
      * apply (Hdisj k Hx). left.
      * apply (Hdisj x Hx). by right.
    + by apply NoDup_cons.
Qed.

Lemma NoDup_insert_middle (i : nat) (k : string) (t : Track)
    (tl : list (string * Track)) :
  NoDup tl.*1 -> k ∉ tl.*1 ->
  NoDup (take i tl ++ (k, t) :: drop i tl).*1.
Proof.
  intros Hnd Hk. rewrite fmap_app, fmap_cons. simpl.
  apply (NoDup_Permutation_proper _ (k :: (take i tl).*1 ++ (drop i tl).*1)).
  - symmetry. apply Permutation_middle.
  - apply NoDup_cons. rewrite <- fmap_app, take_drop. by split.
Qed.

Lemma plain_insert_middle (i : nat) (k : string) (t : Track)
    (tl : list (string * Track)) :
  Forall plain_key tl.*1 -> plain_key k ->
  Forall plain_key (take i tl ++ (k, t) :: drop i tl).*1.
Proof.
  intros Htl Hk. rewrite fmap_app, fmap_cons. simpl.
  apply Forall_app. split; [rewrite fmap_take; by apply Forall_take|].
  apply Forall_cons. split; [exact Hk|].
  rewrite fmap_drop. by apply Forall_drop.
Qed.

(** The object [updateTrackList] builds back from an array in which a
    track with a new plain key has been put is that array. *)
Lemma rebuilt_track_list (i : nat) (k : string) (t : Track)
    (tl : list (string * Track)) :
  NoDup tl.*1 -> Forall plain_key tl.*1 -> k ∉ tl.*1 -> plain_key k ->
  foldl (fun obj (kv : string * Track) => Gantt.obj_set kv.1 kv.2 obj) []
    (take i tl ++ (k, t) :: drop i tl)
  = take i tl ++ (k, t) :: drop i tl.
Proof.
  intros Hnd Hplain Hk Hpk.
  rewrite (foldl_obj_set_NoDup _ []); [reflexivity| |].
  - simpl. by apply NoDup_insert_middle.
  - by apply plain_insert_middle.
Qed.

(** What [updateTrackList] returns for a plain key the list does not
    hold. *)
Lemma updateTrackList_fresh (content trackIndex : JsVal)
    (tl tl' : list (string * Track)) (k : JsVal) :
  Gantt.updateTrackList lang genv content trackIndex tl = Returns tl' ->
  get_prop content "key" = Returns k ->
  NoDup tl.*1 -> Forall plain_key tl.*1 ->
  ToPropertyKey lang k ∉ tl.*1 -> plain_key (ToPropertyKey lang k) ->
  exists (t : Track),
    tl' = Gantt.splice_insert (ToNumber lang trackIndex)
            (ToPropertyKey lang k, t) tl.
Proof.
  intros Hret Hkey Hnd Hplain Hk Hpk. unfold Gantt.updateTrackList in Hret.
  rewrite Hkey in Hret. simpl in Hret.
  destruct (get_prop content "dimension") as [dim|] eqn:Hdim;
    simpl in Hret; [|discriminate].
  destruct (if truthy dim then get_prop dim "trackHeight"
            else mret (Gantt.DEFAULT_GANTT_TRACK_HEIGHT genv)) as [h|];
    simpl in Hret; [|discriminate].
  destruct (get_prop content "trackLabel") as [lbl|]; simpl in Hret;
    [|discriminate].
  destruct (get_prop lbl "display") as [display|]; simpl in Hret;
    [|discriminate].
  injection Hret as <-. eexists.
  unfold Gantt.splice_insert. by rewrite rebuilt_track_list.
Qed.

(** [updateTrackList] for a plain key the list does not hold, at an index
    that is not negative: the list with the new track spliced in. *)
Lemma updateTrackList_splices
    (fields label : list (string * JsVal)) (z : Z)
    (tl : list (string * Track)) :
  let k := ToPropertyKey lang (assoc "key" fields) in
  let i := Nat.min (Z.to_nat z) (length tl) in
  assoc "trackLabel" fields = JObj label ->
  NoDup tl.*1 -> Forall plain_key tl.*1 ->
  k ∉ tl.*1 -> plain_key k ->
  0 <= z ->
  exists h : JsVal,
    Gantt.updateTrackList lang genv (JObj fields) (JNum (Fin z)) tl
    = Returns (take i tl
               ++ (k, {| trackHeight := h;
                         trackLabel := assoc "display" label |})
                  :: drop i tl)
    /\ (truthy (assoc "dimension" fields) = false ->
        h = Gantt.DEFAULT_GANTT_TRACK_HEIGHT genv).
Proof.
  intros k i Hlabel Hnd Hplain Hk Hpk Hz. unfold Gantt.updateTrackList. simpl.
  assert (Hh : exists h,
            (if truthy (assoc "dimension" fields)
             then get_prop (assoc "dimension" fields) "trackHeight"
             else mret (Gantt.DEFAULT_GANTT_TRACK_HEIGHT genv)) = Returns h
            /\ (truthy (assoc "dimension" fields) = false ->
                h = Gantt.DEFAULT_GANTT_TRACK_HEIGHT genv)).
  { destruct (assoc "dimension" fields) as [| |b|n|s|l|f] eqn:Hd; simpl;
      repeat case_match; eexists; (split; [reflexivity|done]). }
  destruct Hh as (h & -> & Hdefault). simpl. rewrite Hlabel. simpl.
  exists h.
  assert (Hsplice :
    Gantt.splice_insert (Fin z)
      (k, {| trackHeight := h; trackLabel := assoc "display" label |}) tl
    = take i tl
      ++ (k, {| trackHeight := h; trackLabel := assoc "display" label |})
         :: drop i tl).
  { unfold Gantt.splice_insert, Gantt.splice_start.
    by rewrite bool_decide_eq_false_2 by lia. }
  fold k. rewrite Hsplice, rebuilt_track_list by done.
  split; [reflexivity|exact Hdefault].
Qed.

(** X19.  [updateTrackList] for a track whose key the track list does not
    hold yet, at an index that is not negative, the keys being plain (no
    array index, not [__proto__]): the track list gains the track at that
    index, or at its end when the index is past it, and the tracks it had
    keep their order; the new track has the label [trackLabel.display] and,
    without a [dimension], the default height; the keys stay distinct. *)
Theorem updateTrackList_inserts_fresh_key
    (fields label : list (string * JsVal)) (z : Z)
    (tl : list (string * Track)) :
  let k := ToPropertyKey lang (assoc "key" fields) in
  let i := Nat.min (Z.to_nat z) (length tl) in
  assoc "trackLabel" fields = JObj label ->
  NoDup tl.*1 -> Forall plain_key tl.*1 ->
  k ∉ tl.*1 -> plain_key k ->
  0 <= z ->
  exists t : Track,
    Gantt.updateTrackList lang genv (JObj fields) (JNum (Fin z)) tl
    = Returns (take i tl ++ (k, t) :: drop i tl)
    /\ trackLabel t = assoc "display" label
    /\ (truthy (assoc "dimension" fields) = false ->
        trackHeight t = Gantt.DEFAULT_GANTT_TRACK_HEIGHT genv)
    /\ NoDup (take i tl ++ (k, t) :: drop i tl).*1.
Proof.
  intros k i Hlabel Hnd Hplain Hk Hpk Hz.
  destruct (updateTrackList_splices fields label z tl Hlabel Hnd Hplain Hk
              Hpk Hz) as (h & Hupd & Hdefault).
  exists {| trackHeight := h; trackLabel := assoc "display" label |}.
  split; [exact Hupd|]. split; [reflexivity|]. split; [exact Hdefault|].
  by apply NoDup_insert_middle.
Qed.

(** X20.  [prepareLoadAtIndex] for a track without [loadAtIndex] whose key
    is not in the track list, the keys being plain: the track is put at the
    place [length] of the track list, its end when [length] is the number
    of tracks, [length] is returned, and the scale is not touched. *)
Theorem prepareLoadAtIndex_appends_without_index
    (scale : Scale) (config : Config) (fields label : list (string * JsVal))
    (n : Z) :
  let tl := trackList (axis_y (axis config)) in
  let k := ToPropertyKey lang (assoc "key" fields) in
  let i := Nat.min (Z.to_nat n) (length tl) in
  Gantt.validateContent genv (JObj fields) = Returns tt ->
  isEmpty utils (JObj fields) = false ->
  isEmpty utils (assoc "loadAtIndex" fields) = true ->
  assoc "trackLabel" fields = JObj label ->
  NoDup tl.*1 -> Forall plain_key tl.*1 ->
  k ∉ tl.*1 -> plain_key k -> 0 <= n ->
  exists t : Track,
    Gantt.prepareLoadAtIndex lang utils genv scale config (JObj fields)
      (JNum (Fin n))
    = (scale,
       Gantt.set_trackList (take i tl ++ (k, t) :: drop i tl) config,
       Returns (JNum (Fin n)))
    /\ trackLabel t = assoc "display" label.
Proof.
  intros tl k i Hvalid Hobj Hindex Hlabel Hnd Hplain Hk Hpk Hn.
  destruct (updateTrackList_splices fields label n tl Hlabel Hnd Hplain Hk
              Hpk Hn) as (h & Hupd & _).
  exists {| trackHeight := h; trackLabel := assoc "display" label |}.
  split; [|reflexivity].
  unfold Gantt.prepareLoadAtIndex, notEmpty.
  rewrite Hvalid, Hobj. simpl. rewrite Hindex. simpl.
  fold tl. by rewrite Hupd.
Qed.

(** An array of values whose strings are distinct is the domain an
    ordinal scale keeps of it. *)
Lemma ordinal_domain_NoDup (seen : list string) (x : list JsVal) :
  NoDup (seen ++ (ToString lang <$> x)) ->
  Gantt.ordinal_domain lang seen x = x.
Proof.
  revert seen. induction x as [|xi x IH]; intros seen Hnd; [reflexivity|].
  simpl in *. apply NoDup_app in Hnd as (Hseen & Hdisj & Hx).
  apply NoDup_cons in Hx as [Hxi Hx].
  rewrite bool_decide_eq_false_2
    by (intros Hin; apply (Hdisj _ Hin); left).
  f_equal. apply IH. simpl. apply NoDup_cons. split.
  - intros Hin. apply elem_of_app in Hin as [Hin|Hin]; [|done].
    apply (Hdisj _ Hin). left.
  - apply NoDup_app. split; [exact Hseen|]. split; [|exact Hx].
    intros s Hs Hs'. apply (Hdisj s Hs). by right.
Qed.

(** X21.  [prepareLoadAtIndex] for a track whose [loadAtIndex] is a number
    that is not negative and whose key is not in the track list, the keys
    being plain, on a configuration whose x domain is an array and whose x
    scale, if it is to be made nice, is made nice without an error: the
    track is put at that index of the track list, or at its end when the
    index is past it, the index is returned, and the graph is scaled
    again.  The [y] scale is the ordinal scale over the labels of the
    tracks in their new order, each label once, which is all the labels
    when their strings are distinct; its range has one point more than
    there are tracks.  The [x] scale is a clamped time scale, and no other
    scale is touched. *)
Theorem prepareLoadAtIndex_inserts_at_index
    (scale : Scale) (config : Config) (fields label : list (string * JsVal))
    (length_arg : JsVal) (z : Z) (xs : list JsVal) :
  let tl := trackList (axis_y (axis config)) in
  let k := ToPropertyKey lang (assoc "key" fields) in
  let i := Nat.min (Z.to_nat z) (length tl) in
  Gantt.validateContent genv (JObj fields) = Returns tt ->
  isEmpty utils (JObj fields) = false ->
  assoc "loadAtIndex" fields = JNum (Fin z) ->
  isEmpty utils (JNum (Fin z)) = false ->
  assoc "trackLabel" fields = JObj label ->
  NoDup tl.*1 -> Forall plain_key tl.*1 ->
  k ∉ tl.*1 -> plain_key k -> 0 <= z ->
  domain (axis_x (axis config)) = JArr xs ->
  (truthy (rangeRounding (axis_x (axis config))) = true ->
   exists d,
     Gantt.time_nice genv ((fun v => JNum (ToNumber lang v)) <$> xs)
     = Returns d) ->
  exists (t : Track) (scale' : Scale) (sx sy : D3Scale),
    let tl' := take i tl ++ (k, t) :: drop i tl in
    Gantt.prepareLoadAtIndex lang utils genv scale config (JObj fields)
      length_arg
    = (scale', Gantt.set_trackList tl' config, Returns (JNum (Fin z)))
    /\ trackLabel t = assoc "display" label
    /\ scale' !! constants.Y_AXIS = Some sy
    /\ kind sy = OrdinalScaleKind
    /\ scale_domain sy
       = JArr (Gantt.ordinal_domain lang [] (Gantt.getYAxisDomain utils tl'))
    /\ (NoDup (ToString lang <$> Gantt.getYAxisDomain utils tl') ->
        scale_domain sy = JArr (Gantt.getYAxisDomain utils tl'))
    /\ scale_range sy = JNum (Fin 0) :: Gantt.getYAxisRange lang tl'
    /\ length (scale_range sy) = S (length tl')
    /\ scale' !! constants.X_AXIS = Some sx
    /\ kind sx = TimeScaleKind
    /\ clamp sx = true
    /\ (forall a, a <> constants.X_AXIS -> a <> constants.Y_AXIS ->
          scale' !! a = scale !! a).
Proof.
  intros tl k i Hvalid Hobj Hindex Hne Hlabel Hnd Hplain Hk Hpk Hz Hdom Hnice.
  destruct (updateTrackList_splices fields label z tl Hlabel Hnd Hplain Hk
              Hpk Hz) as (h & Hupd & _).
  set (t := {| trackHeight := h; trackLabel := assoc "display" label |}) in *.
  set (tl' := take i tl ++ (k, t) :: drop i tl) in *.
  assert (Hscale : exists scale' sx,
            Gantt.scaleGraph lang utils genv scale
              (Gantt.set_trackList tl' config)
            = (scale', Returns tt)
            /\ scale' !! constants.Y_AXIS
               = Some {| kind := OrdinalScaleKind;
                         scale_domain :=
                           JArr (Gantt.ordinal_domain lang []
                                   (Gantt.getYAxisDomain utils tl'));
                         scale_range :=
                           JNum (Fin 0) :: Gantt.getYAxisRange lang tl';
                         clamp := false; nice := false |}
            /\ scale' !! constants.X_AXIS = Some sx
            /\ kind sx = TimeScaleKind /\ clamp sx = true
            /\ (forall a, a <> constants.X_AXIS -> a <> constants.Y_AXIS ->
                  scale' !! a = scale !! a)).
  { unfold Gantt.scaleGraph. cbn [Gantt.set_trackList axis axis_x axis_y
      trackList]. rewrite Hdom.
    destruct (truthy (rangeRounding (axis_x (axis config)))) eqn:Hrr.
    - destruct (Hnice eq_refl) as [d ->].
      eexists _, _. split; [reflexivity|].
      split; [etrans; [by apply lookup_insert_ne|apply lookup_insert_eq]|].
      split; [apply lookup_insert_eq|].
      split; [reflexivity|]. split; [reflexivity|].
      intros a Hx Hy.
      etrans; [apply lookup_insert_ne; congruence|].
      etrans; [apply lookup_insert_ne; congruence|].
      apply lookup_insert_ne. congruence.
    - eexists _, _. split; [reflexivity|].
      split; [apply lookup_insert_eq|].
      split; [etrans; [by apply lookup_insert_ne|apply lookup_insert_eq]|].
      split; [reflexivity|]. split; [reflexivity|].
      intros a Hx Hy.
      etrans; [apply lookup_insert_ne; congruence|].
      apply lookup_insert_ne. congruence. }
  destruct Hscale as (scale' & sx & Hrun & Hy & Hx & Hkind & Hclamp & Hrest).
  exists t, scale', sx. eexists. cbv zeta. fold tl'.
  split.
  { unfold Gantt.prepareLoadAtIndex, notEmpty.
    rewrite Hvalid, Hobj. simpl. rewrite Hindex, Hne. simpl.
    rewrite bool_decide_eq_false_2 by lia.
    fold tl. rewrite Hupd. subst tl' i k. by rewrite Hrun. }
  split; [reflexivity|]. split; [exact Hy|].
  split; [reflexivity|]. split; [reflexivity|].
  split; [intros Hlabels; cbn [scale_domain]; f_equal;
          by apply ordinal_domain_NoDup|].
  split; [reflexivity|].
  split; [cbn [scale_range length]; by rewrite getYAxisRange_length|].
  done.
Qed.

Lemma obj_delete_absent (k : string) (l : list (string * Track)) :
  k ∉ l.*1 -> GanttTracks.obj_delete k l = l.
Proof.
  unfold GanttTracks.obj_delete.
  induction l as [|[k' t'] l IH]; intros Hk; [reflexivity|].
  simpl in Hk. apply not_elem_of_cons in Hk as [Hne Hk].
  rewrite filter_cons_True by (simpl; congruence). by rewrite IH.
Qed.

Lemma obj_delete_inserted (i : nat) (k : string) (t : Track)
    (tl : list (string * Track)) :
  k ∉ tl.*1 ->
  GanttTracks.obj_delete k (take i tl ++ (k, t) :: drop i tl) = tl.
Proof.
  intros Hk. rewrite <- (take_drop i tl), fmap_app in Hk.
  apply not_elem_of_app in Hk as [Htake Hdrop].
  unfold GanttTracks.obj_delete.
  rewrite filter_app, filter_cons_False by (simpl; tauto).
  fold (GanttTracks.obj_delete k (take i tl)).
  fold (GanttTracks.obj_delete k (drop i tl)).
  rewrite !obj_delete_absent by done. apply take_drop.
Qed.

(** X22.  Loading a track whose key is not in the track list and unloading
    it again, the keys being plain, leaves the configuration as it was:
    after [prepareLoadAtIndex] has returned, [updateTrackProps] for the
    load and then for the unload give back the track list, in its order,
    and the track count. *)
Theorem track_load_unload_round_trip
    (scale scale1 : Scale) (config config1 : Config)
    (content length_arg key_val index : JsVal) :
  let tl := trackList (axis_y (axis config)) in
  get_prop content "key" = Returns key_val ->
  NoDup tl.*1 -> Forall plain_key tl.*1 ->
  ToPropertyKey lang key_val ∉ tl.*1 ->
  plain_key (ToPropertyKey lang key_val) ->
  Gantt.prepareLoadAtIndex lang utils genv scale config content length_arg
  = (scale1, config1, Returns index) ->
  GanttTracks.updateTrackProps lang
    (GanttTracks.updateTrackProps lang config1 content true).1 content false
  = (config, Returns tt).
Proof.
  intros tl Hkey Hnd Hplain Hk Hpk Hprep.
  assert (Hconfig1 : exists i t,
            config1 = Gantt.set_trackList
                        (take i tl ++ (ToPropertyKey lang key_val, t)
                                      :: drop i tl) config).
  { unfold Gantt.prepareLoadAtIndex in Hprep.
    destruct (Gantt.validateContent genv content); [|discriminate].
    destruct (if notEmpty utils content
              then i ← get_prop content "loadAtIndex";
                   mret (if notEmpty utils i then Some i else None)
              else mret None) as [[loadAtIndex|]|]; [| |discriminate].
    - destruct (num_lt _ _); [discriminate|].
      destruct (Gantt.updateTrackList lang genv content loadAtIndex _)
        as [tl'|] eqn:Hupd; [|discriminate].
      destruct (Gantt.scaleGraph _ _ _ _ _) as [scale' [[]|e]];
        [|discriminate].
      injection Hprep as _ <- _.
      destruct (updateTrackList_fresh _ _ _ _ _ Hupd Hkey Hnd Hplain Hk Hpk)
        as (t & ->).
      by eexists _, t.
    - destruct (Gantt.updateTrackList lang genv content length_arg _)
        as [tl'|] eqn:Hupd; [|discriminate].
      injection Hprep as _ <- _.
      destruct (updateTrackList_fresh _ _ _ _ _ Hupd Hkey Hnd Hplain Hk Hpk)
        as (t & ->).
      by eexists _, t. }
  destruct Hconfig1 as (i & t & ->).
  unfold GanttTracks.updateTrackProps. simpl. rewrite Hkey.
  f_equal. destruct config as [[ax ay ay2] cw ht pd sz lw shown dl ot].
  destruct ay as [ty dom tk ori rr dr tlist tc]. simpl in *.
  unfold GanttTracks.set_axis_y, Gantt.set_trackList. simpl.
  rewrite (obj_delete_inserted i _ t tl Hk).
  by replace (tc + 1 - 1) with tc by lia.
Qed.

End GanttTrackFacts.

(** A track list, a Gantt configuration with the x domain of one day, to
    be made nice, and a track content, for concrete runs. *)
Definition sample_tracks : list (string * Track) :=
  [("track 1", {| trackHeight := JNum (Fin 80); trackLabel := JStr "Track 1" |});
   ("track 2", {| trackHeight := JNum (Fin 41); trackLabel := JStr "Track 2" |});
   ("track 3", {| trackHeight := JNum (Fin 50); trackLabel := JStr "Track 3" |})].

Definition sample_track_config : Config :=
  let config := sample_config [] in
  {| axis :=
       {| axis_x :=
            {| type := TIME_SERIES;
               domain := JArr [JNum (Fin 1451606400000);
                               JNum (Fin 1451692800000)];
               ticks := JUndefined; orientation := JUndefined;
               rangeRounding := JBool true; dataRange := None;
               trackList := []; trackCount := 0 |};
          axis_y :=
            {| type := OtherAxisType "default"; domain := JUndefined;
               ticks := JUndefined; orientation := JUndefined;
               rangeRounding := JUndefined; dataRange := None;
               trackList := sample_tracks; trackCount := 3 |};
          axis_y2 := sample_axis |};
     canvasWidth := canvasWidth config; height := height config;
     padding := padding config; axisSizes_y := axisSizes_y config;
     axisLabelWidths_y := axisLabelWidths_y config;
     shownTargets := []; dateline := JArr []; others := [] |}.

Definition sample_track_content (loadAtIndex : JsVal) : JsVal :=
  JObj [("key", JStr "track 4");
        ("trackLabel", JObj [("display", JStr "Track 4")]);
        ("loadAtIndex", loadAtIndex)].



(** X19 on a fourth track put at the index 1. *)
Lemma updateTrackList_inserts_fresh_key_witness :
  exists t : Track,
    Gantt.updateTrackList std_lang Gantt.std_gantt_env
      (sample_track_content (JNum (Fin 1))) (JNum (Fin 1)) sample_tracks
    = Returns (take 1 sample_tracks ++ ("track 4", t) :: drop 1 sample_tracks)
    /\ trackLabel t = JStr "Track 4"
    /\ trackHeight t = JNum (Fin 41)
    /\ NoDup (take 1 sample_tracks ++ ("track 4", t) :: drop 1 sample_tracks).*1.
Proof.
  destruct (updateTrackList_inserts_fresh_key std_lang Gantt.std_gantt_env
              [("key", JStr "track 4");
               ("trackLabel", JObj [("display", JStr "Track 4")]);
               ("loadAtIndex", JNum (Fin 1))]
              [("display", JStr "Track 4")] 1 sample_tracks)
    as (t & Hupd & Hlabel & Hheight & Hnd).
  - reflexivity.
  - apply (bool_decide_unpack _). vm_compute. exact I.
  - apply (bool_decide_unpack _). vm_compute. exact I.
  - apply (bool_decide_unpack _). vm_compute. exact I.
  - apply (bool_decide_unpack _). vm_compute. exact I.
  - lia.
  - exists t. split; [exact Hupd|]. split; [exact Hlabel|].
    split; [exact (Hheight eq_refl)|exact Hnd].
Defined.

(** X20 on a fourth track without [loadAtIndex]. *)
Lemma prepareLoadAtIndex_appends_without_index_witness :
  exists t : Track,
    Gantt.prepareLoadAtIndex std_lang std_utils Gantt.std_gantt_env ∅
      sample_track_config (sample_track_content JUndefined) (JNum (Fin 3))
    = (∅,
       Gantt.set_trackList (sample_tracks ++ [("track 4", t)])
         sample_track_config,
       Returns (JNum (Fin 3)))
    /\ trackLabel t = JStr "Track 4".
Proof.
  apply (prepareLoadAtIndex_appends_without_index std_lang std_utils
           Gantt.std_gantt_env ∅ sample_track_config
           [("key", JStr "track 4");
            ("trackLabel", JObj [("display", JStr "Track 4")]);
            ("loadAtIndex", JUndefined)]
           [("display", JStr "Track 4")] 3).
  - reflexivity.
  - reflexivity.
  - reflexivity.
  - reflexivity.
  - apply (bool_decide_unpack _). vm_compute. exact I.
  - apply (bool_decide_unpack _). vm_compute. exact I.
  - apply (bool_decide_unpack _). vm_compute. exact I.
  - apply (bool_decide_unpack _). vm_compute. exact I.
  - lia.
Defined.

(** X21 on a fourth track with [loadAtIndex: 0]. *)
Lemma prepareLoadAtIndex_inserts_at_index_witness :
  exists (t : Track) (scale' : Scale) (sx sy : D3Scale),
    Gantt.prepareLoadAtIndex std_lang std_utils Gantt.std_gantt_env ∅
      sample_track_config (sample_track_content (JNum (Fin 0))) (JNum (Fin 3))
    = (scale',
       Gantt.set_trackList (("track 4", t) :: sample_tracks)
         sample_track_config,
       Returns (JNum (Fin 0)))
    /\ scale' !! "y" = Some sy
    /\ scale_domain sy
       = JArr [JStr "Track 4"; JStr "Track 1"; JStr "Track 2"; JStr "Track 3"]
    /\ length (scale_range sy) = 5%nat
    /\ scale' !! "x" = Some sx
    /\ clamp sx = true.
Proof.
  destruct (prepareLoadAtIndex_inserts_at_index std_lang std_utils
              Gantt.std_gantt_env ∅ sample_track_config
              [("key", JStr "track 4");
               ("trackLabel", JObj [("display", JStr "Track 4")]);
               ("loadAtIndex", JNum (Fin 0))]
              [("display", JStr "Track 4")] (JNum (Fin 3)) 0
              [JNum (Fin 1451606400000); JNum (Fin 1451692800000)])
    as (t & scale' & sx & sy & Hrun & Ht & Hy & _ & _ & Hdom & _ & Hlen & Hx
        & _ & Hclamp & _).
  - reflexivity.
  - reflexivity.
  - reflexivity.
  - reflexivity.
  - reflexivity.
  - apply (bool_decide_unpack _). vm_compute. exact I.
  - apply (bool_decide_unpack _). vm_compute. exact I.
  - apply (bool_decide_unpack _). vm_compute. exact I.
  - apply (bool_decide_unpack _). vm_compute. exact I.
  - lia.
  - reflexivity.
  - intros _. by eexists.
  - exists t, scale', sx, sy. split; [exact Hrun|]. split; [exact Hy|].
    split; [|split; [exact Hlen|split; [exact Hx|exact Hclamp]]].
    simpl in Ht. unfold Gantt.getYAxisDomain in Hdom. simpl in Hdom.
    rewrite Ht in Hdom. apply Hdom.
    apply (bool_decide_unpack _). vm_compute. exact I.
Defined.

(** X22 on a fourth track loaded at the index 1 and unloaded again. *)
Lemma track_load_unload_round_trip_witness :
  let content := sample_track_content (JNum (Fin 1)) in
  let loaded :=
    Gantt.prepareLoadAtIndex std_lang std_utils Gantt.std_gantt_env ∅
      sample_track_config content (JNum (Fin 3)) in
  loaded.2 = Returns (JNum (Fin 1))
  /\ GanttTracks.updateTrackProps std_lang
       (GanttTracks.updateTrackProps std_lang loaded.1.2 content true).1
       content false
     = (sample_track_config, Returns tt).
Proof.
  intros content loaded. split; [reflexivity|].
  apply (track_load_unload_round_trip std_lang std_utils Gantt.std_gantt_env
           ∅ loaded.1.1 sample_track_config loaded.1.2 content (JNum (Fin 3))
           (JStr "track 4") (JNum (Fin 1))).
  - reflexivity.
  - apply (bool_decide_unpack _). vm_compute. exact I.
  - apply (bool_decide_unpack _). vm_compute. exact I.
  - apply (bool_decide_unpack _). vm_compute. exact I.
  - apply (bool_decide_unpack _). vm_compute. exact I.
  - vm_compute. reflexivity.
Defined.

(** ** The vertical grids of the datetime buckets *)

Section DatetimeGridFacts.
Context (lang : Lang) (utils : Utils) (gstyles : DatetimeGrid.GridStyles).
Context {S A : Type}.

#[local] Existing Instance DatetimeGrid.Step_ret.
#[local] Existing Instance DatetimeGrid.Step_bind.

(** One grid of a bucket: the handler is called with the class of the grid
    and the tick values, when there are any. *)
Definition bucket_grid (handler : @DatetimeGrid.Handler S A) (axis_obj : A)
    (config : Config) (style : string) (values : JsVal)
    : @DatetimeGrid.Step S unit :=
  if notEmpty utils values then
    fun gridSVG =>
      handler gridSVG axis_obj style
        (DatetimeGrid.OfBucket
           (DatetimeGrid.createDatetimeBucketConfig lang values
              (height config) (orientation (axis_x (axis config)))))
  else mret tt.

(** X23.  With datetime buckets, and a lower-step list that is not an
    empty array (it is truthy exactly when it is not empty), [createVGrid]
    draws up to three grids in this order: the lower-step grid at the
    lower-step tick values, or at the plain [values] when no lower-step
    list is given, the same choice [prepareHAxis] makes for the labels of
    the axis; the midpoint grid; the upper-step grid.  A grid whose list is
    empty is left out, and a handler that throws stops the rest. *)
Theorem createVGrid_bucket_grids
    (handler : @DatetimeGrid.Handler S A) (axis_obj : A) (config : Config)
    (fields : list (string * JsVal)) (gridSVG : S) :
  let lower := assoc "lowerStepTickValues" fields in
  let values := assoc "values" fields in
  let midpoint := assoc "midpointTickValues" fields in
  let upper := assoc "upperStepTickValues" fields in
  ticks (axis_x (axis config)) = JObj fields ->
  DatetimeBuckets.hasDatetimeBuckets utils (JObj fields) = Returns true ->
  truthy lower = notEmpty utils lower ->
  DatetimeGrid.createVGrid lang utils gstyles axis_obj config handler gridSVG
  = (bucket_grid handler axis_obj config
       (DatetimeGrid.gridLowerStep gstyles)
       (if truthy lower then lower else values);;
     bucket_grid handler axis_obj config
       (DatetimeGrid.gridMidpoint gstyles) midpoint;;
     bucket_grid handler axis_obj config
       (DatetimeGrid.gridUpperStep gstyles) upper) gridSVG.
Proof.
  intros lower values midpoint upper Hticks Hhas Hlower.
  subst lower values midpoint upper.
  unfold DatetimeGrid.createVGrid, DatetimeGrid.createDatetimeBuckets.
  rewrite Hticks, Hhas.
  unfold mbind, DatetimeGrid.Step_bind, DatetimeGrid.read, bucket_grid.
  cbn [get_prop].
  unfold DatetimeGrid.createVGridForDatetimeBuckets. rewrite Hlower.
  unfold notEmpty.
  destruct (isEmpty utils (assoc "lowerStepTickValues" fields)) eqn:Hl;
    cbn [negb andb].
  - rewrite andb_true_r. by destruct (isEmpty utils (assoc "values" fields)).
  - rewrite andb_false_r, Hl. reflexivity.
Qed.

End DatetimeGridFacts.

(** A configuration with three tiers of ticks and no lower-step list, and
    a handler that records the class and the tick values of each grid. *)
Definition bucket_ticks : list (string * JsVal) :=
  [("values", JArr [JStr "01:00"; JStr "03:00"]);
   ("midpointTickValues", JArr [JStr "02:00"]);
   ("upperStepTickValues", JArr [JStr "Jan 1"])].

Definition bucket_config : Config :=
  let a :=
    {| type := TIME_SERIES; domain := JUndefined; ticks := JObj bucket_ticks;
       orientation := JStr "bottom"; rangeRounding := JUndefined;
       dataRange := None; trackList := []; trackCount := 0 |} in
  {| axis := {| axis_x := a; axis_y := sample_axis; axis_y2 := sample_axis |};
     canvasWidth := 500; height := 200; padding := padding (sample_config []);
     axisSizes_y := 0; axisLabelWidths_y := 0; shownTargets := [];
     dateline := JArr []; others := [] |}.

Definition recording_handler
    : @DatetimeGrid.Handler (list (string * JsVal)) unit :=
  fun grids _ style config =>
    (grids ++ [(style,
                match config with
                | DatetimeGrid.OfBucket b => DatetimeGrid.bucket_values b
                | DatetimeGrid.OfGraph _ => JUndefined
                end)],
     Returns tt).

(** X23 on that configuration: the lower-step grid is drawn at the plain
    values. *)
Lemma createVGrid_bucket_grids_witness :
  DatetimeGrid.createVGrid std_lang std_utils DatetimeGrid.std_grid_styles tt
    bucket_config recording_handler []
  = ([("carbon-grid-lower-step", JArr [JStr "01:00"; JStr "03:00"]);
      ("carbon-grid-midpoint", JArr [JStr "02:00"]);
      ("carbon-grid-upper-step", JArr [JStr "Jan 1"])],
     Returns tt).
Proof.
  etrans.
  - apply (createVGrid_bucket_grids std_lang std_utils
             DatetimeGrid.std_grid_styles recording_handler tt bucket_config
             bucket_ticks []); reflexivity.
  - reflexivity.
Defined.

(** ** Validation of a dateline *)

Section DatelineFacts.
Context (utils : Utils) (isDate : JsVal -> bool).

(** X24.  [validateDateline] accepts a dateline object exactly when the
    object is not empty, its value is not empty and is a date, its color is
    not empty and, if it shows the dateline indicator, its shape is not
    empty; a dateline without indicator needs no shape. *)
Theorem validateDateline_accepts_iff (fields : list (string * JsVal)) :
  Dateline.validateDateline utils isDate (JObj fields) = Returns tt
  <-> isEmpty utils (JObj fields) = false
      /\ isEmpty utils (assoc "value" fields) = false
      /\ isDate (assoc "value" fields) = true
      /\ isEmpty utils (assoc "color" fields) = false
      /\ (truthy (assoc "showDatelineIndicator" fields) = true ->
          isEmpty utils (assoc "shape" fields) = false).
Proof.
  unfold Dateline.validateDateline. simpl.
  destruct (isEmpty utils (JObj fields)); simpl; [split; [done|by intros [? _]]|].
  destruct (isEmpty utils (assoc "value" fields)); simpl;
    [split; [done|by intros (_ & ? & _)]|].
  destruct (isDate (assoc "value" fields)); simpl;
    [|split; [done|by intros (_ & _ & ? & _)]].
  destruct (isEmpty utils (assoc "color" fields)); simpl;
    [split; [done|by intros (_ & _ & _ & ? & _)]|].
  destruct (truthy (assoc "showDatelineIndicator" fields)); simpl.
  - destruct (isEmpty utils (assoc "shape" fields)); simpl.
    + split; [done|]. intros (_ & _ & _ & _ & H). by specialize (H eq_refl).
    + split; [|done]. by intros _.
  - split; [|done]. intros _. repeat split. done.
Qed.

End DatelineFacts.

(** ** The shown targets under the clicks on the legend *)

Section ShownTargetFacts.

Lemma legend_indexOf_first (l : list string) (key : string) :
  key ∈ l ->
  exists l1 l2,
    l = l1 ++ key :: l2
    /\ (key ∉ l1)
    /\ PairedResultLegend.indexOf l key = Z.of_nat (length l1).
Proof.
  intros Hin. unfold PairedResultLegend.indexOf.
  destruct (list_find (fun k => k = key) l) as [[i k]|] eqn:Hfind.
  - apply list_find_Some in Hfind as (Hi & -> & Hbefore).
    exists (take i l), (drop (S i) l).
    split; [by rewrite (take_drop_middle _ _ _ Hi)|].
    split.
    + intros Hk. apply list_elem_of_lookup_1 in Hk as [j Hj].
      pose proof (lookup_lt_Some _ _ _ Hj) as Hlt.
      rewrite lookup_take_lt in Hj by (rewrite length_take in Hlt; lia).
      apply (Hbefore j key Hj); [|done]. rewrite length_take in Hlt. lia.
    + rewrite length_take. apply lookup_lt_Some in Hi. f_equal. lia.
  - apply list_find_None in Hfind. rewrite Forall_forall in Hfind.
    by destruct (Hfind key Hin).
Qed.

Lemma legend_indexOf_absent (l : list string) (key : string) :
  key ∉ l -> PairedResultLegend.indexOf l key = -1.
Proof.
  intros Hk. unfold PairedResultLegend.indexOf.
  destruct (list_find (fun k => k = key) l) as [[i k]|] eqn:Hfind; [|done].
  apply list_find_Some in Hfind as (Hi & -> & _).
  exfalso. apply Hk. by eapply list_elem_of_lookup_2.
Qed.

(** X25.  On a list of shown targets without duplicates, a click on the
    legend item of [key] flips whether [key] is shown and nothing else: the
    other targets stay, in their order, a hidden target is put at the end,
    and the list stays without duplicates. *)
Theorem updateShownTarget_flips_key (shownTargets : list string) (key : string) :
  NoDup shownTargets ->
  let after := PairedResultLegend.updateShownTarget shownTargets key in
  NoDup after
  /\ (key ∈ after <-> key ∉ shownTargets)
  /\ filter (fun k => k <> key) after = filter (fun k => k <> key) shownTargets
  /\ (key ∉ shownTargets -> after = shownTargets ++ [key]).
Proof.
  intros Hnd after. subst after. unfold PairedResultLegend.updateShownTarget.
  destruct (decide (key ∈ shownTargets)) as [Hin|Hout].
  - destruct (legend_indexOf_first _ _ Hin) as (l1 & l2 & -> & Hl1 & ->).
    rewrite bool_decide_eq_true_2 by lia. rewrite Nat2Z.id, delete_middle.
    apply NoDup_app in Hnd as (Hnd1 & Hdisj & Hnd2).
    apply NoDup_cons in Hnd2 as [Hl2 Hnd2].
    split.
    { apply NoDup_app. split; [done|]. split; [|done].
      intros x Hx Hx'. apply (Hdisj x Hx). by right. }
    split.
    { split; [|done]. intros Hk. apply elem_of_app in Hk as [Hk|Hk]; done. }
    split; [|done].
    rewrite !filter_app, filter_cons_False by (intros H; by apply H).
    reflexivity.
  - rewrite (legend_indexOf_absent _ _ Hout).
    rewrite bool_decide_eq_false_2 by lia.
    split.
    { apply NoDup_app. split; [done|]. split; [|apply NoDup_singleton].
      intros x Hx Hx'. apply list_elem_of_singleton in Hx' as ->. done. }
    split; [split; [done|intros _; set_solver]|].
    split; [|done].
    rewrite filter_app, filter_cons_False by (intros H; by apply H).
    by rewrite filter_nil, app_nil_r.
Qed.

End ShownTargetFacts.

(** X25 on the targets of a paired result, for a shown and for a hidden
    target. *)
Lemma updateShownTarget_flips_key_witness :
  PairedResultLegend.updateShownTarget
    ["uid_1_high"; "uid_1_mid"; "uid_1_low"] "uid_1_mid"
  = ["uid_1_high"; "uid_1_low"]
  /\ PairedResultLegend.updateShownTarget
       ["uid_1_high"; "uid_1_low"] "uid_1_mid"
     = ["uid_1_high"; "uid_1_low"; "uid_1_mid"].
Proof.
  split; [reflexivity|].
  apply (updateShownTarget_flips_key ["uid_1_high"; "uid_1_low"] "uid_1_mid").
  - apply (bool_decide_unpack _). vm_compute. exact I.
  - apply (bool_decide_unpack _). vm_compute. exact I.
Defined.

(** ** The shown targets under [processDataPoints] of a paired result *)

Section ProcessDataPointsFacts.
Context (lang : Lang) (penv : PairedResultData.PairedEnv).

(** [utils.hasValue] tells whether the list holds the key. *)
Hypothesis hasValue_spec : forall l k,
  PairedResultData.hasValue penv l k = bool_decide (k ∈ l).

(** The key of the pair item of a type: [`${dataTarget.key}_${type}`]. *)
Definition pair_key (dataTarget : JsVal) (type : string) : string :=
  ToString lang (default JUndefined
                   (match get_prop dataTarget "key" with
                    | Returns k => Some k | Throws _ => None end))
  +:+ "_" +:+ type.

(** The list of shown targets has grown by keys of pair items, without
    a key being put in twice. *)
Definition grown (dataTarget : JsVal) (types : list string)
    (before after : list string) : Prop :=
  exists added,
    after = before ++ added
    /\ Forall (fun k => exists t, t ∈ types /\ k = pair_key dataTarget t) added
    /\ (NoDup before -> NoDup after).

Lemma grown_refl dataTarget types l : grown dataTarget types l l.
Proof. exists []. by rewrite app_nil_r. Qed.

Lemma grown_trans dataTarget types l1 l2 l3 :
  grown dataTarget types l1 l2 -> grown dataTarget types l2 l3 ->
  grown dataTarget types l1 l3.
Proof.
  intros (a1 & -> & H1 & N1) (a2 & -> & H2 & N2).
  exists (a1 ++ a2). rewrite app_assoc. split; [done|].
  split; [by apply Forall_app|]. auto.
Qed.

Lemma grown_mono dataTarget types types' l1 l2 :
  types ⊆ types' -> grown dataTarget types l1 l2 ->
  grown dataTarget types' l1 l2.
Proof.
  intros Hsub (a & -> & H & N). exists a. split; [done|]. split; [|done].
  eapply Forall_impl; [exact H|]. intros k (t & Ht & ->). exists t.
  split; [by apply Hsub|done].
Qed.

(** What one pair item type does to the shown targets. *)
Lemma processPairType_shown (axisType : AXIS_TYPE) (dataTarget value : JsVal)
    (type : string) (shown : list string) (subset : list (string * JsVal)) :
  let run :=
    PairedResultData.processPairType lang penv axisType dataTarget value type
      shown subset in
  grown dataTarget [type] shown run.1
  /\ (forall subset' d,
        run.2 = Returns subset' ->
        PairedResultLegend.getValue value type = Returns d ->
        PairedResultData.isDefined penv d = true ->
        pair_key dataTarget type ∈ run.1).
Proof.
  unfold PairedResultData.processPairType.
  destruct (PairedResultLegend.getValue value type) as [d|e] eqn:Hd;
    [|split; [apply grown_refl|discriminate]].
  cbn [mbind Outcome_bind].
  destruct (PairedResultData.isDefined penv d) eqn:Hdef;
    [|split; [apply grown_refl|intros ? ? _ [= <-]; congruence]].
  repeat match goal with
         | |- context [match (match ?o with Returns _ => _ | Throws _ => _ end)
                       with _ => _ end] =>
           destruct o as [?|?] eqn:?;
             [|split; [apply grown_refl|discriminate]]
         | |- context [mbind _ ?o] =>
           destruct o as [?|?] eqn:?; cbn [mbind Outcome_bind];
             [|split; [apply grown_refl|discriminate]]
         end.
  cbn [mret Outcome_ret assoc bool_decide decide_rel]. simpl.
  match goal with
  | H : get_prop dataTarget "key" = Returns ?k |- _ =>
    assert (Hkey : ToString lang k +:+ "_" +:+ type
                   = pair_key dataTarget type)
      by (unfold pair_key; by rewrite H)
  end.
  rewrite Hkey, hasValue_spec.
  destruct (decide (pair_key dataTarget type ∈ shown)) as [Hin|Hout].
  - rewrite bool_decide_eq_true_2 by done. simpl.
    split; [apply grown_refl|done].
  - rewrite bool_decide_eq_false_2 by done. simpl. split.
    + exists [pair_key dataTarget type]. split; [done|]. split.
      * constructor; [|constructor]. exists type. split; [left|done].
      * intros Hnd. apply NoDup_app. split; [done|].
        split; [|apply NoDup_singleton].
        intros x Hx Hx'. by apply list_elem_of_singleton in Hx' as ->.
    + intros _ _ _ _ _. set_solver.
Qed.

Lemma grown_elem dataTarget types l1 l2 k :
  grown dataTarget types l1 l2 -> k ∈ l1 -> k ∈ l2.
Proof. intros (a & -> & _) Hk. set_solver. Qed.

(** The pair item of the value is there for the type. *)
Definition has_item (value : JsVal) (type : string) : Prop :=
  exists d,
    PairedResultLegend.getValue value type = Returns d
    /\ PairedResultData.isDefined penv d = true.

Lemma iterateOnPairType_shown (axisType : AXIS_TYPE) (dataTarget value : JsVal)
    (types : list string) :
  forall (shown : list string) (subset : list (string * JsVal)),
    let run :=
      PairedResultData.iterateOnPairType
        (PairedResultData.processPairType lang penv axisType dataTarget value)
        types shown subset in
    grown dataTarget types shown run.1
    /\ (forall subset',
          run.2 = Returns subset' ->
          forall t, t ∈ types -> has_item value t ->
                    pair_key dataTarget t ∈ run.1).
Proof.
  induction types as [|t types IH]; intros shown subset; simpl.
  - split; [apply grown_refl|]. intros _ _ t Ht. by apply elem_of_nil in Ht.
  - destruct (processPairType_shown axisType dataTarget value t shown subset)
      as [Hgrown Hkey].
    destruct (PairedResultData.processPairType lang penv axisType dataTarget
                value t shown subset) as [shown1 [subset1|e]]; simpl in *.
    + destruct (IH shown1 subset1) as [Hgrown' Hkeys]. split.
      * eapply grown_trans.
        -- eapply grown_mono; [|exact Hgrown].
           intros x Hx. apply list_elem_of_singleton in Hx as ->. left.
        -- eapply grown_mono; [|exact Hgrown']. intros x Hx. by right.
      * intros subset' Hret t' Ht' (d & Hd & Hdef).
        apply elem_of_cons in Ht' as [->|Ht'].
        -- eapply grown_elem; [exact Hgrown'|]. by eapply Hkey.
        -- eapply Hkeys; [exact Hret|exact Ht'|by exists d].
    + split; [|discriminate]. eapply grown_mono; [|exact Hgrown].
      intros x Hx. apply list_elem_of_singleton in Hx as ->. left.
Qed.

Lemma processValue_shown (axisType : AXIS_TYPE) (dataTarget value : JsVal)
    (shown : list string) :
  let run :=
    PairedResultData.processValue lang penv axisType dataTarget value shown in
  grown dataTarget (PairedResultData.PAIR_ITEM_TYPES penv) shown run.1
  /\ (forall subset,
        run.2 = Returns subset ->
        forall t, t ∈ PairedResultData.PAIR_ITEM_TYPES penv ->
                  has_item value t -> pair_key dataTarget t ∈ run.1).
Proof.
  unfold PairedResultData.processValue.
  destruct (iterateOnPairType_shown axisType dataTarget value
              (PairedResultData.PAIR_ITEM_TYPES penv) shown [])
    as [Hgrown Hkeys].
  destruct (PairedResultData.iterateOnPairType _ _ _ _)
    as [shown1 [subset1|e]]; simpl in *.
  - split; [exact Hgrown|]. intros subset _. by apply (Hkeys subset1).
  - split; [exact Hgrown|discriminate].
Qed.

Lemma map_values_shown (axisType : AXIS_TYPE) (dataTarget : JsVal)
    (values : list JsVal) :
  forall shown : list string,
    let run :=
      PairedResultData.map_values
        (PairedResultData.processValue lang penv axisType dataTarget)
        values shown in
    grown dataTarget (PairedResultData.PAIR_ITEM_TYPES penv) shown run.1
    /\ (forall subsets,
          run.2 = Returns subsets ->
          forall value t,
            value ∈ values -> t ∈ PairedResultData.PAIR_ITEM_TYPES penv ->
            has_item value t -> pair_key dataTarget t ∈ run.1).
Proof.
  induction values as [|value values IH]; intros shown; simpl.
  - split; [apply grown_refl|]. intros _ _ v t Hv. by apply elem_of_nil in Hv.
  - destruct (processValue_shown axisType dataTarget value shown)
      as [Hgrown Hkey].
    destruct (PairedResultData.processValue lang penv axisType dataTarget
                value shown) as [shown1 [subset1|e]]; simpl in *;
      [|split; [exact Hgrown|discriminate]].
    destruct (IH shown1) as [Hgrown' Hkeys].
    destruct (PairedResultData.map_values _ values shown1)
      as [shown2 [subsets|e]]; simpl in *.
    + split; [by eapply grown_trans|].
      intros _ _ v t Hv Ht Hitem. apply elem_of_cons in Hv as [->|Hv].
      * eapply grown_elem; [exact Hgrown'|]. by eapply Hkey.
      * by eapply Hkeys.
    + split; [by eapply grown_trans|discriminate].
Qed.

(** X26.  [processDataPoints] of a paired result only adds to the shown
    targets of the graph: the list it finds stays as a prefix, what is
    added are keys [`${key}_${type}`] of pair item types, none is put in
    twice, and this holds also when the call throws for a value of a wrong
    type, after the items before it have been shown.  When the call
    returns, every pair item that a value has is a shown target. *)
Theorem processDataPoints_shows_pair_items
    (graphConfig : Config) (fields : list (string * JsVal))
    (values : list JsVal) :
  let dataTarget := JObj fields in
  let run :=
    PairedResultData.processDataPoints lang penv graphConfig dataTarget in
  assoc "values" fields = JArr values ->
  grown dataTarget (PairedResultData.PAIR_ITEM_TYPES penv)
    (shownTargets graphConfig) (shownTargets run.1)
  /\ (forall result,
        run.2 = Returns result ->
        forall value t,
          value ∈ values -> t ∈ PairedResultData.PAIR_ITEM_TYPES penv ->
          has_item value t ->
          pair_key dataTarget t ∈ shownTargets run.1).
Proof.
  intros dataTarget run Hvalues. subst run.
  unfold PairedResultData.processDataPoints. cbn [get_prop dataTarget].
  rewrite Hvalues.
  destruct (map_values_shown (type (axis_x (axis graphConfig))) dataTarget
              values (shownTargets graphConfig)) as [Hgrown Hkeys].
  destruct (PairedResultData.map_values _ values _)
    as [shown [subsets|e]]; simpl in *.
  - split; [exact Hgrown|]. intros result _. by apply (Hkeys subsets).
  - split; [exact Hgrown|discriminate].
Qed.

End ProcessDataPointsFacts.

(** A paired result with two values, the second without a low item. *)
Definition sample_paired_target : list (string * JsVal) :=
  [("key", JStr "uid_1");
   ("values",
    JArr [JObj [("high", JObj [("x", JNum (Fin 1)); ("y", JNum (Fin 150))]);
                ("low", JObj [("x", JNum (Fin 1)); ("y", JNum (Fin 10))])];
          JObj [("high", JObj [("x", JNum (Fin 2)); ("y", JNum (Fin 110))]);
                ("mid", JObj [("x", JNum (Fin 2)); ("y", JNum (Fin 70))])]])].

(** X26 on that paired result, loaded into a graph that shows another
    target. *)
Lemma processDataPoints_shows_pair_items_witness :
  shownTargets
    (PairedResultData.processDataPoints std_lang
       PairedResultData.std_paired_env (sample_config ["uid_0"])
       (JObj sample_paired_target)).1
  = ["uid_0"; "uid_1_high"; "uid_1_low"; "uid_1_mid"]
  /\ grown std_lang (JObj sample_paired_target) ["high"; "mid"; "low"]
       ["uid_0"]
       (shownTargets
          (PairedResultData.processDataPoints std_lang
             PairedResultData.std_paired_env (sample_config ["uid_0"])
             (JObj sample_paired_target)).1).
Proof.
  split; [reflexivity|].
  apply (processDataPoints_shows_pair_items std_lang
           PairedResultData.std_paired_env (fun _ _ => eq_refl)
           (sample_config ["uid_0"]) sample_paired_target _ eq_refl).
Defined.
